(** * Terminal tool server: a shallow embedding of its dispatch core

    The development follows the JavaScript sources of the tool server:
    - [tools/base-tool.js]         the dispatch wrapper ([BaseTool.execute]),
    - [tools/tool-registry.js]     the registry (a JS [Map] of tools),
    - [utils/command-utils.js]     the execution option builder,
    - [config/config-manager.js]   the command permission check,
    - [config/constants.js]        the interpreter lookup tables,
    - [tools/execute-script.js]    the script handler and its temp file,
    - [tools/process-manager.js]   the process listing handler,
    - [utils/file-utils.js]        path validation and directory creation.

    Conventions of the embedding.  A JS object is an association list of
    own properties in insertion order; an absent property reads as
    [VUndefined].  JS numbers are modelled as integers ([Z]); strings are
    byte strings, and white space is the ASCII one.  Case folding is the
    ASCII one where only ASCII can matter; in the permission check, where
    the text is the user's, it is a parameter.  A JS
    call that may throw returns an [Outcome].  Code that talks to the
    operating system threads an explicit world state. *)

From Stdlib Require Import ZArith List String Ascii Bool Lia.
From stdpp Require Import base option list gmap strings pretty.
Import ListNotations.
Local Open Scope string_scope.
Local Open Scope Z_scope.

(** ** JavaScript values, objects and exceptions *)

Module Js.

#[local] Set Warnings "-register-all".
Inductive JsVal : Type :=
| VUndefined
| VNull
| VBool (b : bool)
| VNum (n : Z)
| VStr (s : string)
| VObj (fields : list (string * JsVal)).

Definition JsObj : Type := list (string * JsVal).

(** An optional property or argument is there. *)
Definition present {A : Type} (o : option A) : bool :=
  match o with Some _ => true | None => false end.

(** [ToBoolean]: [undefined], [null], [false], [0] and the empty string
    are falsy, everything else (objects included) is truthy. *)
Definition truthy (v : JsVal) : bool :=
  match v with
  | VUndefined | VNull => false
  | VBool b => b
  | VNum n => negb (n =? 0)
  | VStr s => negb (String.eqb s "")
  | VObj _ => true
  end.

(** [v.toString()] for the values on which it is defined. *)
Definition toString (v : JsVal) : string :=
  match v with
  | VUndefined => "undefined"
  | VNull => "null"
  | VBool true => "true"
  | VBool false => "false"
  | VNum n => pretty n
  | VStr s => s
  | VObj _ => "[object Object]"
  end.

(** Property read [o[k]] on own properties. *)
Fixpoint obj_get (k : string) (o : JsObj) : option JsVal :=
  match o with
  | [] => None
  | (k', v) :: o' => if String.eqb k k' then Some v else obj_get k o'
  end.

(** Property write [o[k] = v]: an existing key keeps its position, a new
    key is appended. *)
Fixpoint obj_set (k : string) (v : JsVal) (o : JsObj) : JsObj :=
  match o with
  | [] => [(k, v)]
  | (k', v') :: o' =>
      if String.eqb k k' then (k, v) :: o' else (k', v') :: obj_set k v o'
  end.

(** Object literal with a spread, [{ ...base, ...extra }]: the properties
    of [extra] are written over [base] one after the other. *)
Definition spread (base extra : JsObj) : JsObj :=
  fold_left (fun o kv => obj_set (fst kv) (snd kv) o) extra base.

(** [...(c && { k: v })]: spreading a falsy value adds nothing. *)
Definition spread_if (c : JsVal) (k : string) (v : JsVal) (base : JsObj) : JsObj :=
  if truthy c then spread base [(k, v)] else base.

(** [n || d] on an optional number: absent and [0] are falsy. *)
Definition or_number (n : option Z) (d : Z) : Z :=
  match n with
  | Some v => if v =? 0 then d else v
  | None => d
  end.

(** An optional string used as a condition ([if (s)], [s && ...],
    [s || ...]): absent and empty are falsy. *)
Definition nonempty (s : option string) : option string :=
  match s with
  | Some v => if String.eqb v "" then None else Some v
  | None => None
  end.

(** What a [throw] carries.  [instanceof McpError] is the flag
    [isMcpError]; the other fields are the properties the dispatch wrapper
    and the handlers probe ([code] is the protocol code of an [McpError],
    the exit code or the errno name of an OS error). *)
Record JsError : Type := mkError {
  isMcpError : bool;
  message : JsVal;
  stdout : JsVal;
  stderr : JsVal;
  code : JsVal;
  signal : JsVal;
  killed : JsVal
}.

Inductive Outcome (A : Type) : Type :=
| Returned (a : A)
| Raised (e : JsError).
Arguments Returned {A} a.
Arguments Raised {A} e.

(** [new Error(msg)] *)
Definition Error (msg : string) : JsError :=
  mkError false (VStr msg) VUndefined VUndefined VUndefined VUndefined VUndefined.

(** The protocol error codes of the SDK. *)
Definition InvalidParams : Z := -32602.
Definition MethodNotFound : Z := -32601.
Definition InternalError : Z := -32603.

(** An error of a Node system call: [message] and the errno name in
    [code]. *)
Definition SystemError (errno msg : string) : JsError :=
  mkError false (VStr msg) VUndefined VUndefined (VStr errno) VUndefined VUndefined.

(** [new McpError(code, msg)]; the prefix the SDK puts before the message
    is left out. *)
Definition McpError (c : Z) (msg : string) : JsError :=
  mkError true (VStr msg) VUndefined VUndefined (VNum c) VUndefined VUndefined.

End Js.
Import Js.

(** ** Strings: the [String.prototype] methods the sources call *)

Module Str.

Definition is_upper (a : ascii) : bool :=
  let n := nat_of_ascii a in (Nat.leb 65 n && Nat.leb n 90)%bool.

Definition lower_char (a : ascii) : ascii :=
  if is_upper a then ascii_of_nat (nat_of_ascii a + 32) else a.

(** [s.toLowerCase()] *)
Fixpoint toLowerCase (s : string) : string :=
  match s with
  | EmptyString => EmptyString
  | String a s' => String (lower_char a) (toLowerCase s')
  end.

(** [s.startsWith(p)] *)
Fixpoint startsWith (s p : string) {struct p} : bool :=
  match p, s with
  | EmptyString, _ => true
  | String _ _, EmptyString => false
  | String b p', String a s' => Ascii.eqb a b && startsWith s' p'
  end.

(** [s.includes(p)] *)
Fixpoint includes (s p : string) : bool :=
  startsWith s p ||
  match s with
  | EmptyString => false
  | String _ s' => includes s' p
  end.

(** [s.split(sep)] for a one-character separator: never empty. *)
Fixpoint split (sep : ascii) (s : string) : list string :=
  match s with
  | EmptyString => [EmptyString]
  | String a s' =>
      if Ascii.eqb a sep then EmptyString :: split sep s'
      else match split sep s' with
           | [] => [String a EmptyString]
           | w :: ws => String a w :: ws
           end
  end.

(** [l.join(sep)] *)
Fixpoint join (sep : string) (l : list string) : string :=
  match l with
  | [] => EmptyString
  | [x] => x
  | x :: l' => x ++ sep ++ join sep l'
  end.

(** White space as [trim] and the regular expression class [\s] see it
    (on bytes: tab, line feed, vertical tab, form feed, carriage return,
    space). *)
Definition is_space (a : ascii) : bool :=
  let n := nat_of_ascii a in ((Nat.leb 9 n && Nat.leb n 13) || Nat.eqb n 32)%bool.

Fixpoint trimStart (s : string) : string :=
  match s with
  | EmptyString => EmptyString
  | String a s' => if is_space a then trimStart s' else s
  end.

Fixpoint trimEnd (s : string) : string :=
  match s with
  | EmptyString => EmptyString
  | String a s' =>
      match trimEnd s' with
      | EmptyString => if is_space a then EmptyString else String a EmptyString
      | t => String a t
      end
  end.

(** [s.trim()] *)
Definition trim (s : string) : string := trimEnd (trimStart s).

(** [s.split(/\s+/)]: [in_sep] tells that the previous character already
    belonged to a separator run. *)
Fixpoint split_ws_from (in_sep : bool) (s : string) : list string :=
  match s with
  | EmptyString => [EmptyString]
  | String a s' =>
      if is_space a then
        if in_sep then split_ws_from true s'
        else EmptyString :: split_ws_from true s'
      else match split_ws_from false s' with
           | [] => [String a EmptyString]
           | w :: ws => String a w :: ws
           end
  end.

Definition split_ws (s : string) : list string := split_ws_from false s.

(** [s.replace(/c/g, '')]: every occurrence of the character removed. *)
Fixpoint remove_char (c : ascii) (s : string) : string :=
  match s with
  | EmptyString => EmptyString
  | String a s' => if Ascii.eqb a c then remove_char c s' else String a (remove_char c s')
  end.

Definition digit_of (a : ascii) : option Z :=
  let n := nat_of_ascii a in
  if (Nat.leb 48 n && Nat.leb n 57)%bool then Some (Z.of_nat (n - 48)) else None.

Definition hex_digit_of (a : ascii) : option Z :=
  let n := nat_of_ascii a in
  if (Nat.leb 48 n && Nat.leb n 57)%bool then Some (Z.of_nat (n - 48))
  else if (Nat.leb 97 n && Nat.leb n 102)%bool then Some (Z.of_nat (n - 87))
  else if (Nat.leb 65 n && Nat.leb n 70)%bool then Some (Z.of_nat (n - 55))
  else None.

(** The longest prefix of digits in [radix], read left to right; [None]
    when there is no digit at all. *)
Fixpoint digits_from (digit : ascii -> option Z) (radix : Z) (acc : option Z) (s : string)
  : option Z :=
  match s with
  | EmptyString => acc
  | String a s' =>
      match digit a with
      | Some d => digits_from digit radix (Some (from_option id 0 acc * radix + d)) s'
      | None => acc
      end
  end.

Definition unsigned_from (s : string) : option Z :=
  match s with
  | String "0" (String x s') =>
      if (Ascii.eqb x "x" || Ascii.eqb x "X")%bool
      then digits_from hex_digit_of 16 None s'
      else digits_from digit_of 10 None s
  | _ => digits_from digit_of 10 None s
  end.

(** [parseInt(s)] without a radix; [None] is [NaN]. *)
Definition parseInt (s : string) : option Z :=
  match trimStart s with
  | String "-" s' => Z.opp <$> unsigned_from s'
  | String "+" s' => unsigned_from s'
  | s' => unsigned_from s'
  end.

End Str.

(** ** Paths: the POSIX flavour of Node's [path] module *)

Module Path.

Definition isAbsolute (p : string) : bool := Str.startsWith p "/".

Fixpoint endsWithSlash (p : string) : bool :=
  match p with
  | EmptyString => false
  | String a EmptyString => Ascii.eqb a "/"
  | String _ p' => endsWithSlash p'
  end.

(** One segment of [normalizeString]; the stack holds the segments kept
    so far, the last one first. *)
Definition norm_step (allowAboveRoot : bool) (stack : list string) (seg : string)
  : list string :=
  if (String.eqb seg "" || String.eqb seg ".")%bool then stack
  else if String.eqb seg ".." then
    match stack with
    | top :: below =>
        if String.eqb top ".."
        then (if allowAboveRoot then seg :: stack else stack)
        else below
    | [] => if allowAboveRoot then [seg] else []
    end
  else seg :: stack.

Definition normalizeString (path : string) (allowAboveRoot : bool) : string :=
  Str.join "/" (rev (fold_left (norm_step allowAboveRoot) (Str.split "/" path) [])).

(** [path.normalize(p)] *)
Definition normalize (path : string) : string :=
  if String.eqb path "" then "."
  else
    let abs := isAbsolute path in
    let trailing := endsWithSlash path in
    let p := normalizeString path (negb abs) in
    if String.eqb p "" then
      (if abs then "/" else if trailing then "./" else ".")
    else
      let p' := if trailing then p ++ "/" else p in
      if abs then "/" ++ p' else p'.

(** [path.resolve(p)] with one argument; [cwd] is [process.cwd()]. *)
Definition resolve (cwd path : string) : string :=
  let r1 := if String.eqb path "" then "" else path ++ "/" in
  let '(r2, abs) :=
    if (negb (String.eqb path "") && isAbsolute path)%bool then (r1, true)
    else if String.eqb cwd "" then (r1, false)
    else (cwd ++ "/" ++ r1, isAbsolute cwd) in
  let r := normalizeString r2 (negb abs) in
  if abs then "/" ++ r
  else if String.eqb r "" then "." else r.

(** [path.join(a, b)] *)
Definition join (a b : string) : string :=
  if String.eqb a "" then (if String.eqb b "" then "." else normalize b)
  else if String.eqb b "" then normalize a
  else normalize (a ++ "/" ++ b).

(** The segments of an absolute normalized path, and the path of a
    segment list. *)
Definition segments (p : string) : list string :=
  List.filter (fun seg => negb (String.eqb seg "")) (Str.split "/" p).

Definition of_segments (segs : list string) : string := "/" ++ Str.join "/" segs.

(** The containing directory, for the file system model below. *)
Definition parent (p : string) : string := of_segments (removelast (segments p)).

(** The proper ancestors and the path itself, outermost first. *)
Definition chain (p : string) : list string :=
  let segs := segments p in
  map (fun n => of_segments (firstn n segs)) (seq 1 (length segs)).

End Path.

(** ** The operating system: files, process environment, diagnostics

    The handlers reach the outside through Node's [fs], [os] and
    [child_process] modules.  The model keeps what the properties below
    are about: a tree
    of files and directories under absolute normalized paths, the set of
    paths on which the OS refuses changes, the random names [mkdtemp] will
    draw, and the constants of the process.  The diagnostics written by
    [console.error] and the system calls that were made are recorded
    beside it. *)

Module Os.

Inductive Node : Type :=
| File (content : string)
| Dir.

Record Machine : Type := mkMachine {
  fs : gmap string Node;
  deny : gset string;
  entropy : list string;
  homedir : string;
  cwd : string;
  tmpdir : string
}.

Inductive SysCall : Type :=
| SysMkdir (path : string)
| SysWrite (path : string)
| SysUnlink (path : string)
| SysExec (command : string).

Record World : Type := mkWorld {
  machine : Machine;
  console : list string;
  trace : list SysCall
}.

Definition with_fs (m : Machine) (f : gmap string Node) : Machine :=
  mkMachine f (deny m) (entropy m) (homedir m) (cwd m) (tmpdir m).

Definition with_machine (w : World) (m : Machine) : World :=
  mkWorld m (console w) (trace w).

(** [console.error(line)] *)
Definition console_error (line : string) (w : World) : World :=
  mkWorld (machine w) (console w ++ [line]) (trace w).

Definition record (c : SysCall) (w : World) : World :=
  mkWorld (machine w) (console w) (trace w ++ [c]).

(** The root directory always exists. *)
Definition node_at (m : Machine) (p : string) : option Node :=
  if String.eqb p "/" then Some Dir else fs m !! p.

Definition is_dir (m : Machine) (p : string) : bool :=
  match node_at m p with Some Dir => true | _ => false end.

Definition is_file (m : Machine) (p : string) : bool :=
  match node_at m p with Some (File _) => true | _ => false end.

Definition denied (m : Machine) (p : string) : bool := bool_decide (p ∈ deny m).

(** [fs.existsSync(p)] *)
Definition existsSync (m : Machine) (p : string) : bool :=
  match node_at m p with Some _ => true | None => false end.

(** [fs.statSync(p)] *)
Definition statSync (m : Machine) (p : string) : Outcome Node :=
  match node_at m p with
  | Some n => Returned n
  | None => Raised (SystemError "ENOENT" ("ENOENT: no such file or directory, stat '" ++ p ++ "'"))
  end.

Definition make_dirs (f : gmap string Node) (paths : list string) : gmap string Node :=
  fold_left (fun g q => <[q := Dir]> g) paths f.

(** [fs.mkdirSync(p, { recursive })] *)
Definition mkdirSync (m : Machine) (p : string) (recursive : bool) : Outcome unit * Machine :=
  if denied m p then
    (Raised (SystemError "EACCES" ("EACCES: permission denied, mkdir '" ++ p ++ "'")), m)
  else if recursive then
    if existsb (is_file m) (Path.chain p) then
      (Raised (SystemError (if is_file m p then "EEXIST" else "ENOTDIR")
                 ("file in the way, mkdir '" ++ p ++ "'")), m)
    else
      (Returned tt,
       with_fs m (make_dirs (fs m) (List.filter (fun q => negb (existsSync m q)) (Path.chain p))))
  else if existsSync m p then
    (Raised (SystemError "EEXIST" ("EEXIST: file already exists, mkdir '" ++ p ++ "'")), m)
  else if is_dir m (Path.parent p) then
    (Returned tt, with_fs m (<[p := Dir]> (fs m)))
  else
    (Raised (SystemError (if is_file m (Path.parent p) then "ENOTDIR" else "ENOENT")
               ("no such directory, mkdir '" ++ p ++ "'")), m).

(** [fs.mkdtempSync(prefix)]: the prefix followed by random characters. *)
Definition mkdtempSync (m : Machine) (prefix : string) : Outcome string * Machine :=
  match entropy m with
  | [] => (Raised (SystemError "EEXIST" ("EEXIST: file already exists, mkdtemp '" ++ prefix ++ "XXXXXX'")), m)
  | suffix :: rest =>
      let m1 := mkMachine (fs m) (deny m) rest (homedir m) (cwd m) (tmpdir m) in
      let d := prefix ++ suffix in
      match mkdirSync m1 d false with
      | (Returned _, m2) => (Returned d, m2)
      | (Raised e, m2) => (Raised e, m2)
      end
  end.

(** [fs.writeFileSync(p, content, 'utf8')] *)
Definition writeFileSync (m : Machine) (p content : string) : Outcome unit * Machine :=
  if denied m p then
    (Raised (SystemError "EACCES" ("EACCES: permission denied, open '" ++ p ++ "'")), m)
  else if is_dir m p then
    (Raised (SystemError "EISDIR" ("EISDIR: illegal operation on a directory, open '" ++ p ++ "'")), m)
  else if is_dir m (Path.parent p) then
    (Returned tt, with_fs m (<[p := File content]> (fs m)))
  else
    (Raised (SystemError "ENOENT" ("ENOENT: no such file or directory, open '" ++ p ++ "'")), m).

(** [fs.unlinkSync(p)] *)
Definition unlinkSync (m : Machine) (p : string) : Outcome unit * Machine :=
  match node_at m p with
  | None =>
      (Raised (SystemError "ENOENT" ("ENOENT: no such file or directory, unlink '" ++ p ++ "'")), m)
  | Some Dir =>
      (Raised (SystemError "EISDIR" ("EISDIR: illegal operation on a directory, unlink '" ++ p ++ "'")), m)
  | Some (File _) =>
      if denied m p then
        (Raised (SystemError "EACCES" ("EACCES: permission denied, unlink '" ++ p ++ "'")), m)
      else (Returned tt, with_fs m (delete p (fs m)))
  end.

(** What [util.promisify(child_process.exec)] resolves to. *)
Record ExecResult : Type := mkExecResult {
  res_stdout : string;
  res_stderr : string
}.

End Os.

(** ** What [child_process.exec] rejects with

    [exec] makes the error of a command that failed when the child has
    ended: [code] is the exit status, or [null] when the child died from a
    signal; [signal] is that signal or [null]; [killed] tells whether
    [exec] itself killed the child, which it does when its timer fires.
    When the output outgrows [maxBuffer], [exec] makes a [RangeError] with
    a code of its own at that moment and then kills the child; that error
    is the one handed on, and it has no [killed] and no [signal].  The
    promise version adds [stdout] and [stderr] to either. *)

Module ChildProcess.

Inductive Failure : Type :=
| Exited (status : Z)
| TimedOut (killSignal : string)
| Signalled (sig : string)
| Overflowed (stream : string).

Definition rejection (cmd : string) (failure : Failure) (out err : string) : JsError :=
  match failure with
  | Exited status =>
      mkError false (VStr ("Command failed: " ++ cmd ++ String "010"%char err))
        (VStr out) (VStr err) (VNum status) VNull (VBool false)
  | TimedOut killSignal =>
      mkError false (VStr ("Command failed: " ++ cmd ++ String "010"%char err))
        (VStr out) (VStr err) VNull (VStr killSignal) (VBool true)
  | Signalled sig =>
      mkError false (VStr ("Command failed: " ++ cmd ++ String "010"%char err))
        (VStr out) (VStr err) VNull (VStr sig) (VBool false)
  | Overflowed stream =>
      mkError false (VStr (stream ++ " maxBuffer length exceeded"))
        (VStr out) (VStr err) (VStr "ERR_CHILD_PROCESS_STDIO_MAXBUFFER")
        VUndefined VUndefined
  end.

(** A command that is not a string is refused before anything is started:
    [exec] throws a [TypeError] with a code; [received] is Node's
    description of the value it got. *)
Definition invalid_command (received : string) : JsError :=
  mkError false
    (VStr ("The " ++ String "034"%char "command" ++ String "034"%char
           " argument must be of type string. Received " ++ received))
    VUndefined VUndefined (VStr "ERR_INVALID_ARG_TYPE") VUndefined VUndefined.

End ChildProcess.

(** ** tools/base-tool.js: the dispatch wrapper *)

Module BaseTool.
Import Os.

(** What [run(args)] resolves or rejects with, and the world it leaves. *)
Definition Handler : Type := JsObj -> World -> Outcome JsObj * World.

Record BaseTool : Type := mkTool {
  name : string;
  description : string;
  inputSchema : JsVal;
  run : Handler
}.

(** [getDefinition()] *)
Record ToolDefinition : Type := mkDefinition {
  def_name : string;
  def_description : string;
  def_inputSchema : JsVal
}.

Definition getDefinition (t : BaseTool) : ToolDefinition :=
  mkDefinition (name t) (description t) (inputSchema t).

(** [formatSuccess(result, executionTime)]: the object handed to
    [JSON.stringify]; the [content] wrapper around the text is fixed. *)
Definition formatSuccess (result : JsObj) (executionTime : Z) : JsObj :=
  spread [("success", VBool true); ("execution_time_ms", VNum executionTime)] result.

(** [formatError(error, executionTime)] *)
Definition formatError (error : JsError) (executionTime : Z) : JsObj :=
  spread_if (killed error) "timeout" (VBool true)
    (spread_if (signal error) "signal" (signal error)
      (spread_if (code error) "exit_code" (code error)
        (spread_if (stderr error) "stderr" (VStr (toString (stderr error)))
          (spread_if (stdout error) "stdout" (VStr (toString (stdout error)))
            [("success", VBool false);
             ("execution_time_ms", VNum executionTime);
             ("error", message error)])))).

(** [execute(args)].  [startTime] and [endTime] are the two readings of
    [performance.now()], in whole milliseconds. *)
Definition execute (t : BaseTool) (args : JsObj) (startTime endTime : Z) (w : World)
  : Outcome JsObj * World :=
  match run t args w with
  | (Returned result, w') =>
      let executionTime := endTime - startTime in
      (Returned (formatSuccess result executionTime), w')
  | (Raised error, w') =>
      let executionTime := endTime - startTime in
      if isMcpError error then (Raised error, w')
      else (Returned (formatError error executionTime), w')
  end.

(** [validateArgs(args, required)] *)
Fixpoint validateArgs (args : JsObj) (required : list string) : Outcome unit :=
  match required with
  | [] => Returned tt
  | field :: rest =>
      if truthy (from_option id VUndefined (obj_get field args))
      then validateArgs args rest
      else Raised (McpError InvalidParams ("Missing required parameter: " ++ field))
  end.

End BaseTool.

(** ** tools/tool-registry.js: a JS [Map] from names to tools *)

Module ToolRegistry.
Import Os.

(** The [execute] property of a registered object: a function, or some
    other value, [undefined] when the object has no such property. *)
Inductive Method : Type :=
| Callable (run : JsObj -> Z -> Z -> World -> Outcome JsObj * World)
| NotCallable (value : JsVal).

(** [!!tool.execute]: a function is truthy. *)
Definition given (m : Method) : bool :=
  match m with
  | Callable _ => true
  | NotCallable value => truthy value
  end.

(** A registered object, with the properties the registry reads; its
    [getDefinition] is the one of the base class. *)
Record Tool : Type := mkRegTool {
  name : string;
  description : string;
  inputSchema : JsVal;
  execute : Method
}.

(** [tool.getDefinition()] *)
Definition getDefinition (t : Tool) : BaseTool.ToolDefinition :=
  BaseTool.mkDefinition (name t) (description t) (inputSchema t).

Definition of_BaseTool (t : BaseTool.BaseTool) : Tool :=
  mkRegTool (BaseTool.name t) (BaseTool.description t) (BaseTool.inputSchema t)
    (Callable (BaseTool.execute t)).

(** The entries of [this.tools], in the iteration order of the [Map]. *)
Definition Registry : Type := list (string * Tool).

(** [Map.prototype.set]: a present key keeps its place and takes the new
    value, a new key goes to the end. *)
Fixpoint map_set (k : string) (v : Tool) (m : Registry) : Registry :=
  match m with
  | [] => [(k, v)]
  | (k', v') :: m' =>
      if String.eqb k k' then (k, v) :: m' else (k', v') :: map_set k v m'
  end.

(** [Map.prototype.get] *)
Fixpoint map_get (k : string) (m : Registry) : option Tool :=
  match m with
  | [] => None
  | (k', v) :: m' => if String.eqb k k' then Some v else map_get k m'
  end.

(** [Map.prototype.delete]: the map without the key, and whether it was
    there. *)
Fixpoint map_delete (k : string) (m : Registry) : Registry :=
  match m with
  | [] => []
  | (k', v) :: m' => if String.eqb k k' then m' else (k', v) :: map_delete k m'
  end.

(** [register(tool)]; the line it prints on success is left out. *)
Definition register (tool : Tool) (r : Registry) : Outcome unit * Registry :=
  if (String.eqb (name tool) "" || negb (given (execute tool)))%bool
  then (Raised (Error "Tool must have a name and execute method"), r)
  else (Returned tt, map_set (name tool) tool r).

(** [unregister(toolName)] *)
Definition unregister (toolName : string) (r : Registry) : bool * Registry :=
  (present (map_get toolName r), map_delete toolName r).

(** [get(toolName)]: [None] is [undefined]. *)
Definition get (toolName : string) (r : Registry) : option Tool := map_get toolName r.

(** [has(toolName)] *)
Definition has (toolName : string) (r : Registry) : bool := present (map_get toolName r).

(** [list()] *)
Definition list_ (r : Registry) : list BaseTool.ToolDefinition :=
  map (fun kv => getDefinition (snd kv)) r.

(** [getToolNames()] and [size()] *)
Definition getToolNames (r : Registry) : list string := map fst r.
Definition size (r : Registry) : nat := length r.

(** [clear()] *)
Definition clear (r : Registry) : Registry := [].

(** Registering a sequence of tools; the first failure stops it, as a
    [throw] leaves the calling method. *)
Fixpoint register_all (tools : list Tool) (r : Registry) : Outcome unit * Registry :=
  match tools with
  | [] => (Returned tt, r)
  | t :: rest =>
      match register t r with
      | (Returned _, r') => register_all rest r'
      | (Raised e, r') => (Raised e, r')
      end
  end.

(** [execute(toolName, args)] *)
Definition execute_ (toolName : string) (args : JsObj) (startTime endTime : Z)
  (r : Registry) (w : World) : Outcome JsObj * World :=
  match get toolName r with
  | Some tool =>
      match execute tool with
      | Callable run => run args startTime endTime w
      | NotCallable _ => (Raised (Error "tool.execute is not a function"), w)
      end
  | None => (Raised (McpError MethodNotFound ("Unknown tool: " ++ toolName)), w)
  end.

(** Registration order, said directly: the names in the order in which
    each was first registered, skipping those in [seen]; and the tool a
    name was last registered with. *)
Fixpoint new_names (seen names : list string) : list string :=
  match names with
  | [] => []
  | n :: rest =>
      if existsb (String.eqb n) seen then new_names seen rest
      else n :: new_names (seen ++ [n]) rest
  end.

Fixpoint last_registered (n : string) (tools : list Tool) : option Tool :=
  match tools with
  | [] => None
  | t :: rest =>
      match last_registered n rest with
      | Some t' => Some t'
      | None => if String.eqb n (name t) then Some t else None
      end
  end.

(** The invariant of the map: distinct keys, each the name of its tool. *)
Definition well_keyed (m : Registry) : Prop :=
  NoDup (map fst m) /\ Forall (fun kv => fst kv = name (snd kv)) m.

(** A tool [register] accepts. *)
Definition acceptable (t : Tool) : bool :=
  (negb (String.eqb (name t) "") && given (execute t))%bool.

Section Defaults.

(** The nine built-in tools; their handlers and schemas are those of the
    tool classes. *)
Variable run_of : string -> BaseTool.Handler.
Variable schema_of : string -> JsVal.

Definition builtin (n d : string) : Tool :=
  of_BaseTool (BaseTool.mkTool n d (schema_of n) (run_of n)).

Definition defaultTools : list Tool :=
  [ builtin "execute_command"
      "Execute a shell command in the terminal with proper security and timeout handling";
    builtin "execute_script" "Execute a script with specified interpreter";
    builtin "get_system_info" "Get comprehensive system information";
    builtin "list_processes" "List running processes with filtering options";
    builtin "kill_process" "Terminate a process by PID with safety checks";
    builtin "file_read"
      "Read file contents with metadata - safer and more informative than shell commands";
    builtin "file_write"
      "Write content to a file with metadata - safer than shell redirection";
    builtin "file_operations"
      "Perform file operations (copy, move, delete) - safer than shell commands";
    builtin "directory_operations"
      "Perform directory operations (create, list, delete, exists) - better than shell commands" ].

(** [registerDefaultTools()] *)
Definition registerDefaultTools (r : Registry) : Outcome unit * Registry :=
  register_all defaultTools r.

(** [new ToolRegistry()] *)
Definition constructor : Outcome unit * Registry := registerDefaultTools [].

(** [reset()] *)
Definition reset (r : Registry) : Outcome unit * Registry :=
  registerDefaultTools (clear r).

(** The calls a client can make on a registry, and a sequence of them on
    a fresh one. *)
Inductive Call : Type :=
| CallRegister (tool : Tool)
| CallUnregister (toolName : string)
| CallClear
| CallReset.

Definition call (c : Call) (r : Registry) : Registry :=
  match c with
  | CallRegister tool => snd (register tool r)
  | CallUnregister toolName => snd (unregister toolName r)
  | CallClear => clear r
  | CallReset => snd (reset r)
  end.

Definition calls (cs : list Call) : Registry :=
  fold_left (fun r c => call c r) cs (snd constructor).

End Defaults.

End ToolRegistry.

(** ** config/constants.js *)

Module Constants.

Definition dquote : string := String "034"%char EmptyString.

Definition SCRIPT_EXTENSIONS : list (string * string) :=
  [ ("bash", ".sh"); ("sh", ".sh"); ("powershell", ".ps1"); ("cmd", ".bat");
    ("python", ".py"); ("python3", ".py"); ("node", ".js"); ("perl", ".pl");
    ("ruby", ".rb") ].

Definition quoted (path : string) : string := dquote ++ path ++ dquote.

Definition SCRIPT_COMMANDS : list (string * (string -> string)) :=
  [ ("bash", fun path => "bash " ++ quoted path);
    ("sh", fun path => "sh " ++ quoted path);
    ("powershell", fun path => "powershell -ExecutionPolicy Bypass -File " ++ quoted path);
    ("cmd", fun path => "cmd /c " ++ quoted path);
    ("python", fun path => "python " ++ quoted path);
    ("python3", fun path => "python3 " ++ quoted path);
    ("node", fun path => "node " ++ quoted path);
    ("perl", fun path => "perl " ++ quoted path);
    ("ruby", fun path => "ruby " ++ quoted path) ].

(** The own property [key] of a constant table, if it has one. *)
Fixpoint lookup {A : Type} (table : list (string * A)) (key : string) : option A :=
  match table with
  | [] => None
  | (k, v) :: rest => if String.eqb key k then Some v else lookup rest key
  end.

(** The tables are object literals, so a property read on them also finds
    what every object inherits from [Object.prototype]. *)
Definition prototype_members : list string :=
  ["constructor"; "__defineGetter__"; "__defineSetter__"; "hasOwnProperty";
   "__lookupGetter__"; "__lookupSetter__"; "isPrototypeOf"; "propertyIsEnumerable";
   "toString"; "valueOf"; "__proto__"; "toLocaleString"].

Inductive Member (A : Type) : Type :=
| Own (value : A)
| Inherited (name : string)
| Missing.
Arguments Own {A} value.
Arguments Inherited {A} name.
Arguments Missing {A}.

(** The property read [table[key]] with a key that may be any string: an
    own property, else a member of [Object.prototype], else
    [undefined]. *)
Definition read {A : Type} (table : list (string * A)) (key : string) : Member A :=
  match lookup table key with
  | Some value => Own value
  | None =>
      if existsb (String.eqb key) prototype_members then Inherited key else Missing
  end.

Module PROCESS_LIMITS.
Definition DEFAULT_LIMIT : Z := 50.
Definition MAX_LIMIT : Z := 500.
End PROCESS_LIMITS.

Module TIMEOUTS.
Definition COMMAND : Z := 30000.
Definition SCRIPT : Z := 60000.
Definition PROCESS : Z := 10000.
Definition KILL : Z := 5000.
End TIMEOUTS.

Definition DIRECTORY_OPERATIONS : list (string * string) :=
  [ ("CREATE", "create"); ("LIST", "list"); ("DELETE", "delete"); ("EXISTS", "exists") ].

End Constants.

(** ** utils/command-utils.js: the execution option builder *)

Module CommandUtils.

Definition MAX_BUFFER_SIZE : Z := 1024 * 1024 * 10.
Definition DEFAULT_TIMEOUT : Z := 30000.
Definition MAX_TIMEOUT : Z := 300000.

(** The caller's options; an absent property is [None]. *)
Record RawOptions : Type := mkRaw {
  raw_timeout : option Z;
  raw_working_directory : option string;
  raw_environment : option JsObj
}.

Record ExecOptions : Type := mkExecOptions {
  timeout : Z;
  maxBuffer : Z;
  env : JsObj;
  cwd : option string
}.

(** [getExecOptions(options)]; [process_env] is [process.env]. *)
Definition getExecOptions (process_env : JsObj) (options : RawOptions) : ExecOptions :=
  mkExecOptions
    (Z.min (or_number (raw_timeout options) DEFAULT_TIMEOUT) MAX_TIMEOUT)
    MAX_BUFFER_SIZE
    (match raw_environment options with
     | Some e => spread process_env e
     | None => process_env
     end)
    (nonempty (raw_working_directory options)).

End CommandUtils.

(** ** config/config-manager.js: the command permission check *)

Module ConfigManager.

Record Config : Type := mkConfig {
  maxBufferSize : Z;
  defaultTimeout : Z;
  maxTimeout : Z;
  scriptTimeout : Z;
  processListLimit : Z;
  maxProcessLimit : Z;
  allowedInterpreters : list string;
  enableLogging : bool;
  logLevel : string;
  securityMode : string;
  commandWhitelist : list string;
  commandBlacklist : list string
}.

Definition defaults : Config :=
  mkConfig (10 * 1024 * 1024) 30000 300000 60000 50 500
    ["bash"; "sh"; "powershell"; "cmd"; "python"; "python3"; "node"; "perl"; "ruby"]
    true "info" "standard" [] [].

Section Folding.

(** [String.prototype.toLowerCase], which folds the letters of every
    script. *)
Variable toLowerCase : string -> string.

(** The arrow function given to [some]: the lower-cased command contains
    the lower-cased pattern. *)
Definition matches (command pattern : string) : bool :=
  Str.includes (toLowerCase command) (toLowerCase pattern).

(** [isCommandAllowed(command)] *)
Definition isCommandAllowed (config : Config) (command : string) : bool :=
  if String.eqb (securityMode config) "strict" then
    if Nat.eqb (length (commandWhitelist config)) 0 then false
    else existsb (matches command) (commandWhitelist config)
  else if Nat.ltb 0 (length (commandBlacklist config)) then
    negb (existsb (matches command) (commandBlacklist config))
  else true.

End Folding.

(** [isInterpreterAllowed(interpreter)] *)
Definition isInterpreterAllowed (config : Config) (interpreter : string) : bool :=
  existsb (String.eqb interpreter) (allowedInterpreters config).

End ConfigManager.

(** ** tools/execute-script.js *)

Module ExecuteScriptTool.
Import Os CommandUtils.

(** The arguments, typed as the tool's schema declares them;
    [script_content] stays a raw value because [run] checks its type. *)
Record Args : Type := mkArgs {
  script_content : JsVal;
  interpreter : string;
  working_directory : option string;
  arg_timeout : option Z
}.

(** What the call [commandBuilder(scriptPath)] can yield: a string, as the
    builders of the table do; or, from a member of [Object.prototype], a
    string, the String object [Object(scriptPath)], or a boolean. *)
Inductive Called : Type :=
| Text (text : string)
| StringObject (text : string)
| Boolean (b : bool).

Section Run.

(** The members of [Object.prototype], which belong to the engine:
    [member_text name] is the member converted to a string, as a template
    literal does; [call_member name scriptPath] is the plain call
    [member(scriptPath)], in which [this] is [undefined]. *)
Variable member_text : string -> string.
Variable call_member : string -> string -> Outcome Called.

(** [buildScriptCommand(interpreter, scriptPath)].  A member of
    [Object.prototype] is an object or a function, hence truthy. *)
Definition buildScriptCommand (interpreter scriptPath : string) : Outcome Called :=
  match Constants.read Constants.SCRIPT_COMMANDS interpreter with
  | Constants.Missing =>
      Raised (McpError InvalidParams ("Unsupported interpreter: " ++ interpreter))
  | Constants.Own commandBuilder => Returned (Text (commandBuilder scriptPath))
  | Constants.Inherited name => call_member name scriptPath
  end.

(** The child process: what [execAsync(command, options)] settles to and
    what the command did to the machine meanwhile. *)
Variable execAsync : string -> ExecOptions -> Machine -> Outcome ExecResult * Machine.
Variable process_env : JsObj.

(** The [try] block.  Beside its outcome it yields the local variable
    [tempFile] as the block left it. *)
Definition try_block (content : string) (args : Args) (timeout : Z) (w : World)
  : option string * Outcome JsObj * World :=
  match mkdtempSync (machine w) (Path.join (tmpdir (machine w)) "claude-terminal-") with
  | (Raised e, m1) => (None, Raised e, with_machine w m1)
  | (Returned tempDir, m1) =>
      let w1 := record (SysMkdir tempDir) (with_machine w m1) in
      let extension :=
        match Constants.read Constants.SCRIPT_EXTENSIONS (interpreter args) with
        | Constants.Own ext => if String.eqb ext "" then ".txt" else ext
        | Constants.Inherited name => member_text name
        | Constants.Missing => ".txt"
        end in
      let tempFile := Path.join tempDir ("script" ++ extension) in
      match writeFileSync m1 tempFile content with
      | (Raised e, m2) => (Some tempFile, Raised e, with_machine w1 m2)
      | (Returned _, m2) =>
          let w2 := record (SysWrite tempFile) (with_machine w1 m2) in
          match buildScriptCommand (interpreter args) tempFile with
          | Raised e => (Some tempFile, Raised e, w2)
          | Returned (StringObject _) =>
              (Some tempFile,
               Raised (ChildProcess.invalid_command "an instance of String"), w2)
          | Returned (Boolean b) =>
              (Some tempFile,
               Raised (ChildProcess.invalid_command
                         ("type boolean (" ++ (if b then "true" else "false") ++ ")")),
               w2)
          | Returned (Text command) =>
              let execOptions :=
                getExecOptions process_env
                  (mkRaw (Some timeout) (working_directory args) None) in
              match execAsync command execOptions m2 with
              | (Raised e, m3) =>
                  (Some tempFile, Raised e, record (SysExec command) (with_machine w2 m3))
              | (Returned r, m3) =>
                  (Some tempFile,
                   Returned
                     [("interpreter", VStr (interpreter args));
                      ("working_directory",
                       VStr (from_option id (Os.cwd (machine w)) (nonempty (working_directory args))));
                      ("stdout", VStr (res_stdout r));
                      ("stderr", VStr (res_stderr r));
                      ("exit_code", VNum 0)],
                   record (SysExec command) (with_machine w2 m3))
              end
          end
      end
  end.

(** The [finally] block: unlink the temp file if the variable was set, and
    only log when that fails. *)
Definition finally_block (tempFile : option string) (w : World) : World :=
  match tempFile with
  | None => w
  | Some f =>
      match unlinkSync (machine w) f with
      | (Returned _, m) => record (SysUnlink f) (with_machine w m)
      | (Raised cleanupError, m) =>
          console_error ("Failed to cleanup temp file: " ++ toString (message cleanupError))
            (with_machine w m)
      end
  end.

(** [run(args)] *)
Definition run (args : Args) (w : World) : Outcome JsObj * World :=
  let timeout := from_option id Constants.TIMEOUTS.SCRIPT (arg_timeout args) in
  match script_content args with
  | VStr content =>
      if String.eqb content "" then
        (Raised (McpError InvalidParams "Script content must be a non-empty string"), w)
      else
        let '(tempFile, outcome, w1) := try_block content args timeout w in
        (outcome, finally_block tempFile w1)
  | _ => (Raised (McpError InvalidParams "Script content must be a non-empty string"), w)
  end.

End Run.

End ExecuteScriptTool.

(** ** tools/process-manager.js: the process listing handler *)

Module ListProcessesTool.

(** One parsed process; the fields a platform does not give are [None]. *)
Record Process : Type := mkProcess {
  user : option string;
  pid : Z;
  cpu : option string;
  memory : string;
  name : string
}.

(** [parseInt(s) || 0] *)
Definition parsePid (s : string) : Z := from_option id 0 (Str.parseInt s).

(** The body of the Windows loop for one line. *)
Definition parseWindowsLine (line : string) : option Process :=
  let parts := map (Str.remove_char "034"%char) (Str.split "," line) in
  if Nat.leb 2 (length parts) then
    Some (mkProcess None
            (parsePid (nth 1 parts ""))
            None
            (match nth_error parts 4 with
             | Some m => if String.eqb m "" then "N/A" else m
             | None => "N/A"
             end)
            (nth 0 parts ""))
  else None.

(** The body of the Unix loop for one line. *)
Definition parseUnixLine (line : string) : option Process :=
  let parts := Str.split_ws (Str.trim line) in
  if Nat.leb 11 (length parts) then
    Some (mkProcess (Some (nth 0 parts ""))
            (parsePid (nth 1 parts ""))
            (Some (nth 2 parts ""))
            (nth 3 parts "")
            (Str.join " " (skipn 10 parts)))
  else None.

(** The [for] loop from index 1: [processes.push] for the lines that
    pass the length test. *)
Fixpoint parse_loop (parseLine : string -> option Process) (lines : list string)
  (processes : list Process) : list Process :=
  match lines with
  | [] => processes
  | line :: rest =>
      match parseLine line with
      | Some p => parse_loop parseLine rest (processes ++ [p])
      | None => parse_loop parseLine rest processes
      end
  end.

(** [parseProcessList(stdout, isWindows)] *)
Definition parseProcessList (stdout : string) (isWindows : bool) : list Process :=
  let lines := Str.split "010"%char (Str.trim stdout) in
  parse_loop (if isWindows then parseWindowsLine else parseUnixLine) (skipn 1 lines) [].

(** [array.slice(0, end)] *)
Definition slice0 {A : Type} (l : list A) (end_ : Z) : list A :=
  if end_ <? 0 then firstn (Z.to_nat (Z.max (Z.of_nat (length l) + end_) 0)) l
  else firstn (Z.to_nat end_) l.

Record Args : Type := mkArgs {
  filter : option string;
  limit : option Z
}.

Record Result : Type := mkResult {
  process_count : Z;
  processes : list Process
}.

Section Run.

(** [new RegExp(source, flags)]: the test function of the compiled
    expression, or the [SyntaxError] of a malformed source. *)
Variable RegExp : string -> string -> Outcome (string -> bool).

(** [run(args)], given what [execAsync] of the enumeration command
    settled to. *)
Definition run (isWindows : bool) (enumeration : Outcome string) (args : Args)
  : Outcome Result :=
  let limit := from_option id Constants.PROCESS_LIMITS.DEFAULT_LIMIT (limit args) in
  match enumeration with
  | Raised e => Raised e
  | Returned stdout =>
      let parsed := parseProcessList stdout isWindows in
      let filtered :=
        match nonempty (filter args) with
        | Some source =>
            match RegExp source "i" with
            | Raised e => Raised e
            | Returned test => Returned (List.filter (fun proc => test (name proc)) parsed)
            end
        | None => Returned parsed
        end in
      match filtered with
      | Raised e => Raised e
      | Returned procs =>
          let procs' := slice0 procs (Z.min limit Constants.PROCESS_LIMITS.MAX_LIMIT) in
          Returned (mkResult (Z.of_nat (length procs')) procs')
      end
  end.

End Run.

End ListProcessesTool.

(** ** utils/file-utils.js: path validation and directory creation *)

Module FileUtils.
Import Os.

(** [validateAndNormalizePath(filePath)] *)
Definition validateAndNormalizePath (m : Machine) (filePath : string) : Outcome string :=
  if String.eqb filePath "" then Raised (Error "Path must be a non-empty string")
  else
    let normalizedPath := Path.normalize (Path.resolve (cwd m) filePath) in
    let homePath := homedir m in
    if (Str.includes normalizedPath ".." && negb (Str.startsWith normalizedPath homePath))%bool
    then Raised (Error "Path traversal detected - access denied")
    else Returned normalizedPath.

(** [getFileStats(filePath)]: the fields the model can tell (time stamps
    and mode bits are left out). *)
Definition getFileStats (m : Machine) (filePath : string) : Outcome JsVal :=
  match statSync m filePath with
  | Returned n =>
      Returned
        (VObj [("size", VNum (match n with
                              | File c => Z.of_nat (String.length c)
                              | Dir => 0
                              end));
               ("is_file", VBool (match n with File _ => true | Dir => false end));
               ("is_directory", VBool (match n with File _ => false | Dir => true end));
               ("is_symbolic_link", VBool false)])
  | Raised e => Raised (Error ("Failed to get file stats: " ++ toString (message e)))
  end.

(** [fs.mkdirSync] checks the type of its [recursive] option first. *)
Definition mkdirSync_checked (m : Machine) (p : string) (recursive : JsVal)
  : Outcome unit * Machine :=
  match recursive with
  | VBool b => mkdirSync m p b
  | _ =>
      (Raised (SystemError "ERR_INVALID_ARG_TYPE"
                 "The recursive option must be of type boolean"), m)
  end.

(** [createDirectory(dirPath, { recursive })]; the caller's [recursive]
    is [undefined] when the option is absent. *)
Definition createDirectory (dirPath : string) (recursive_opt : JsVal) (w : World)
  : Outcome JsObj * World :=
  let recursive := match recursive_opt with VUndefined => VBool true | v => v end in
  match validateAndNormalizePath (machine w) dirPath with
  | Raised e => (Raised e, w)
  | Returned normalizedPath =>
      if existsSync (machine w) normalizedPath then
        match statSync (machine w) normalizedPath with
        | Raised e => (Raised e, w)
        | Returned Dir =>
            (Returned [("operation", VStr "create");
                       ("directory_path", VStr normalizedPath);
                       ("created", VBool false);
                       ("existed", VBool true)], w)
        | Returned (File _) =>
            (Raised (Error ("Path exists but is not a directory: " ++ normalizedPath)), w)
        end
      else
        match mkdirSync_checked (machine w) normalizedPath recursive with
        | (Raised e, m1) => (Raised e, with_machine w m1)
        | (Returned _, m1) =>
            let w1 := record (SysMkdir normalizedPath) (with_machine w m1) in
            match getFileStats m1 normalizedPath with
            | Raised e => (Raised e, w1)
            | Returned stats =>
                (Returned [("operation", VStr "create");
                           ("directory_path", VStr normalizedPath);
                           ("created", VBool true);
                           ("existed", VBool false);
                           ("stats", stats)], w1)
            end
        end
  end.

End FileUtils.

(** ** tools/directory-operations.js *)

Module DirectoryOperationsTool.
Import Os.

(** [args.k], [undefined] when absent. *)
Definition arg (k : string) (args : JsObj) : JsVal :=
  from_option id VUndefined (obj_get k args).

(** [x = d] in a destructuring pattern: the default replaces
    [undefined] only. *)
Definition default_to (d v : JsVal) : JsVal :=
  match v with VUndefined => d | _ => v end.

Section Run.

(** The sub-operations other than [create] live in file-utils.js as well;
    the handler only dispatches to them. *)
Variable listDirectory : string -> JsVal -> JsVal -> World -> Outcome JsObj * World.
Variable createListingSummary : JsVal -> JsVal.
Variable deleteDirectory : string -> JsVal -> JsVal -> World -> Outcome JsObj * World.
Variable checkDirectoryExists : string -> World -> Outcome JsObj * World.

(** The [switch] of the [try] block. *)
Definition dispatch (operation path : string) (recursive include_hidden detailed force : JsVal)
  (w : World) : Outcome JsObj * World :=
  if String.eqb operation "create" then
    FileUtils.createDirectory path (default_to (VBool true) recursive) w
  else if String.eqb operation "list" then
    match listDirectory path include_hidden detailed w with
    | (Returned result, w') =>
        (Returned (obj_set "summary"
                     (createListingSummary (from_option id VUndefined (obj_get "items" result)))
                     result), w')
    | other => other
    end
  else if String.eqb operation "delete" then
    deleteDirectory path (default_to (VBool false) recursive) force w
  else if String.eqb operation "exists" then
    checkDirectoryExists path w
  else (Raised (McpError InvalidParams ("Unsupported operation: " ++ operation)), w).

(** The [catch] block: file system errors become protocol errors. *)
Definition convert (path : string) (error : JsError) : JsError :=
  match code error with
  | VStr "ENOENT" => McpError InvalidParams ("Directory not found: " ++ path)
  | VStr "EACCES" => McpError InvalidParams ("Permission denied: " ++ path)
  | VStr "ENOTDIR" => McpError InvalidParams ("Path is not a directory: " ++ path)
  | VStr "EEXIST" => McpError InvalidParams ("Directory already exists: " ++ path)
  | VStr "ENOTEMPTY" =>
      McpError InvalidParams
        ("Directory not empty: " ++ path
           ++ ". Use recursive: true to delete non-empty directories.")
  | VStr "ENOSPC" => McpError InvalidParams "No space left on device"
  | _ => error
  end.

Definition operations : list string := map snd Constants.DIRECTORY_OPERATIONS.

(** [run(args)] *)
Definition run (args : JsObj) (w : World) : Outcome JsObj * World :=
  let operation := arg "operation" args in
  let path := arg "path" args in
  let recursive := arg "recursive" args in
  let include_hidden := default_to (VBool false) (arg "include_hidden" args) in
  let detailed := default_to (VBool true) (arg "detailed" args) in
  let force := default_to (VBool false) (arg "force" args) in
  match operation with
  | VStr op =>
      if (negb (String.eqb op "") && existsb (String.eqb op) operations)%bool then
        match path with
        | VStr p =>
            if String.eqb p "" then
              (Raised (McpError InvalidParams "path must be a non-empty string"), w)
            else
              match dispatch op p recursive include_hidden detailed force w with
              | (Returned result, w') =>
                  (Returned
                     (spread result
                        [("requested_operation", operation);
                         ("options",
                          VObj [("recursive", recursive);
                                ("include_hidden", include_hidden);
                                ("detailed", detailed);
                                ("force", force)])]), w')
              | (Raised error, w') => (Raised (convert p error), w')
              end
        | _ => (Raised (McpError InvalidParams "path must be a non-empty string"), w)
        end
      else
        (Raised (McpError InvalidParams
                   ("Invalid operation. Must be one of: " ++ Str.join ", " operations)), w)
  | _ =>
      (Raised (McpError InvalidParams
                 ("Invalid operation. Must be one of: " ++ Str.join ", " operations)), w)
  end.

(** The tool object the registry holds. *)
Definition tool (schema : JsVal) : BaseTool.BaseTool :=
  BaseTool.mkTool "directory_operations"
    "Perform directory operations (create, list, delete, exists) - better than shell commands"
    schema run.

End Run.

End DirectoryOperationsTool.

(** ** Sample inputs

    Small concrete worlds, tools and errors on which the statements below
    are exercised. *)

Module Samples.
Import Os.

Definition machine0 : Machine :=
  mkMachine {[ "/tmp" := Dir; "/home" := Dir; "/home/u" := Dir;
               "/home/u/notes.txt" := File "hello" ]}
    ∅ ["abc123"] "/home/u" "/home/u" "/tmp".

Definition world0 : World := mkWorld machine0 [] [].

(** A handler that returns, one that rejects the arguments, one whose
    command exits with a status. *)
Definition echo_tool : BaseTool.BaseTool :=
  BaseTool.mkTool "echo" "Return the arguments" (VObj [])
    (fun args w => (Returned [("stdout", VStr "hi")], w)).

Definition picky_tool : BaseTool.BaseTool :=
  BaseTool.mkTool "picky" "Reject the arguments" (VObj [])
    (fun args w => (Raised (McpError InvalidParams "Command must be a non-empty string"), w)).

(** A handler whose own result has a field named [success]. *)
Definition verdict_tool : BaseTool.BaseTool :=
  BaseTool.mkTool "verdict" "Report whether a pattern matched" (VObj [])
    (fun args w => (Returned [("success", VBool false); ("reason", VStr "no match")], w)).

(** What [child_process.exec] rejects with. *)
Definition exec_error (msg : string) (out err : string) (c sig k : JsVal) : JsError :=
  mkError false (VStr msg) (VStr out) (VStr err) c sig k.

Definition failing_tool : BaseTool.BaseTool :=
  BaseTool.mkTool "failing" "Run a command that exits with status 2" (VObj [])
    (fun args w =>
       (Raised (exec_error "Command failed: false" "partial" "" (VNum 2) VNull (VBool false)), w)).

(** A child killed by [exec] for exceeding the output buffer, and one
    killed by [exec] when its time was up. *)
Definition overflow_tool : BaseTool.BaseTool :=
  BaseTool.mkTool "overflow" "Run a command that floods its output" (VObj [])
    (fun args w =>
       (Raised (ChildProcess.rejection "yes" (ChildProcess.Overflowed "stdout") "yyyy" ""), w)).

Definition timeout_tool : BaseTool.BaseTool :=
  BaseTool.mkTool "sleeper" "Run a command that does not end in time" (VObj [])
    (fun args w =>
       (Raised (ChildProcess.rejection "sleep 100" (ChildProcess.TimedOut "SIGTERM") "" ""), w)).

(** Two configurations: strict with a whitelist, standard with a
    blacklist. *)
Definition strict_config : ConfigManager.Config :=
  ConfigManager.mkConfig (10 * 1024 * 1024) 30000 300000 60000 50 500
    ["bash"; "sh"] true "info" "strict" ["git"; "ls"] [].

Definition standard_config : ConfigManager.Config :=
  ConfigManager.mkConfig (10 * 1024 * 1024) 30000 300000 60000 50 500
    ["bash"; "sh"] true "info" "standard" [] ["rm -rf"; "mkfs"].

(** A case folding that knows the accented letters of Latin-1 beside the
    ASCII ones, for text in that encoding; and a whitelist with an accented
    entry, [e] with an acute accent followed by [cho]. *)
Definition latin1_lower_char (a : ascii) : ascii :=
  let n := nat_of_ascii a in
  if ((Nat.leb 65 n && Nat.leb n 90)
      || (Nat.leb 192 n && Nat.leb n 222 && negb (Nat.eqb n 215)))%bool
  then ascii_of_nat (n + 32) else a.

Fixpoint latin1_toLowerCase (s : string) : string :=
  match s with
  | EmptyString => EmptyString
  | String a s' => String (latin1_lower_char a) (latin1_toLowerCase s')
  end.

Definition accent_config : ConfigManager.Config :=
  ConfigManager.mkConfig (10 * 1024 * 1024) 30000 300000 60000 50 500
    ["bash"; "sh"] true "info" "strict" [String "233"%char "cho"] [].

(** Tools for the registry: two versions under one name, and an object
    without a name. *)
Definition idle : BaseTool.Handler := fun args w => (Returned [], w).

Definition grep_v1 : ToolRegistry.Tool :=
  ToolRegistry.of_BaseTool (BaseTool.mkTool "grep" "Search, first version" (VObj []) idle).

Definition grep_v2 : ToolRegistry.Tool :=
  ToolRegistry.of_BaseTool (BaseTool.mkTool "grep" "Search, second version" (VObj []) idle).

Definition nameless : ToolRegistry.Tool :=
  ToolRegistry.of_BaseTool (BaseTool.mkTool "" "No name" (VObj []) idle).

(** An object whose [execute] is the number 5, and one without any. *)
Definition numbered : ToolRegistry.Tool :=
  ToolRegistry.mkRegTool "x" "execute is a number" (VObj [])
    (ToolRegistry.NotCallable (VNum 5)).

Definition inert : ToolRegistry.Tool :=
  ToolRegistry.mkRegTool "y" "no execute" (VObj []) (ToolRegistry.NotCallable VUndefined).

(** Script invocations, and three child-process behaviours: the command
    prints and exits, the command fails, the command succeeds but leaves
    the script file locked against removal. *)
Definition bash_args : ExecuteScriptTool.Args :=
  ExecuteScriptTool.mkArgs (VStr "echo hi") "bash" None None.

Definition lua_args : ExecuteScriptTool.Args :=
  ExecuteScriptTool.mkArgs (VStr "print(1)") "lua" None None.

(** An invocation that names a member of [Object.prototype] as the
    interpreter, and the members as Node's engine has them: a built-in
    function prints as native code; called on no object, [toString]
    answers for [undefined], [isPrototypeOf] says no to a string,
    [constructor], which is [Object], wraps the string, [__proto__] is an
    object and cannot be called, and the others fail to convert
    [undefined] to an object. *)
Definition toString_args : ExecuteScriptTool.Args :=
  ExecuteScriptTool.mkArgs (VStr "echo hi") "toString" None None.

Definition valueOf_args : ExecuteScriptTool.Args :=
  ExecuteScriptTool.mkArgs (VStr "echo hi") "valueOf" None None.

Definition v8_text (name : string) : string :=
  if String.eqb name "__proto__" then "[object Object]"
  else "function " ++ (if String.eqb name "constructor" then "Object" else name)
       ++ "() { [native code] }".

Definition v8_call (name scriptPath : string) : Outcome ExecuteScriptTool.Called :=
  if String.eqb name "toString" then Returned (ExecuteScriptTool.Text "[object Undefined]")
  else if String.eqb name "isPrototypeOf" then Returned (ExecuteScriptTool.Boolean false)
  else if String.eqb name "constructor" then
    Returned (ExecuteScriptTool.StringObject scriptPath)
  else if String.eqb name "__proto__" then Raised (Error "commandBuilder is not a function")
  else Raised (Error "Cannot convert undefined or null to object").

Definition exec_ok (command : string) (options : CommandUtils.ExecOptions) (m : Machine)
  : Outcome ExecResult * Machine :=
  (Returned (mkExecResult "hi" ""), m).

Definition exec_fails (command : string) (options : CommandUtils.ExecOptions) (m : Machine)
  : Outcome ExecResult * Machine :=
  (Raised (exec_error "Command failed" "" "boom" (VNum 1) VNull (VBool false)), m).

Definition exec_locks (command : string) (options : CommandUtils.ExecOptions) (m : Machine)
  : Outcome ExecResult * Machine :=
  (Returned (mkExecResult "hi" ""),
   mkMachine (fs m) (deny m ∪ {[ "/tmp/claude-terminal-abc123/script.sh" ]})
     (entropy m) (homedir m) (cwd m) (tmpdir m)).

(** A machine with a directory whose name contains two dots. *)
Definition machine_dots : Machine :=
  mkMachine {[ "/tmp" := Dir; "/tmp/a..b" := Dir; "/home" := Dir; "/home/u" := Dir ]}
    ∅ [] "/home/u" "/home/u" "/tmp".

Definition world_dots : World := mkWorld machine_dots [] [].

(** Directory handler invocations, and stand-ins for the sub-operations
    the create path never reaches. *)
Definition create_args (path : string) : JsObj :=
  [("operation", VStr "create"); ("path", VStr path)].

Definition no_listing (path : string) (include_hidden detailed : JsVal) (w : World)
  : Outcome JsObj * World := (Returned [("items", VObj [])], w).

Definition no_summary (items : JsVal) : JsVal := VObj [].

Definition no_delete (path : string) (recursive force : JsVal) (w : World)
  : Outcome JsObj * World := (Raised (Error "not reached"), w).

Definition no_exists (path : string) (w : World) : Outcome JsObj * World :=
  (Raised (Error "not reached"), w).

Definition directory_run : BaseTool.Handler :=
  DirectoryOperationsTool.run no_listing no_summary no_delete no_exists.

(** An enumeration with a header, two processes and a line that is too
    short; and a stand-in for the regular expression engine that accepts
    the names beginning with the source, letter case aside when the flags
    have an [i]. *)
Definition ps_output : string :=
  Str.join (String "010"%char EmptyString)
    [ "USER PID %CPU %MEM VSZ RSS TTY STAT START TIME COMMAND";
      "root 1 0.0 0.1 100 200 ? Ss 10:00 0:01 /sbin/init splash";
      "garbage";
      "u 22 1.0 0.2 1 2 ? S 10:01 0:00 node server.js";
      "" ].

Definition regexp_prefix (source flags : string) : Outcome (string -> bool) :=
  if Str.includes source "(" then Raised (Error "Invalid regular expression")
  else if Str.includes flags "i" then
    Returned (fun s => Str.startsWith (Str.toLowerCase s) (Str.toLowerCase source))
  else Returned (fun s => Str.startsWith s source).

Definition node_only : ListProcessesTool.Args :=
  ListProcessesTool.mkArgs (Some "NODE") None.

(** An enumeration of 600 processes, and a request with the limit -1. *)
Definition ps_crowd : string :=
  Str.join (String "010"%char EmptyString)
    ("USER PID %CPU %MEM VSZ RSS TTY STAT START TIME COMMAND"
     :: List.repeat "u 22 1.0 0.2 1 2 ? S 10:01 0:00 worker" 600).

Definition minus_one : ListProcessesTool.Args :=
  ListProcessesTool.mkArgs None (Some (-1)).

End Samples.


(** ** Further code of the same files

    The modules below complete the ones above: string helpers first, then
    the listing summary of directory-operations.js, the rest of
    file-utils.js with the three file tools, the shell helpers of
    command-utils.js with the command and kill tools, the request handler
    of server.js, and the stored configuration of config-manager.js. *)

Module StrMore.

(** Every byte is an ASCII character. *)
Fixpoint ascii_only (s : string) : bool :=
  match s with
  | EmptyString => true
  | String a s' => Nat.ltb (nat_of_ascii a) 128 && ascii_only s'
  end.

(** The character occurs in the string. *)
Fixpoint contains_char (c : ascii) (s : string) : bool :=
  match s with
  | EmptyString => false
  | String a s' => Ascii.eqb a c || contains_char c s'
  end.

(** [s.endsWith(p)] *)
Fixpoint endsWith (s p : string) : bool :=
  String.eqb s p ||
  match s with
  | EmptyString => false
  | String _ s' => endsWith s' p
  end.

(** A path segment that [normalizeString] keeps as it is: not empty, not
    [.] or [..], without a separator. *)
Definition clean (seg : string) : bool :=
  (negb (String.eqb seg "") && negb (String.eqb seg ".") && negb (String.eqb seg "..")
   && negb (contains_char "/" seg))%bool.

(** A column of [ps]: not empty and without white space. *)
Fixpoint spaceless (s : string) : bool :=
  match s with
  | EmptyString => true
  | String a s' => negb (Str.is_space a) && spaceless s'
  end.

Definition token (s : string) : bool := (negb (String.eqb s "") && spaceless s)%bool.

(** White space only, possibly none; and a run of white space, which has
    one character at least. *)
Fixpoint blanks (s : string) : bool :=
  match s with
  | EmptyString => true
  | String a s' => Str.is_space a && blanks s'
  end.

Definition gap (s : string) : bool := (negb (String.eqb s "") && blanks s)%bool.

(** A line written out from its columns: the first one, then each further
    column after the white space that separates it from the one before. *)
Fixpoint spaced (first : string) (rest : list (string * string)) : string :=
  match rest with
  | [] => first
  | (between, column) :: rest' => first ++ between ++ spaced column rest'
  end.

(** A string put before the first element of a list of strings. *)
Definition prepend (x : string) (l : list string) : list string :=
  match l with
  | [] => [x]
  | w :: ws => (x ++ w) :: ws
  end.

End StrMore.


(** ** tools/directory-operations.js: the listing summary *)

Module ListingSummary.

(** The fields of [getFileStats] the summary reads; [modified] is the
    instant the ISO time stamp denotes, in milliseconds. *)
Record Stats : Type := mkStats {
  size : Z;
  modified : Z;
  is_file : bool;
  is_directory : bool;
  is_symbolic_link : bool
}.

(** An entry of [listDirectory]: [stats] in a detailed listing, [error]
    when the stats could not be read. *)
Record Item : Type := mkItem {
  name : string;
  error : option string;
  stats : option Stats
}.

Record Largest : Type := mkLargest {
  largest_name : string;
  largest_size : Z;
  size_mb : Z
}.

Record Recent : Type := mkRecent {
  recent_name : string;
  recent_modified : Z;
  recent_is_file : bool;
  recent_is_directory : bool
}.

(** The [summary] object during the loop, with the two local variables. *)
Record Acc : Type := mkAcc {
  files : Z;
  directories : Z;
  symbolic_links : Z;
  other : Z;
  total_size : Z;
  largest_file : option Largest;
  most_recent : option Recent;
  largestSize : Z;
  mostRecentTime : option Z
}.

Record Summary : Type := mkSummary {
  total_items : Z;
  counts : Acc;
  total_size_mb : Z;
  total_size_gb : Z
}.

(** [Math.round(n / d * 100) / 100], kept in hundredths. *)
Definition hundredths (n d : Z) : Z := (200 * n + d) / (2 * d).

Definition MB : Z := 1024 * 1024.
Definition GB : Z := 1024 * 1024 * 1024.

(** [item.error] is truthy. *)
Definition failed (item : Item) : bool :=
  match error item with
  | Some msg => negb (String.eqb msg "")
  | None => false
  end.

Definition count_other (a : Acc) : Acc :=
  mkAcc (files a) (directories a) (symbolic_links a) (other a + 1) (total_size a)
    (largest_file a) (most_recent a) (largestSize a) (mostRecentTime a).

(** The type branch of the loop body. *)
Definition count_type (item : Item) (st : Stats) (a : Acc) : Acc :=
  if is_file st then
    if size st >? largestSize a then
      mkAcc (files a + 1) (directories a) (symbolic_links a) (other a) (total_size a + size st)
        (Some (mkLargest (name item) (size st) (hundredths (size st) MB)))
        (most_recent a) (size st) (mostRecentTime a)
    else
      mkAcc (files a + 1) (directories a) (symbolic_links a) (other a) (total_size a + size st)
        (largest_file a) (most_recent a) (largestSize a) (mostRecentTime a)
  else if is_directory st then
    mkAcc (files a) (directories a + 1) (symbolic_links a) (other a) (total_size a)
      (largest_file a) (most_recent a) (largestSize a) (mostRecentTime a)
  else if is_symbolic_link st then
    mkAcc (files a) (directories a) (symbolic_links a + 1) (other a) (total_size a)
      (largest_file a) (most_recent a) (largestSize a) (mostRecentTime a)
  else count_other a.

(** The tracking of the most recent modification. *)
Definition track_recent (item : Item) (st : Stats) (a : Acc) : Acc :=
  if match mostRecentTime a with
     | None => true
     | Some t => modified st >? t
     end
  then
    mkAcc (files a) (directories a) (symbolic_links a) (other a) (total_size a)
      (largest_file a)
      (Some (mkRecent (name item) (modified st) (is_file st) (is_directory st)))
      (largestSize a) (Some (modified st))
  else a.

(** One turn of the loop. *)
Definition step (a : Acc) (item : Item) : Acc :=
  if failed item then count_other a
  else
    match stats item with
    | None => count_other a
    | Some st => track_recent item st (count_type item st a)
    end.

Definition empty : Acc := mkAcc 0 0 0 0 0 None None 0 None.

(** [createListingSummary(items)] *)
Definition createListingSummary (items : list Item) : Summary :=
  let a := fold_left step items empty in
  mkSummary (Z.of_nat (length items)) a
    (hundredths (total_size a) MB) (hundredths (total_size a) GB).

(** The stats of the entries the loop looks at. *)
Definition readable (item : Item) : option Stats :=
  if failed item then None else stats item.

(** The entries counted as files. *)
Definition regular (item : Item) : bool :=
  match readable item with
  | Some st => is_file st
  | None => false
  end.

Definition size_of (item : Item) : Z :=
  match readable item with
  | Some st => size st
  | None => 0
  end.

Definition file_sizes (items : list Item) : list Z :=
  map size_of (List.filter regular items).

Definition sum (l : list Z) : Z := fold_right Z.add 0 l.

End ListingSummary.

(** ** More of Node's [path] and [fs] *)

Module PathMore.

Definition is_slash (a : ascii) : bool := Ascii.eqb a "/".

Fixpoint drop_while (f : ascii -> bool) (l : list ascii) : list ascii :=
  match l with
  | [] => []
  | a :: l' => if f a then drop_while f l' else l
  end.

(** [path.dirname(p)]: scanning from the end and never looking at the
    first character, skip the trailing separators, skip the last name, and
    cut at the separator found there. *)
Definition dirname (path : string) : string :=
  match path with
  | EmptyString => "."
  | String first rest =>
      let hasRoot := is_slash first in
      let scanned :=
        drop_while (fun a => negb (is_slash a))
          (drop_while is_slash (rev (list_ascii_of_string rest))) in
      match scanned with
      | [] => if hasRoot then "/" else "."
      | _ :: before =>
          if (hasRoot && Nat.eqb (length before) 0)%bool then "//"
          else String first (string_of_list_ascii (rev before))
      end
  end.

(** [path.join(...parts)]: the non-empty parts joined by separators, then
    normalized. *)
Definition join_all (parts : list string) : string :=
  match List.filter (fun p => negb (String.eqb p "")) parts with
  | [] => "."
  | kept => Path.normalize (Str.join "/" kept)
  end.

End PathMore.

Module OsMore.
Import Os.

(** [fs.readFileSync(p)]: the bytes of the file. *)
Definition readFileSync (m : Machine) (p : string) : Outcome string :=
  match node_at m p with
  | Some (File c) => Returned c
  | Some Dir =>
      Raised (SystemError "EISDIR" ("EISDIR: illegal operation on a directory, read '" ++ p ++ "'"))
  | None =>
      Raised (SystemError "ENOENT" ("ENOENT: no such file or directory, open '" ++ p ++ "'"))
  end.

(** [fs.copyFileSync(src, dest)] *)
Definition copyFileSync (m : Machine) (src dest : string) : Outcome unit * Machine :=
  match node_at m src with
  | None =>
      (Raised (SystemError "ENOENT"
                 ("ENOENT: no such file or directory, copyfile '" ++ src ++ "'")), m)
  | Some Dir =>
      (Raised (SystemError "EISDIR"
                 ("EISDIR: illegal operation on a directory, copyfile '" ++ src ++ "'")), m)
  | Some (File c) =>
      if denied m dest then
        (Raised (SystemError "EACCES" ("EACCES: permission denied, copyfile '" ++ dest ++ "'")), m)
      else if is_dir m dest then
        (Raised (SystemError "EISDIR"
                   ("EISDIR: illegal operation on a directory, copyfile '" ++ dest ++ "'")), m)
      else if is_dir m (Path.parent dest) then
        (Returned tt, with_fs m (<[dest := File c]> (fs m)))
      else
        (Raised (SystemError "ENOENT"
                   ("ENOENT: no such file or directory, copyfile '" ++ dest ++ "'")), m)
  end.

(** The paths strictly below a directory. *)
Definition below (dir p : string) : bool :=
  Str.startsWith p (dir ++ "/").

Definition has_entries (m : Machine) (dir : string) : bool :=
  existsb (fun kv => below dir (fst kv)) (map_to_list (fs m)).

(** The tree with everything at or below [src] moved to [dest]. *)
Definition moved (src dest : string) (f : gmap string Node) : gmap string Node :=
  list_to_map
    (map (fun kv =>
            if (String.eqb (fst kv) src || below src (fst kv))%bool
            then (dest ++ substring (String.length src)
                            (String.length (fst kv) - String.length src) (fst kv), snd kv)
            else kv)
       (map_to_list f)).

(** [fs.renameSync(src, dest)] *)
Definition renameSync (m : Machine) (src dest : string) : Outcome unit * Machine :=
  match node_at m src with
  | None =>
      (Raised (SystemError "ENOENT"
                 ("ENOENT: no such file or directory, rename '" ++ src ++ "'")), m)
  | Some node =>
      if (denied m src || denied m dest)%bool then
        (Raised (SystemError "EACCES" ("EACCES: permission denied, rename '" ++ src ++ "'")), m)
      else if negb (is_dir m (Path.parent dest)) then
        (Raised (SystemError "ENOENT"
                   ("ENOENT: no such file or directory, rename '" ++ dest ++ "'")), m)
      else if String.eqb src dest then (Returned tt, m)
      else
        match node with
        | File c =>
            if is_dir m dest then
              (Raised (SystemError "EISDIR"
                         ("EISDIR: illegal operation on a directory, rename '" ++ dest ++ "'")), m)
            else (Returned tt, with_fs m (<[dest := File c]> (delete src (fs m))))
        | Dir =>
            if is_file m dest then
              (Raised (SystemError "ENOTDIR" ("ENOTDIR: not a directory, rename '" ++ dest ++ "'")), m)
            else if has_entries m dest then
              (Raised (SystemError "ENOTEMPTY"
                         ("ENOTEMPTY: directory not empty, rename '" ++ dest ++ "'")), m)
            else if below src dest then
              (Raised (SystemError "EINVAL" ("EINVAL: invalid argument, rename '" ++ src ++ "'")), m)
            else (Returned tt, with_fs m (moved src dest (delete dest (fs m))))
        end
  end.

(** The modes of [fs.accessSync]. *)
Inductive AccessMode : Type := F_OK | R_OK | W_OK | X_OK.

End OsMore.

(** ** utils/file-utils.js: files *)

Module FileConstants.

Module FILE_LIMITS.
Definition MAX_READ_SIZE : Z := 50 * 1024 * 1024.
Definition MAX_WRITE_SIZE : Z := 100 * 1024 * 1024.
Definition CHUNK_SIZE : Z := 64 * 1024.
End FILE_LIMITS.

Definition FILE_ENCODINGS : list string :=
  ["utf8"; "utf-8"; "ascii"; "latin1"; "binary"; "hex"; "base64"].

Definition FILE_OPERATIONS : list (string * string) :=
  [ ("COPY", "copy"); ("MOVE", "move"); ("DELETE", "delete") ].

End FileConstants.

Module FileUtilsMore.
Import Os OsMore FileUtils FileConstants.

(** [Math.round(n / 1024 / 1024)] *)
Definition megabytes (n : Z) : Z := (2 * n + 1048576) / 2097152.

(** [validateEncoding(encoding)] *)
Definition validateEncoding (encoding : JsVal) : Outcome string :=
  let supported :=
    match encoding with
    | VStr e => existsb (String.eqb e) FILE_ENCODINGS
    | _ => false
    end in
  if (truthy encoding && negb supported)%bool then
    Raised (Error ("Unsupported encoding: " ++ toString encoding ++ ". Supported: "
                     ++ Str.join ", " FILE_ENCODINGS))
  else
    Returned (match encoding with
              | VStr e => if String.eqb e "" then "utf8" else e
              | _ => "utf8"
              end).

(** [stats.size], [0] when there are no stats. *)
Definition size_of_stats (stats : option JsVal) : Z :=
  match stats with
  | Some (VObj fields) =>
      match obj_get "size" fields with
      | Some (VNum n) => n
      | _ => 0
      end
  | _ => 0
  end.

(** [stats.is_directory] *)
Definition is_directory_of (stats : JsVal) : bool :=
  match stats with
  | VObj fields => truthy (from_option id VUndefined (obj_get "is_directory" fields))
  | _ => false
  end.

Section Files.

(** [fs.accessSync(path, mode)] returns rather than throws. *)
Variable accessSync : Machine -> string -> AccessMode -> bool.

(** The bytes of a text in an encoding and the text of bytes, as
    [Buffer] converts them. *)
Variable encode : string -> string -> string.
Variable decode : string -> string -> string.

(** [checkFileAccess(filePath, mode)] *)
Definition checkFileAccess (m : Machine) (filePath : string) (mode : AccessMode) : bool :=
  accessSync m filePath mode.

(** [getFilePermissions(filePath)] *)
Definition getFilePermissions (m : Machine) (filePath : string) : JsVal :=
  VObj [("exists", VBool (checkFileAccess m filePath F_OK));
        ("readable", VBool (checkFileAccess m filePath R_OK));
        ("writable", VBool (checkFileAccess m filePath W_OK));
        ("executable", VBool (checkFileAccess m filePath X_OK))].

(** [readFileWithMetadata(filePath, encoding)] *)
Definition readFileWithMetadata (m : Machine) (filePath : string) (encoding : JsVal)
  : Outcome JsObj :=
  match validateAndNormalizePath m filePath with
  | Raised e => Raised e
  | Returned normalizedPath =>
      if negb (existsSync m normalizedPath) then
        Raised (Error ("File not found: " ++ normalizedPath))
      else
        match statSync m normalizedPath with
        | Raised e => Raised e
        | Returned Dir => Raised (Error ("Path is not a file: " ++ normalizedPath))
        | Returned (File bytes) =>
            let size := Z.of_nat (String.length bytes) in
            if size >? FILE_LIMITS.MAX_READ_SIZE then
              Raised (Error ("File too large: " ++ pretty (megabytes size)
                               ++ "MB exceeds limit of "
                               ++ pretty (megabytes FILE_LIMITS.MAX_READ_SIZE) ++ "MB"))
            else
              match validateEncoding encoding with
              | Raised e => Raised e
              | Returned validEncoding =>
                  match readFileSync m normalizedPath with
                  | Raised e => Raised e
                  | Returned raw =>
                      match getFileStats m normalizedPath with
                      | Raised e => Raised e
                      | Returned fileStats =>
                          Returned
                            [("file_path", VStr normalizedPath);
                             ("content", VStr (decode validEncoding raw));
                             ("encoding", VStr validEncoding);
                             ("stats", fileStats);
                             ("permissions", getFilePermissions m normalizedPath)]
                      end
                  end
              end
        end
  end.

(** [writeFileWithMetadata(filePath, content, { encoding, create_directories })] *)
Definition writeFileWithMetadata (m : Machine) (filePath content : string)
  (encoding : JsVal) (create_directories : bool) : Outcome JsObj * Machine :=
  match validateAndNormalizePath m filePath with
  | Raised e => (Raised e, m)
  | Returned normalizedPath =>
      match validateEncoding encoding with
      | Raised e => (Raised e, m)
      | Returned validEncoding =>
          let bytes := encode validEncoding content in
          let contentSize := Z.of_nat (String.length bytes) in
          if contentSize >? FILE_LIMITS.MAX_WRITE_SIZE then
            (Raised (Error ("Content too large: " ++ pretty (megabytes contentSize)
                              ++ "MB exceeds limit of "
                              ++ pretty (megabytes FILE_LIMITS.MAX_WRITE_SIZE) ++ "MB")), m)
          else
            let parentDir := PathMore.dirname normalizedPath in
            match (if (create_directories && negb (existsSync m parentDir))%bool
                   then mkdirSync m parentDir true else (Returned tt, m)) with
            | (Raised e, m1) => (Raised e, m1)
            | (Returned _, m1) =>
                if negb (existsSync m1 parentDir) then
                  (Raised (Error ("Parent directory does not exist: " ++ parentDir)), m1)
                else if negb (checkFileAccess m1 parentDir W_OK) then
                  (Raised (Error ("No write permission to directory: " ++ parentDir)), m1)
                else if (existsSync m1 normalizedPath
                         && negb (checkFileAccess m1 normalizedPath W_OK))%bool then
                  (Raised (Error ("No write permission to file: " ++ normalizedPath)), m1)
                else
                  match (if existsSync m1 normalizedPath
                         then match getFileStats m1 normalizedPath with
                              | Returned stats => Returned (Some stats)
                              | Raised e => Raised e
                              end
                         else Returned None) with
                  | Raised e => (Raised e, m1)
                  | Returned beforeStats =>
                      match writeFileSync m1 normalizedPath bytes with
                      | (Raised e, m2) => (Raised e, m2)
                      | (Returned _, m2) =>
                          match getFileStats m2 normalizedPath with
                          | Raised e => (Raised e, m2)
                          | Returned afterStats =>
                              (Returned
                                 [("file_path", VStr normalizedPath);
                                  ("content_size", VNum contentSize);
                                  ("encoding", VStr validEncoding);
                                  ("created", VBool (negb (present beforeStats)));
                                  ("previous_size", VNum (size_of_stats beforeStats));
                                  ("stats", afterStats);
                                  ("permissions", getFilePermissions m2 normalizedPath)], m2)
                          end
                      end
                  end
            end
      end
  end.

End Files.

(** The parent directory of the destination is created when missing. *)
Definition ensure_parent (m : Machine) (normalizedDest : string) : Outcome unit * Machine :=
  let parentDir := PathMore.dirname normalizedDest in
  if negb (existsSync m parentDir) then mkdirSync m parentDir true else (Returned tt, m).

(** What [copyFile] and [moveFile] do once the checks have passed. *)
Definition transfer (operation : string)
  (syscall : Machine -> string -> string -> Outcome unit * Machine)
  (m : Machine) (normalizedSource normalizedDest : string) : Outcome JsObj * Machine :=
  match ensure_parent m normalizedDest with
  | (Raised e, m1) => (Raised e, m1)
  | (Returned _, m1) =>
      match getFileStats m1 normalizedSource with
      | Raised e => (Raised e, m1)
      | Returned sourceStats =>
          match syscall m1 normalizedSource normalizedDest with
          | (Raised e, m2) => (Raised e, m2)
          | (Returned _, m2) =>
              match getFileStats m2 normalizedDest with
              | Raised e => (Raised e, m2)
              | Returned destStats =>
                  (Returned
                     [("operation", VStr operation);
                      ("source", VStr normalizedSource);
                      ("destination", VStr normalizedDest);
                      ("source_stats", sourceStats);
                      ("destination_stats", destStats)], m2)
              end
          end
      end
  end.

(** [copyFile(sourcePath, destinationPath, { overwrite })] *)
Definition copyFile (m : Machine) (sourcePath destinationPath : string) (overwrite : bool)
  : Outcome JsObj * Machine :=
  match validateAndNormalizePath m sourcePath with
  | Raised e => (Raised e, m)
  | Returned normalizedSource =>
      match validateAndNormalizePath m destinationPath with
      | Raised e => (Raised e, m)
      | Returned normalizedDest =>
          if negb (existsSync m normalizedSource) then
            (Raised (Error ("Source file not found: " ++ normalizedSource)), m)
          else
            match statSync m normalizedSource with
            | Raised e => (Raised e, m)
            | Returned Dir =>
                (Raised (Error ("Source is not a file: " ++ normalizedSource)), m)
            | Returned (File _) =>
                if (existsSync m normalizedDest && negb overwrite)%bool then
                  (Raised (Error ("Destination already exists: " ++ normalizedDest)), m)
                else transfer "copy" copyFileSync m normalizedSource normalizedDest
            end
      end
  end.

(** [moveFile(sourcePath, destinationPath, { overwrite })] *)
Definition moveFile (m : Machine) (sourcePath destinationPath : string) (overwrite : bool)
  : Outcome JsObj * Machine :=
  match validateAndNormalizePath m sourcePath with
  | Raised e => (Raised e, m)
  | Returned normalizedSource =>
      match validateAndNormalizePath m destinationPath with
      | Raised e => (Raised e, m)
      | Returned normalizedDest =>
          if negb (existsSync m normalizedSource) then
            (Raised (Error ("Source file not found: " ++ normalizedSource)), m)
          else if (existsSync m normalizedDest && negb overwrite)%bool then
            (Raised (Error ("Destination already exists: " ++ normalizedDest)), m)
          else transfer "move" renameSync m normalizedSource normalizedDest
      end
  end.

(** [deleteFile(filePath, { force })] *)
Definition deleteFile (m : Machine) (filePath : string) (force : bool)
  : Outcome JsObj * Machine :=
  match validateAndNormalizePath m filePath with
  | Raised e => (Raised e, m)
  | Returned normalizedPath =>
      if negb (existsSync m normalizedPath) then
        if negb force then (Raised (Error ("File not found: " ++ normalizedPath)), m)
        else
          (Returned [("operation", VStr "delete");
                     ("file_path", VStr normalizedPath);
                     ("existed", VBool false)], m)
      else
        match getFileStats m normalizedPath with
        | Raised e => (Raised e, m)
        | Returned stats =>
            if is_directory_of stats then
              (Raised (Error ("Path is a directory, not a file: " ++ normalizedPath)), m)
            else
              match unlinkSync m normalizedPath with
              | (Raised e, m1) => (Raised e, m1)
              | (Returned _, m1) =>
                  (Returned [("operation", VStr "delete");
                             ("file_path", VStr normalizedPath);
                             ("existed", VBool true);
                             ("deleted_stats", stats)], m1)
              end
        end
  end.

(** [checkDirectoryExists(dirPath)] *)
Definition checkDirectoryExists (m : Machine) (dirPath : string) : Outcome JsObj :=
  match validateAndNormalizePath m dirPath with
  | Raised e => Raised e
  | Returned normalizedPath =>
      if negb (existsSync m normalizedPath) then
        Returned [("operation", VStr "exists");
                  ("directory_path", VStr normalizedPath);
                  ("exists", VBool false)]
      else
        match statSync m normalizedPath with
        | Raised e => Raised e
        | Returned node =>
            let isDirectory := match node with Dir => true | File _ => false end in
            match (if isDirectory then getFileStats m normalizedPath else Returned VNull) with
            | Raised e => Raised e
            | Returned stats =>
                Returned [("operation", VStr "exists");
                          ("directory_path", VStr normalizedPath);
                          ("exists", VBool isDirectory);
                          ("is_directory", VBool isDirectory);
                          ("stats", stats)]
            end
        end
  end.

End FileUtilsMore.

(** ** tools/file-read.js *)

Module FileReadTool.
Import Os OsMore FileUtils FileUtilsMore DirectoryOperationsTool.

Definition contentTypes : list (string * string) :=
  [ ("js", "javascript"); ("mjs", "javascript"); ("ts", "typescript"); ("py", "python");
    ("rb", "ruby"); ("go", "go"); ("rs", "rust"); ("java", "java"); ("c", "c");
    ("cpp", "cpp"); ("cc", "cpp"); ("cxx", "cpp"); ("h", "c-header"); ("hpp", "cpp-header");
    ("css", "css"); ("html", "html"); ("htm", "html"); ("xml", "xml"); ("json", "json");
    ("yaml", "yaml"); ("yml", "yaml"); ("toml", "toml"); ("ini", "ini"); ("cfg", "config");
    ("conf", "config"); ("md", "markdown"); ("txt", "text"); ("log", "log"); ("sh", "shell");
    ("bash", "bash"); ("zsh", "zsh"); ("fish", "fish"); ("ps1", "powershell");
    ("bat", "batch"); ("cmd", "batch") ].

(** [contentTypes[extension]]: an own property, or one of the two
    properties every object literal inherits under a lower-case name
    ([constructor], a function, and [__proto__], the empty prototype
    object); the function is written as [undefined], which is what JSON
    makes of it. *)
Definition contentTypes_at (extension : string) : option JsVal :=
  match Constants.lookup contentTypes extension with
  | Some t => Some (VStr t)
  | None =>
      if String.eqb extension "constructor" then Some VUndefined
      else if String.eqb extension "__proto__" then Some (VObj [])
      else None
  end.

Section Detect.

(** [JSON.parse(content)] returns rather than throws. *)
Variable JSON_valid : string -> bool.

(** The heuristics on the content. *)
Definition detectFromContent (content : string) : string :=
  let firstLine := hd "" (Str.split "010"%char content) in
  if Str.startsWith firstLine "#!" then
    if Str.includes firstLine "python" then "python"
    else if Str.includes firstLine "node" then "javascript"
    else if Str.includes firstLine "bash" then "bash"
    else if Str.includes firstLine "sh" then "shell"
    else "script"
  else if (Str.startsWith (Str.trim content) "{" && StrMore.endsWith (Str.trim content) "}"
           && JSON_valid content)%bool then "json"
  else if Str.includes content "<?xml" then "xml"
  else if (Str.includes content "<!DOCTYPE html" || Str.includes content "<html")%bool
  then "html"
  else "text".

(** [detectContentType(filePath, content)] *)
Definition detectContentType (filePath content : string) : JsVal :=
  let extension := Str.toLowerCase (List.last (Str.split "." filePath) "") in
  match (if String.eqb extension "" then None else contentTypes_at extension) with
  | Some t => t
  | None => VStr (detectFromContent content)
  end.

Variable accessSync : Machine -> string -> AccessMode -> bool.
Variable decode : string -> string -> string.

(** The [catch] block. *)
Definition convert (file_path : string) (error : JsError) : JsError :=
  match code error with
  | VStr "ENOENT" => McpError InvalidParams ("File not found: " ++ file_path)
  | VStr "EACCES" => McpError InvalidParams ("Permission denied: " ++ file_path)
  | VStr "EISDIR" => McpError InvalidParams ("Path is a directory: " ++ file_path)
  | _ => error
  end.

(** [result.content.length] *)
Definition content_of (result : JsObj) : string :=
  match obj_get "content" result with
  | Some (VStr c) => c
  | _ => ""
  end.

(** [run(args)] *)
Definition run (args : JsObj) (w : World) : Outcome JsObj * World :=
  let file_path := arg "file_path" args in
  let encoding := default_to (VStr "utf8") (arg "encoding" args) in
  match file_path with
  | VStr fp =>
      if String.eqb fp "" then
        (Raised (McpError InvalidParams "file_path must be a non-empty string"), w)
      else
        match readFileWithMetadata accessSync decode (machine w) fp encoding with
        | Returned result =>
            (Returned
               (spread (spread [("operation", VStr "file_read")] result)
                  [("content_length", VNum (Z.of_nat (String.length (content_of result))));
                   ("content_type", detectContentType fp (content_of result))]), w)
        | Raised error => (Raised (convert fp error), w)
        end
  | _ => (Raised (McpError InvalidParams "file_path must be a non-empty string"), w)
  end.

Definition tool (schema : JsVal) : BaseTool.BaseTool :=
  BaseTool.mkTool "file_read"
    "Read file contents with metadata - safer and more informative than shell commands"
    schema run.

End Detect.

End FileReadTool.

(** ** tools/file-write.js *)

Module FileWriteTool.
Import Os OsMore FileUtils FileUtilsMore DirectoryOperationsTool.

Definition newline : string := String "010"%char EmptyString.

(** The loop of [createContentPreview]: the lines still to look at, the
    preview and the line count so far; a line that does not fit ends it. *)
Fixpoint fit (maxLength : nat) (lines : list string) (preview : string) (lineCount : nat)
  : string * nat :=
  match lines with
  | [] => (preview, lineCount)
  | line :: rest =>
      if Nat.ltb maxLength (String.length preview + String.length line + 1)
      then (preview, lineCount)
      else fit maxLength rest
             (preview ++ (if String.eqb preview "" then "" else newline) ++ line)
             (S lineCount)
  end.

Record Preview : Type := mkPreview {
  preview : string;
  truncated : bool;
  total_length : nat;
  total_lines : nat;
  preview_lines : option nat
}.

(** [createContentPreview(content, maxLength)] *)
Definition createContentPreview (content : string) (maxLength : nat) : Preview :=
  let lines := Str.split "010"%char content in
  let totalLines := length lines in
  if Nat.leb (String.length content) maxLength then
    mkPreview content false (String.length content) totalLines None
  else
    let '(fitted, lineCount) := fit maxLength lines "" 0 in
    let shown :=
      if Nat.eqb (String.length fitted) 0 then substring 0 (maxLength - 3) content ++ "..."
      else if Nat.ltb lineCount totalLines then fitted ++ newline ++ "..."
      else fitted in
    mkPreview shown (Nat.ltb maxLength (String.length content)) (String.length content)
      totalLines (Some lineCount).

Definition preview_object (p : Preview) : JsVal :=
  VObj ([("preview", VStr (preview p));
         ("truncated", VBool (truncated p));
         ("total_length", VNum (Z.of_nat (total_length p)));
         ("total_lines", VNum (Z.of_nat (total_lines p)))]
        ++ match preview_lines p with
           | Some n => [("preview_lines", VNum (Z.of_nat n))]
           | None => []
           end).

(** [s.replace(/[:.]/g, '-')] *)
Fixpoint dashed (s : string) : string :=
  match s with
  | EmptyString => EmptyString
  | String a s' =>
      String (if (Ascii.eqb a ":" || Ascii.eqb a ".")%bool then "-"%char else a) (dashed s')
  end.

Section Run.

Variable accessSync : Machine -> string -> AccessMode -> bool.
Variable encode : string -> string -> string.

(** [new Date().toISOString()] at the time of the backup. *)
Variable now : string.

(** [createBackup(filePath)]: whatever goes wrong is reported in the
    result. *)
Definition createBackup (m : Machine) (filePath : string) : JsVal * Machine :=
  match validateAndNormalizePath m filePath with
  | Raised error =>
      (VObj [("backup_created", VBool false); ("error", message error)], m)
  | Returned normalizedPath =>
      if negb (existsSync m normalizedPath) then (VNull, m)
      else
        let timestamp := dashed now in
        let backupPath := normalizedPath ++ ".backup-" ++ timestamp in
        match copyFileSync m normalizedPath backupPath with
        | (Returned _, m1) =>
            (VObj [("backup_created", VBool true);
                   ("backup_path", VStr backupPath);
                   ("timestamp", VStr timestamp)], m1)
        | (Raised error, m1) =>
            (VObj [("backup_created", VBool false); ("error", message error)], m1)
        end
  end.

(** The [catch] block. *)
Definition convert (file_path : string) (error : JsError) : JsError :=
  match code error with
  | VStr "ENOENT" =>
      if Str.includes (toString (message error)) "directory" then
        McpError InvalidParams
          ("Parent directory does not exist: " ++ file_path
             ++ ". Use create_directories: true to create it.")
      else McpError InvalidParams ("Path not found: " ++ file_path)
  | VStr "EACCES" => McpError InvalidParams ("Permission denied: " ++ file_path)
  | VStr "EISDIR" => McpError InvalidParams ("Path is a directory: " ++ file_path)
  | VStr "ENOSPC" => McpError InvalidParams ("No space left on device: " ++ file_path)
  | _ => error
  end.

(** [run(args)] *)
Definition run (args : JsObj) (w : World) : Outcome JsObj * World :=
  let file_path := arg "file_path" args in
  let content := arg "content" args in
  let encoding := default_to (VStr "utf8") (arg "encoding" args) in
  let create_directories := default_to (VBool false) (arg "create_directories" args) in
  let backup := default_to (VBool false) (arg "backup" args) in
  match file_path with
  | VStr fp =>
      if String.eqb fp "" then
        (Raised (McpError InvalidParams "file_path must be a non-empty string"), w)
      else
        match content with
        | VUndefined | VNull => (Raised (McpError InvalidParams "content is required"), w)
        | _ =>
            let stringContent := toString content in
            let '(backupInfo, m1) :=
              if truthy backup then createBackup (machine w) fp else (VNull, machine w) in
            match writeFileWithMetadata accessSync encode m1 fp stringContent encoding
                    (truthy create_directories) with
            | (Returned result, m2) =>
                (Returned
                   (spread (spread [("operation", VStr "file_write")] result)
                      [("backup_created", backupInfo);
                       ("content_preview",
                        preview_object (createContentPreview stringContent 200))]),
                 with_machine w m2)
            | (Raised error, m2) => (Raised (convert fp error), with_machine w m2)
            end
        end
  | _ => (Raised (McpError InvalidParams "file_path must be a non-empty string"), w)
  end.

Definition tool (schema : JsVal) : BaseTool.BaseTool :=
  BaseTool.mkTool "file_write"
    "Write content to a file with metadata - safer than shell redirection"
    schema run.

End Run.

End FileWriteTool.

(** ** tools/file-operations.js *)

Module FileOperationsTool.
Import Os OsMore FileUtils FileUtilsMore DirectoryOperationsTool.

Definition operations : list string := map snd FileConstants.FILE_OPERATIONS.

Definition invalid_operation : JsError :=
  McpError InvalidParams ("Invalid operation. Must be one of: " ++ Str.join ", " operations).

(** A non-empty string. *)
Definition string_given (v : JsVal) : option string :=
  match v with
  | VStr s => if String.eqb s "" then None else Some s
  | _ => None
  end.

(** The [switch] of the [try] block; [destination] is a string when the
    operation is a copy or a move. *)
Definition dispatch (operation source : string) (destination overwrite force : JsVal)
  (m : Machine) : Outcome JsObj * Machine :=
  if String.eqb operation "copy" then
    copyFile m source (toString destination) (truthy overwrite)
  else if String.eqb operation "move" then
    moveFile m source (toString destination) (truthy overwrite)
  else if String.eqb operation "delete" then
    deleteFile m source (truthy force)
  else (Raised (McpError InvalidParams ("Unsupported operation: " ++ operation)), m).

(** The [catch] block. *)
Definition convert (source : string) (destination : JsVal) (error : JsError) : JsError :=
  match code error with
  | VStr "ENOENT" => McpError InvalidParams ("File not found: " ++ source)
  | VStr "EACCES" =>
      McpError InvalidParams ("Permission denied: " ++ toString (message error))
  | VStr "EISDIR" =>
      McpError InvalidParams ("Path is a directory: " ++ toString (message error))
  | VStr "EEXIST" =>
      McpError InvalidParams
        ("Destination already exists: " ++ toString destination
           ++ ". Use overwrite: true to replace it.")
  | VStr "EXDEV" =>
      McpError InvalidParams
        ("Cannot move across different filesystems. Source: " ++ source
           ++ ", Destination: " ++ toString destination)
  | VStr "ENOSPC" => McpError InvalidParams "No space left on device"
  | VStr "EMFILE" | VStr "ENFILE" => McpError InvalidParams "Too many open files"
  | _ => error
  end.

(** [run(args)] *)
Definition run (args : JsObj) (w : World) : Outcome JsObj * World :=
  let operation := arg "operation" args in
  let source := arg "source" args in
  let destination := arg "destination" args in
  let overwrite := default_to (VBool false) (arg "overwrite" args) in
  let force := default_to (VBool false) (arg "force" args) in
  match string_given operation with
  | None => (Raised invalid_operation, w)
  | Some op =>
      if negb (existsb (String.eqb op) operations) then (Raised invalid_operation, w)
      else
        match string_given source with
        | None => (Raised (McpError InvalidParams "source must be a non-empty string"), w)
        | Some src =>
            if ((String.eqb op "copy" || String.eqb op "move")
                && negb (present (string_given destination)))%bool then
              (Raised (McpError InvalidParams
                         ("destination is required for " ++ op ++ " operation")), w)
            else
              match dispatch op src destination overwrite force (machine w) with
              | (Returned result, m') =>
                  (Returned
                     (spread result
                        [("requested_operation", operation);
                         ("overwrite_allowed", overwrite);
                         ("force_enabled", force)]), with_machine w m')
              | (Raised error, m') =>
                  (Raised (convert src destination error), with_machine w m')
              end
        end
  end.

Definition tool (schema : JsVal) : BaseTool.BaseTool :=
  BaseTool.mkTool "file_operations"
    "Perform file operations (copy, move, delete) - safer than shell commands"
    schema run.

End FileOperationsTool.

(** ** utils/command-utils.js: the shell helpers *)

Module ShellUtils.

(** [platform() === 'win32'] is a fact of the host; [getShell()] *)
Definition getShell (isWindows : bool) : string :=
  if isWindows then "cmd.exe" else "/bin/sh".

(** [s.replace(/c/g, by)] for a one-character pattern. *)
Fixpoint replace_char (c : ascii) (by_ : string) (s : string) : string :=
  match s with
  | EmptyString => EmptyString
  | String a s' =>
      if Ascii.eqb a c then by_ ++ replace_char c by_ s'
      else String a (replace_char c by_ s')
  end.

Definition squote : string := "'".
Definition backslash : string := String "092"%char EmptyString.

(** [escapeShellArg(arg)] *)
Definition escapeShellArg (isWindows : bool) (arg : string) : string :=
  if isWindows then
    Constants.dquote
      ++ replace_char "034"%char (Constants.dquote ++ Constants.dquote) arg
      ++ Constants.dquote
  else
    squote ++ replace_char "'"%char (squote ++ backslash ++ squote ++ squote) arg ++ squote.

(** How [/bin/sh] reads one word made of single-quoted parts and
    backslash escapes: inside single quotes every character stands for
    itself up to the closing quote; outside, a backslash makes the next
    character literal.  [None]: the word is not closed. *)
Fixpoint sh_word (quoted : bool) (s : string) : option string :=
  match s with
  | EmptyString => if quoted then None else Some EmptyString
  | String a s' =>
      if quoted then
        if Ascii.eqb a "'" then sh_word false s'
        else option_map (String a) (sh_word true s')
      else if Ascii.eqb a "'" then sh_word true s'
      else if Ascii.eqb a "092" then
        match s' with
        | String b s'' => option_map (String b) (sh_word false s'')
        | EmptyString => None
        end
      else option_map (String a) (sh_word false s')
  end.

End ShellUtils.

(** ** tools/execute-command.js *)

Module ExecuteCommandTool.
Import Os CommandUtils.

(** The arguments, typed as the tool's schema declares them; [command]
    stays a raw value because [run] checks its type. *)
Record Args : Type := mkArgs {
  command : JsVal;
  working_directory : option string;
  arg_timeout : option Z;
  environment : option JsObj
}.

Section Run.

Variable execAsync : string -> ExecOptions -> Machine -> Outcome ExecResult * Machine.
Variable process_env : JsObj.

(** [run(args)] *)
Definition run (args : Args) (w : World) : Outcome JsObj * World :=
  match command args with
  | VStr command =>
      if String.eqb command "" then
        (Raised (McpError InvalidParams "Command must be a non-empty string"), w)
      else
        let execOptions :=
          getExecOptions process_env
            (mkRaw (arg_timeout args) (working_directory args) (environment args)) in
        match execAsync command execOptions (machine w) with
        | (Raised e, m1) => (Raised e, record (SysExec command) (with_machine w m1))
        | (Returned r, m1) =>
            (Returned
               [("command", VStr command);
                ("working_directory",
                 VStr (from_option id (Os.cwd (machine w)) (nonempty (working_directory args))));
                ("stdout", VStr (res_stdout r));
                ("stderr", VStr (res_stderr r));
                ("exit_code", VNum 0)],
             record (SysExec command) (with_machine w m1))
        end
  | _ => (Raised (McpError InvalidParams "Command must be a non-empty string"), w)
  end.

(** The tool as the dispatch wrapper has it in an invocation whose
    argument object holds [args]: the handler is [run] on them. *)
Definition tool (schema : JsVal) (args : Args) : BaseTool.BaseTool :=
  BaseTool.mkTool "execute_command"
    "Execute a shell command in the terminal with proper security and timeout handling"
    schema (fun _ => run args).

End Run.

End ExecuteCommandTool.

(** ** tools/process-manager.js: ending a process *)

Module KillProcessTool.
Import Os CommandUtils DirectoryOperationsTool.

(** The options of the [exec] call: the time limit, and Node's defaults
    for the rest. *)
Definition kill_options (process_env : JsObj) : ExecOptions :=
  mkExecOptions Constants.TIMEOUTS.KILL (1024 * 1024) process_env None.

Section Run.

Variable execAsync : string -> ExecOptions -> Machine -> Outcome ExecResult * Machine.
Variable process_env : JsObj.
Variable isWindows : bool.

(** [run(args)] *)
Definition run (args : JsObj) (w : World) : Outcome JsObj * World :=
  let pid := arg "pid" args in
  let force := default_to (VBool false) (arg "force" args) in
  let signal := default_to (VStr "SIGTERM") (arg "signal" args) in
  match pid with
  | VNum n =>
      if (n =? 0) || (n <? 1) then
        (Raised (McpError InvalidParams "PID must be a positive number"), w)
      else
        let command :=
          if isWindows then
            if truthy force then "taskkill /F /PID " ++ pretty n
            else "taskkill /PID " ++ pretty n
          else
            let killSignal := if truthy force then VStr "SIGKILL" else signal in
            "kill -" ++ toString killSignal ++ " " ++ pretty n in
        match execAsync command (kill_options process_env) (machine w) with
        | (Raised e, m1) => (Raised e, record (SysExec command) (with_machine w m1))
        | (Returned r, m1) =>
            (Returned
               [("pid", pid);
                ("signal", if truthy force then VStr "SIGKILL" else signal);
                ("stdout", VStr (res_stdout r));
                ("stderr", VStr (res_stderr r))],
             record (SysExec command) (with_machine w m1))
        end
  | _ => (Raised (McpError InvalidParams "PID must be a positive number"), w)
  end.

Definition tool (schema : JsVal) : BaseTool.BaseTool :=
  BaseTool.mkTool "kill_process" "Terminate a process by PID with safety checks" schema run.

End Run.

End KillProcessTool.

(** ** server.js: the request handlers *)

Module Server.
Import Os.

(** The handler of a tool call: what the registry's [execute] settles to,
    with every error that is not a protocol error turned into one. *)
Definition callTool (name : string) (args : JsObj) (startTime endTime : Z)
  (r : ToolRegistry.Registry) (w : World) : Outcome JsObj * World :=
  match ToolRegistry.execute_ name args startTime endTime r w with
  | (Returned result, w') => (Returned result, w')
  | (Raised error, w') =>
      if isMcpError error then (Raised error, w')
      else
        (Raised (McpError InternalError
                   ("Tool execution failed: " ++ toString (message error))), w')
  end.

(** The handler of a tool listing. *)
Definition listTools (r : ToolRegistry.Registry) : list BaseTool.ToolDefinition :=
  ToolRegistry.list_ r.

End Server.

(** ** config/config-manager.js: the stored configuration

    [this.config] is either the very object [this.defaults] or an object
    of its own; a write through [this.config] reaches the defaults in the
    first case. *)

Module ConfigStore.
Import Os OsMore.

(** A JS array, as the object of its indices. *)
Definition array (items : list JsVal) : JsVal :=
  VObj (imap (fun i v => (pretty (Z.of_nat i), v)) items).

Definition builtin_defaults : JsObj :=
  [ ("maxBufferSize", VNum (10 * 1024 * 1024));
    ("defaultTimeout", VNum 30000);
    ("maxTimeout", VNum 300000);
    ("scriptTimeout", VNum 60000);
    ("processListLimit", VNum 50);
    ("maxProcessLimit", VNum 500);
    ("allowedInterpreters",
     array (map VStr ["bash"; "sh"; "powershell"; "cmd"; "python"; "python3"; "node";
                      "perl"; "ruby"]));
    ("enableLogging", VBool true);
    ("logLevel", VStr "info");
    ("securityMode", VStr "standard");
    ("commandWhitelist", array []);
    ("commandBlacklist", array []) ].

Inductive Ref : Type :=
| Shared
| Own (object : JsObj).

Record Manager : Type := mkManager {
  configPath : string;
  defaults : JsObj;
  config : Ref
}.

(** The object [this.config] points to. *)
Definition current (c : Manager) : JsObj :=
  match config c with
  | Shared => defaults c
  | Own object => object
  end.

(** The own enumerable properties a spread copies: those of an object,
    the characters of a string, none of another value. *)
Definition own_properties (v : JsVal) : JsObj :=
  match v with
  | VObj fields => fields
  | VStr s =>
      imap (fun i a => (pretty (Z.of_nat i), VStr (String a EmptyString)))
        (list_ascii_of_string s)
  | _ => []
  end.

Section Json.

Variable JSON_parse : string -> Outcome JsVal.
Variable JSON_stringify : JsObj -> string.

(** [loadConfig()] *)
Definition loadConfig (path : string) (defaults : JsObj) (w : World) : Ref * World :=
  if existsSync (machine w) path then
    match readFileSync (machine w) path with
    | Raised error =>
        (Shared, console_error ("Failed to load config: " ++ toString (message error)) w)
    | Returned content =>
        match JSON_parse content with
        | Raised error =>
            (Shared, console_error ("Failed to load config: " ++ toString (message error)) w)
        | Returned userConfig =>
            (Own (spread (spread [] defaults) (own_properties userConfig)), w)
        end
    end
  else (Shared, w).

(** [new ConfigManager()] *)
Definition constructor (w : World) : Manager * World :=
  let path := PathMore.join_all [homedir (machine w); ".claude-terminal"; "config.json"] in
  let '(ref, w') := loadConfig path builtin_defaults w in
  (mkManager path builtin_defaults ref, w').

(** [saveConfig()] *)
Definition saveConfig (c : Manager) (w : World) : World :=
  let dir := PathMore.join_all [homedir (machine w); ".claude-terminal"] in
  match (if negb (existsSync (machine w) dir) then mkdirSync (machine w) dir true
         else (Returned tt, machine w)) with
  | (Raised error, m1) =>
      console_error ("Failed to save config: " ++ toString (message error)) (with_machine w m1)
  | (Returned _, m1) =>
      match writeFileSync m1 (configPath c) (JSON_stringify (current c)) with
      | (Raised error, m2) =>
          console_error ("Failed to save config: " ++ toString (message error))
            (with_machine w m2)
      | (Returned _, m2) =>
          console_error ("Config saved to " ++ configPath c) (with_machine w m2)
      end
  end.

(** [get(key)] *)
Definition get (key : string) (c : Manager) : JsVal :=
  from_option id VUndefined (obj_get key (current c)).

(** [set(key, value)] *)
Definition set (key : string) (value : JsVal) (c : Manager) (w : World) : Manager * World :=
  let c' :=
    match config c with
    | Shared => mkManager (configPath c) (obj_set key value (defaults c)) Shared
    | Own object => mkManager (configPath c) (defaults c) (Own (obj_set key value object))
    end in
  (c', saveConfig c' w).

(** [update(updates)] *)
Definition update (updates : JsObj) (c : Manager) (w : World) : Manager * World :=
  let c' := mkManager (configPath c) (defaults c) (Own (spread (spread [] (current c)) updates)) in
  (c', saveConfig c' w).

(** [reset()] *)
Definition reset (c : Manager) (w : World) : Manager * World :=
  let c' := mkManager (configPath c) (defaults c) Shared in
  (c', saveConfig c' w).

(** [getAll()] *)
Definition getAll (c : Manager) : JsObj := spread [] (current c).

End Json.

End ConfigStore.

(** ** More sample inputs *)

Module MoreSamples.
Import Os OsMore.

(** An [accessSync] that lets every existing path be read and run, and be
    written unless the OS refuses changes on it. *)
Definition access_all (m : Machine) (p : string) (mode : AccessMode) : bool :=
  (existsSync m p && match mode with W_OK => negb (denied m p) | _ => true end)%bool.

(** Text whose bytes are its characters in every encoding. *)
Definition plain (encoding text : string) : string := text.

Definition noon : string := "2024-05-01T12:00:00.000Z".

Definition never_json (content : string) : bool := false.

Definition notes : string := "/home/u/notes.txt".

Definition write_notes : JsObj :=
  [("file_path", VStr notes); ("content", VStr "second draft"); ("backup", VBool true)].

Definition read_notes : JsObj := [("file_path", VStr notes)].

Definition read_missing : JsObj := [("file_path", VStr "/home/u/absent.txt")].

Definition delete_missing : JsObj :=
  [("operation", VStr "delete"); ("source", VStr "/home/u/absent.txt")].

Definition kill_forced : JsObj :=
  [("pid", VNum 4242); ("force", VBool true); ("signal", VStr "SIGINT")].

Definition run_false : ExecuteCommandTool.Args :=
  ExecuteCommandTool.mkArgs (VStr "false") None None None.

(** A JSON codec that knows one text: the configuration after the log
    level was changed. *)
Definition debug_level : JsObj := [("logLevel", VStr "debug")].

Definition debug_config : JsObj :=
  spread (spread [] ConfigStore.builtin_defaults) debug_level.

Definition debug_text : string := "{ logLevel: debug, ... }".

Definition stringify_debug (o : JsObj) : string := debug_text.

Definition parse_debug (text : string) : Outcome JsVal :=
  if String.eqb text debug_text then Returned (VObj debug_config)
  else Raised (Error "Unexpected token").

End MoreSamples.

(** * Properties *)

(** ** Objects *)

Module JsFacts.

Lemma obj_get_set_eq (k : string) (v : JsVal) (o : JsObj) :
  obj_get k (obj_set k v o) = Some v.
Proof.
  induction o as [|[k' v'] o IH]; simpl.
  - now rewrite String.eqb_refl.
  - destruct (String.eqb k k') eqn:E; simpl.
    + now rewrite String.eqb_refl.
    + now rewrite E.
Qed.

Lemma obj_get_set_ne (k k' : string) (v : JsVal) (o : JsObj) :
  k <> k' -> obj_get k (obj_set k' v o) = obj_get k o.
Proof.
  intros Hne. induction o as [|[k'' v''] o IH]; simpl.
  - apply String.eqb_neq in Hne. now rewrite Hne.
  - destruct (String.eqb k' k'') eqn:E; simpl.
    + apply String.eqb_eq in E. subst k''.
      apply String.eqb_neq in Hne. now rewrite Hne.
    + now rewrite IH.
Qed.

Lemma obj_get_app (k : string) (o1 o2 : JsObj) :
  obj_get k (o1 ++ o2)%list =
  match obj_get k o1 with Some v => Some v | None => obj_get k o2 end.
Proof.
  induction o1 as [|[k' v'] o1 IH]; simpl; [reflexivity|].
  destruct (String.eqb k k'); [reflexivity | exact IH].
Qed.

(** A spread reads back the last binding the spread object gave to the
    key, and the base object's binding for the keys it did not mention. *)
Lemma obj_get_spread (k : string) (base extra : JsObj) :
  obj_get k (spread base extra) =
  match obj_get k (rev extra) with
  | Some v => Some v
  | None => obj_get k base
  end.
Proof.
  unfold spread. revert base.
  induction extra as [|[k' v'] extra IH]; intros base; simpl; [reflexivity|].
  rewrite IH, obj_get_app. destruct (obj_get k (rev extra)); [reflexivity|].
  simpl. destruct (String.eqb k k') eqn:E.
  - apply String.eqb_eq in E. subst k'. apply obj_get_set_eq.
  - apply obj_get_set_ne. now apply String.eqb_neq.
Qed.

Lemma obj_get_rev_None (k : string) (o : JsObj) :
  obj_get k o = None -> obj_get k (rev o) = None.
Proof.
  induction o as [|[k' v'] o IH]; simpl; [reflexivity|].
  destruct (String.eqb k k') eqn:E; [discriminate|].
  intros H. rewrite obj_get_app, (IH H). simpl. now rewrite E.
Qed.

Lemma obj_get_spread_absent (k : string) (base extra : JsObj) :
  obj_get k extra = None -> obj_get k (spread base extra) = obj_get k base.
Proof. intros H. rewrite obj_get_spread. now rewrite (obj_get_rev_None _ _ H). Qed.

End JsFacts.

(** ** The dispatch wrapper *)

Module BaseToolSpec.
Import Os BaseTool JsFacts.

(** The five optional fields of a failure envelope, read back. *)
Lemma formatError_fields (e : JsError) (ms : Z) :
  let env := formatError e ms in
  obj_get "success" env = Some (VBool false) /\
  obj_get "execution_time_ms" env = Some (VNum ms) /\
  obj_get "error" env = Some (message e) /\
  obj_get "stdout" env =
    (if truthy (stdout e) then Some (VStr (toString (stdout e))) else None) /\
  obj_get "stderr" env =
    (if truthy (stderr e) then Some (VStr (toString (stderr e))) else None) /\
  obj_get "exit_code" env = (if truthy (code e) then Some (code e) else None) /\
  obj_get "signal" env = (if truthy (signal e) then Some (signal e) else None) /\
  obj_get "timeout" env = (if truthy (killed e) then Some (VBool true) else None).
Proof.
  unfold formatError, spread_if.
  destruct (truthy (stdout e)), (truthy (stderr e)), (truthy (code e)),
    (truthy (signal e)), (truthy (killed e)); cbn; repeat split; reflexivity.
Qed.

(** The handler of [verdict_tool] returns normally, and the envelope says
    [success: false]: the result's own field replaced the wrapper's. *)
Lemma execute_success_overridden :
  run Samples.verdict_tool [] Samples.world0 =
    (Returned [("success", VBool false); ("reason", VStr "no match")], Samples.world0) /\
  execute Samples.verdict_tool [] 10 17 Samples.world0 =
    (Returned [("success", VBool false); ("execution_time_ms", VNum 7);
               ("reason", VStr "no match")], Samples.world0).
Proof. split; reflexivity. Qed.

(** C1, as the code has it.  [BaseTool.execute] is two-tier, for every
    tool, argument object, pair of clock readings and world.  When the
    handler returns, the wrapper returns the object
    [{success: true, execution_time_ms, ...result}]: every field of the
    handler's result is in it, and [success] reads [true] and
    [execution_time_ms] the elapsed time unless the result has a field of
    that very name, which then takes its place.  When the handler raises an [McpError], the
    wrapper raises the same error.  When it raises anything else, the
    wrapper returns an envelope with [success = false], the elapsed time,
    the error's message, and [stdout], [stderr], [exit_code], [signal] and
    [timeout] exactly for the properties of the error that are truthy. *)
Theorem execute_two_tier (t : BaseTool) (args : JsObj) (startTime endTime : Z) (w : World) :
  let ms := endTime - startTime in
  match run t args w with
  | (Returned result, w') =>
      exists env,
        execute t args startTime endTime w = (Returned env, w') /\
        env = spread [("success", VBool true); ("execution_time_ms", VNum ms)] result /\
        (forall k v, obj_get k (rev result) = Some v -> obj_get k env = Some v) /\
        (obj_get "success" result = None -> obj_get "success" env = Some (VBool true)) /\
        (obj_get "execution_time_ms" result = None ->
         obj_get "execution_time_ms" env = Some (VNum ms))
  | (Raised error, w') =>
      if isMcpError error then
        execute t args startTime endTime w = (Raised error, w')
      else
        exists env,
          execute t args startTime endTime w = (Returned env, w') /\
          obj_get "success" env = Some (VBool false) /\
          obj_get "execution_time_ms" env = Some (VNum ms) /\
          obj_get "error" env = Some (message error) /\
          obj_get "stdout" env =
            (if truthy (stdout error) then Some (VStr (toString (stdout error))) else None) /\
          obj_get "stderr" env =
            (if truthy (stderr error) then Some (VStr (toString (stderr error))) else None) /\
          obj_get "exit_code" env = (if truthy (code error) then Some (code error) else None) /\
          obj_get "signal" env = (if truthy (signal error) then Some (signal error) else None) /\
          obj_get "timeout" env = (if truthy (killed error) then Some (VBool true) else None)
  end.
Proof.
  intros ms. unfold execute.
  destruct (run t args w) as [[result | error] w'].
  - eexists. split; [reflexivity|]. split; [reflexivity|].
    unfold formatSuccess. fold ms. repeat split.
    + intros k v Hk. rewrite obj_get_spread. now rewrite Hk.
    + intros Hk. now rewrite obj_get_spread_absent.
    + intros Hk. now rewrite obj_get_spread_absent.
  - destruct (isMcpError error) eqn:Hmcp; [reflexivity|].
    eexists. split; [reflexivity|]. apply formatError_fields.
Qed.

Lemma execute_two_tier_witness :
  (exists env,
     execute Samples.echo_tool [] 10 17 Samples.world0 = (Returned env, Samples.world0) /\
     obj_get "success" env = Some (VBool true) /\
     obj_get "execution_time_ms" env = Some (VNum 7) /\
     obj_get "stdout" env = Some (VStr "hi")) /\
  execute Samples.picky_tool [] 10 17 Samples.world0 =
    (Raised (McpError InvalidParams "Command must be a non-empty string"), Samples.world0) /\
  (exists env,
     execute Samples.failing_tool [] 10 17 Samples.world0 = (Returned env, Samples.world0) /\
     obj_get "success" env = Some (VBool false) /\
     obj_get "stdout" env = Some (VStr "partial") /\
     obj_get "stderr" env = None /\
     obj_get "exit_code" env = Some (VNum 2)).
Proof.
  split; [|split].
  - destruct (execute_two_tier Samples.echo_tool [] 10 17 Samples.world0)
      as (env & He & _ & Hall & Hs & Ht).
    exists env. split; [exact He|]. split; [apply Hs; reflexivity|].
    split; [apply Ht; reflexivity|]. apply Hall. reflexivity.
  - exact (execute_two_tier Samples.picky_tool [] 10 17 Samples.world0).
  - destruct (execute_two_tier Samples.failing_tool [] 10 17 Samples.world0)
      as (env & He & Hs & _ & _ & Ho & Hr & Hc & _).
    exists env. repeat split; assumption.
Defined.

(** A child that [exec] killed for exceeding the output buffer is
    reported with the code of the overflow as [exit_code] and without any
    [timeout] field. *)
Lemma overflow_is_not_timeout :
  execute Samples.overflow_tool [] 0 5 Samples.world0 =
    (Returned [("success", VBool false); ("execution_time_ms", VNum 5);
               ("error", VStr "stdout maxBuffer length exceeded");
               ("stdout", VStr "yyyy");
               ("exit_code", VStr "ERR_CHILD_PROCESS_STDIO_MAXBUFFER")], Samples.world0).
Proof. reflexivity. Qed.

(** C10, as the code has it.  In the failure envelope of the dispatch
    wrapper, [exit_code] is present if and only if the error's [code] is
    truthy, so an exit code of 0 leaves no [exit_code] field; and
    [timeout] is [true] exactly when the error's [killed] is truthy (and
    absent otherwise).  For the errors of [exec] this means: [timeout] is
    [true] exactly for a child that [exec]'s timer killed; a child killed
    for exceeding the output buffer is reported with [exit_code]
    [ERR_CHILD_PROCESS_STDIO_MAXBUFFER] and without [timeout] and [signal];
    an exit status other than 0 is the [exit_code]; a child that died from
    a signal has a [signal] and no [exit_code]. *)
Theorem failure_envelope_exit_code_and_timeout
  (t : BaseTool) (args : JsObj) (startTime endTime : Z) (w w' : World) (error : JsError) :
  run t args w = (Raised error, w') ->
  isMcpError error = false ->
  exists env,
    execute t args startTime endTime w = (Returned env, w') /\
    (is_Some (obj_get "exit_code" env) <-> truthy (code error) = true) /\
    (truthy (code error) = true -> obj_get "exit_code" env = Some (code error)) /\
    (code error = VNum 0 -> obj_get "exit_code" env = None) /\
    (obj_get "timeout" env = Some (VBool true) <-> truthy (killed error) = true) /\
    (truthy (killed error) = false -> obj_get "timeout" env = None) /\
    (forall cmd failure out err,
       error = ChildProcess.rejection cmd failure out err ->
       (obj_get "timeout" env = Some (VBool true) <->
        exists killSignal, failure = ChildProcess.TimedOut killSignal) /\
       match failure with
       | ChildProcess.Exited status =>
           obj_get "exit_code" env = (if status =? 0 then None else Some (VNum status)) /\
           obj_get "signal" env = None /\ obj_get "timeout" env = None
       | ChildProcess.TimedOut killSignal =>
           obj_get "exit_code" env = None /\
           obj_get "signal" env = (if String.eqb killSignal "" then None
                                   else Some (VStr killSignal))
       | ChildProcess.Signalled sig =>
           obj_get "exit_code" env = None /\
           obj_get "signal" env = (if String.eqb sig "" then None else Some (VStr sig)) /\
           obj_get "timeout" env = None
       | ChildProcess.Overflowed stream =>
           obj_get "exit_code" env = Some (VStr "ERR_CHILD_PROCESS_STDIO_MAXBUFFER") /\
           obj_get "signal" env = None /\ obj_get "timeout" env = None
       end).
Proof.
  intros Hrun Hmcp. unfold execute. rewrite Hrun, Hmcp.
  eexists. split; [reflexivity|].
  destruct (formatError_fields error (endTime - startTime))
    as (_ & _ & _ & _ & _ & Hc & Hsig & Hk).
  cbv zeta in Hc, Hsig, Hk. rewrite Hc, Hk.
  split; [|split; [|split; [|split; [|split]]]].
  - split.
    + destruct (truthy (code error)); [reflexivity|]. intros [v Hv]. discriminate.
    + intros ->. eexists. reflexivity.
  - now intros ->.
  - now intros ->.
  - split.
    + destruct (truthy (killed error)); [reflexivity | discriminate].
    + now intros ->.
  - now intros ->.
  - intros cmd failure out err ->. rewrite Hsig. clear Hc Hsig Hk Hrun Hmcp.
    destruct failure as [status|killSignal|sig|stream]; cbn [ChildProcess.rejection
      code killed signal truthy].
    + split.
      * split; [discriminate | intros [k Hk]; discriminate].
      * destruct (status =? 0); repeat split; reflexivity.
    + split.
      * split; [intros _; now exists killSignal | reflexivity].
      * destruct (String.eqb killSignal ""); split; reflexivity.
    + split.
      * split; [discriminate | intros [k Hk]; discriminate].
      * destruct (String.eqb sig ""); repeat split; reflexivity.
    + split.
      * split; [discriminate | intros [k Hk]; discriminate].
      * repeat split; reflexivity.
Qed.

Lemma failure_envelope_exit_code_and_timeout_witness :
  exists env,
    execute Samples.timeout_tool [] 0 5 Samples.world0 = (Returned env, Samples.world0) /\
    obj_get "exit_code" env = None /\
    obj_get "signal" env = Some (VStr "SIGTERM") /\
    obj_get "timeout" env = Some (VBool true).
Proof.
  destruct (failure_envelope_exit_code_and_timeout Samples.timeout_tool [] 0 5
              Samples.world0 Samples.world0 _ eq_refl eq_refl)
    as (env & He & _ & _ & _ & _ & _ & Hexec).
  destruct (Hexec "sleep 100" (ChildProcess.TimedOut "SIGTERM") "" "" eq_refl)
    as (Htimeout & Hcode & Hsignal).
  exists env. split; [exact He|]. split; [exact Hcode|]. split; [exact Hsignal|].
  apply Htimeout. now exists "SIGTERM".
Defined.

End BaseToolSpec.

(** ** Strings *)

Module StrFacts.

Lemma startsWith_spec (s p : string) :
  Str.startsWith s p = true <-> exists b, s = p ++ b.
Proof.
  revert s. induction p as [|c p IH]; intros s; simpl.
  - split; [intros _; now exists s | reflexivity].
  - destruct s as [|a s]; simpl.
    + split; [discriminate | intros [b Hb]; discriminate].
    + rewrite andb_true_iff, Ascii.eqb_eq, IH. split.
      * intros [-> [b ->]]. now exists b.
      * intros [b Hb]. injection Hb as -> ->. split; [reflexivity | now exists b].
Qed.

(** [includes] finds exactly the contiguous occurrences. *)
Lemma includes_spec (s p : string) :
  Str.includes s p = true <-> exists a b, s = a ++ p ++ b.
Proof.
  induction s as [|c s IH].
  - cbn [Str.includes]. rewrite orb_false_r, startsWith_spec. split.
    + intros [b Hb]. now exists "", b.
    + intros [a [b Hab]]. destruct a; [now exists b | discriminate].
  - cbn [Str.includes]. rewrite orb_true_iff, startsWith_spec, IH. split.
    + intros [[b Hb] | [a [b Hab]]].
      * now exists "", b.
      * exists (String c a), b. simpl. now rewrite Hab.
    + intros [a [b Hab]]. destruct a as [|c' a].
      * left. now exists b.
      * right. simpl in Hab. injection Hab as _ Hs. now exists a, b.
Qed.

End StrFacts.

(** ** The execution option builder *)

Module CommandUtilsSpec.
Import CommandUtils.

(** A request of 5 ms comes out as 5 ms: nothing raises it to 1000. *)
Lemma getExecOptions_timeout_below_minimum :
  timeout (getExecOptions [] (mkRaw (Some 5) None None)) = 5 /\
  ~ (1000 <= timeout (getExecOptions [] (mkRaw (Some 5) None None)) <= 300000).
Proof. split; [reflexivity|]. cbn. lia. Qed.

(** C4, as the code has it.  The timeout is [min(t, 300000)], where [t] is
    the requested timeout when one is given and is not 0, and 30000
    otherwise.  It never exceeds 300000.  It is at least 1000 when the
    request is absent, 0, or at least 1000; a smaller request is passed on
    as it is.  The script handler calls the builder with the request, or
    with its own default 60000 when there is none. *)
Theorem getExecOptions_timeout (process_env : JsObj) (options : RawOptions) :
  let result := timeout (getExecOptions process_env options) in
  match raw_timeout options with
  | None => result = 30000
  | Some requested =>
      if requested =? 0 then result = 30000
      else if requested <=? 300000 then result = requested
      else result = 300000
  end /\
  result <= 300000 /\
  ((raw_timeout options = None \/ raw_timeout options = Some 0 \/
    exists requested, raw_timeout options = Some requested /\ 1000 <= requested) ->
   1000 <= result <= 300000) /\
  (forall requested working_directory,
     timeout (getExecOptions process_env
                (mkRaw (Some (from_option id Constants.TIMEOUTS.SCRIPT requested))
                   working_directory None)) =
     match requested with
     | None => 60000
     | Some r => if r =? 0 then 30000 else Z.min r 300000
     end).
Proof.
  cbn. unfold or_number, DEFAULT_TIMEOUT, MAX_TIMEOUT.
  split; [|split; [|split]].
  - destruct (raw_timeout options) as [requested|]; [|reflexivity].
    destruct (Z.eqb_spec requested 0) as [->|Hnz]; [reflexivity|].
    destruct (Z.leb_spec requested 300000); lia.
  - destruct (raw_timeout options) as [requested|]; [|lia].
    destruct (Z.eqb_spec requested 0); lia.
  - destruct (raw_timeout options) as [requested|].
    + destruct (Z.eqb_spec requested 0) as [->|Hnz]; [lia|].
      intros [H'|[H'|[r [H' Hr]]]]; [discriminate | congruence |].
      injection H' as ->. lia.
    + lia.
  - intros [r|] wd; cbn; [|reflexivity].
    destruct (Z.eqb_spec r 0); reflexivity.
Qed.

Lemma getExecOptions_timeout_witness :
  timeout (getExecOptions [] (mkRaw (Some 2500) (Some "/srv") None)) = 2500 /\
  1000 <= timeout (getExecOptions [] (mkRaw (Some 2500) (Some "/srv") None)) <= 300000.
Proof.
  destruct (getExecOptions_timeout [] (mkRaw (Some 2500) (Some "/srv") None))
    as (Hval & _ & Hrange).
  split; [exact Hval|]. apply Hrange. right. right. exists 2500. split; [reflexivity | lia].
Defined.

End CommandUtilsSpec.

(** ** The command permission check *)

Module ConfigManagerSpec.
Import ConfigManager StrMore.

Lemma toLowerCase_ascii_only (s : string) : ascii_only (Str.toLowerCase s) = ascii_only s.
Proof.
  induction s as [|a s IH]; [reflexivity|]. simpl. rewrite IH. f_equal.
  destruct a as [[] [] [] [] [] [] [] []]; reflexivity.
Qed.

Lemma toLowerCase_idempotent (s : string) :
  Str.toLowerCase (Str.toLowerCase s) = Str.toLowerCase s.
Proof.
  induction s as [|a s IH]; [reflexivity|]. simpl. rewrite IH. f_equal.
  destruct a as [[] [] [] [] [] [] [] []]; reflexivity.
Qed.

Lemma latin1_on_ascii (s : string) :
  ascii_only s = true -> Samples.latin1_toLowerCase s = Str.toLowerCase s.
Proof.
  induction s as [|a s IH]; [reflexivity|]. simpl. intros H.
  apply andb_true_iff in H. destruct H as [Ha Hs]. rewrite (IH Hs). f_equal.
  destruct a as [[] [] [] [] [] [] [] []]; try reflexivity; discriminate.
Qed.

Section Folding.

Variable toLowerCase : string -> string.

(** On text that is all ASCII the folding is the one of the letters A to
    Z. *)
Hypothesis toLowerCase_ascii :
  forall s, ascii_only s = true -> toLowerCase s = Str.toLowerCase s.

(** A match is a substring occurrence after folding both sides. *)
Lemma matches_spec (command pattern : string) :
  matches toLowerCase command pattern = true <->
  exists a b, toLowerCase command = a ++ toLowerCase pattern ++ b.
Proof. apply StrFacts.includes_spec. Qed.

Lemma isCommandAllowed_folded (config : Config) (command command' : string) :
  toLowerCase command' = toLowerCase command ->
  isCommandAllowed toLowerCase config command' = isCommandAllowed toLowerCase config command.
Proof.
  intros H. unfold isCommandAllowed, matches. now rewrite H.
Qed.


End Folding.


End ConfigManagerSpec.

(** ** The tool registry *)

Module ToolRegistrySpec.
Import Os ToolRegistry.

Lemma map_get_set_eq (k : string) (v : Tool) (m : Registry) :
  map_get k (map_set k v m) = Some v.
Proof.
  induction m as [|[k' v'] m IH]; simpl.
  - now rewrite String.eqb_refl.
  - destruct (String.eqb k k') eqn:E; simpl.
    + now rewrite String.eqb_refl.
    + now rewrite E.
Qed.

Lemma map_get_set_ne (k k' : string) (v : Tool) (m : Registry) :
  k <> k' -> map_get k (map_set k' v m) = map_get k m.
Proof.
  intros Hne. apply String.eqb_neq in Hne.
  induction m as [|[k'' v''] m IH]; simpl.
  - now rewrite Hne.
  - destruct (String.eqb k' k'') eqn:E; simpl.
    + apply String.eqb_eq in E. subst k''. now rewrite Hne.
    + now rewrite IH.
Qed.

Lemma map_get_None (k : string) (m : Registry) :
  map_get k m = None <-> ~ In k (map fst m).
Proof.
  induction m as [|[k' v'] m IH]; simpl.
  - split; [tauto | reflexivity].
  - destruct (String.eqb_spec k k') as [->|Hne].
    + split; [discriminate | intros H; exfalso; apply H; now left].
    + rewrite IH. split; [intros H [Heq|Hin]; [congruence | tauto] | tauto].
Qed.

Lemma existsb_eqb_In (k : string) (l : list string) :
  existsb (String.eqb k) l = true <-> In k l.
Proof.
  rewrite existsb_exists. split.
  - intros [x [Hin Heq]]. apply String.eqb_eq in Heq. now subst.
  - intros Hin. exists k. split; [exact Hin | apply String.eqb_refl].
Qed.

(** The keys after a [set]: unchanged for a present key, one more at the
    end for a new one. *)
Lemma keys_map_set (k : string) (v : Tool) (m : Registry) :
  map fst (map_set k v m) =
  if existsb (String.eqb k) (map fst m) then map fst m else (map fst m ++ [k])%list.
Proof.
  induction m as [|[k' v'] m IH]; simpl; [reflexivity|].
  destruct (String.eqb k k') eqn:E; simpl.
  - apply String.eqb_eq in E. now subst.
  - rewrite IH. now destruct (existsb (String.eqb k) (map fst m)).
Qed.

Lemma keys_map_delete_incl (k : string) (m : Registry) (x : string) :
  In x (map fst (map_delete k m)) -> In x (map fst m).
Proof.
  induction m as [|[k' v'] m IH]; simpl; [tauto|].
  destruct (String.eqb k k'); simpl; tauto.
Qed.

Lemma well_keyed_set (v : Tool) (m : Registry) :
  well_keyed m -> well_keyed (map_set (name v) v m).
Proof.
  intros [Hnd Hall]. split.
  - rewrite keys_map_set.
    destruct (existsb (String.eqb (name v)) (map fst m)) eqn:E; [exact Hnd|].
    apply NoDup_app. split; [exact Hnd|]. split.
    + intros x Hx Hin. apply list_elem_of_In in Hin. destruct Hin as [<-|[]].
      apply list_elem_of_In in Hx.
      apply existsb_eqb_In in Hx. congruence.
    + apply NoDup_singleton.
  - induction Hall as [|[k' v'] m Hk Hall IH]; simpl.
    + now constructor.
    + apply NoDup_cons in Hnd. destruct Hnd as [_ Hnd].
      destruct (String.eqb (name v) k'); constructor; auto.
Qed.

Lemma well_keyed_delete (k : string) (m : Registry) :
  well_keyed m -> well_keyed (map_delete k m).
Proof.
  intros [Hnd Hall]. induction m as [|[k' v'] m IH]; simpl; [now split|].
  simpl in Hnd. apply NoDup_cons in Hnd. destruct Hnd as [Hnotin Hnd'].
  inversion Hall as [|? ? Hk Hall']; subst.
  destruct (String.eqb k k').
  - now split.
  - destruct (IH Hnd' Hall') as [IH1 IH2]. split.
    + simpl. apply NoDup_cons. split; [|exact IH1].
      intros Hin. apply Hnotin. apply list_elem_of_In.
      eapply keys_map_delete_incl. apply list_elem_of_In. exact Hin.
    + now constructor.
Qed.

Lemma register_accepts (tool : Tool) (r : Registry) :
  acceptable tool = true ->
  register tool r = (Returned tt, map_set (name tool) tool r).
Proof.
  unfold acceptable, register. intros H.
  apply andb_true_iff in H. destruct H as [Hn He].
  apply negb_true_iff in Hn. now rewrite Hn, He.
Qed.

Lemma register_rejects (tool : Tool) (r : Registry) :
  acceptable tool = false ->
  register tool r = (Raised (Error "Tool must have a name and execute method"), r).
Proof.
  unfold acceptable, register. intros H.
  apply andb_false_iff in H. destruct H as [Hn | He].
  - apply negb_false_iff in Hn. now rewrite Hn.
  - rewrite He. now rewrite orb_true_r.
Qed.

Lemma well_keyed_register (tool : Tool) (r : Registry) :
  well_keyed r -> well_keyed (snd (register tool r)).
Proof.
  intros H. destruct (acceptable tool) eqn:E.
  - rewrite (register_accepts _ _ E). now apply well_keyed_set.
  - now rewrite (register_rejects _ _ E).
Qed.

Lemma register_all_accepts (tools : list Tool) (r : Registry) :
  forallb acceptable tools = true ->
  register_all tools r =
  (Returned tt, fold_left (fun m t => map_set (name t) t m) tools r).
Proof.
  revert r. induction tools as [|t tools IH]; intros r H; simpl; [reflexivity|].
  simpl in H. apply andb_true_iff in H. destruct H as [Ht Hrest].
  rewrite (register_accepts _ _ Ht). now apply IH.
Qed.

Lemma well_keyed_register_all (tools : list Tool) (r : Registry) :
  well_keyed r -> well_keyed (snd (register_all tools r)).
Proof.
  revert r. induction tools as [|t tools IH]; intros r H; simpl; [exact H|].
  pose proof (well_keyed_register t r H) as Hr.
  destruct (register t r) as [[[]|e] r']; simpl in *; [now apply IH | exact Hr].
Qed.

Lemma keys_register_all (tools : list Tool) (r : Registry) :
  forallb acceptable tools = true ->
  getToolNames (snd (register_all tools r)) =
  (getToolNames r ++ new_names (getToolNames r) (map name tools))%list.
Proof.
  unfold getToolNames.
  revert r. induction tools as [|t tools IH]; intros r H; simpl.
  - now rewrite app_nil_r.
  - simpl in H. apply andb_true_iff in H. destruct H as [Ht Hrest].
    rewrite (register_accepts _ _ Ht). rewrite (IH _ Hrest), keys_map_set.
    destruct (existsb (String.eqb (name t)) (map fst r)); [reflexivity|].
    now rewrite <- app_assoc.
Qed.

Lemma get_register_all (tools : list Tool) (r : Registry) (n : string) :
  forallb acceptable tools = true ->
  get n (snd (register_all tools r)) =
  match last_registered n tools with
  | Some t => Some t
  | None => get n r
  end.
Proof.
  unfold get.
  revert r. induction tools as [|t tools IH]; intros r H; simpl; [reflexivity|].
  simpl in H. apply andb_true_iff in H. destruct H as [Ht Hrest].
  rewrite (register_accepts _ _ Ht). rewrite (IH _ Hrest).
  destruct (last_registered n tools); [reflexivity|].
  destruct (String.eqb_spec n (name t)) as [->|Hne].
  - apply map_get_set_eq.
  - now apply map_get_set_ne.
Qed.

Lemma list_names (r : Registry) :
  well_keyed r -> map BaseTool.def_name (list_ r) = getToolNames r.
Proof.
  intros [_ Hall]. unfold list_, getToolNames.
  induction Hall as [|[k v] m Hk Hall IH]; simpl; [reflexivity|].
  simpl in Hk. now rewrite IH, Hk.
Qed.

Lemma get_Some_In (n : string) (t : Tool) (r : Registry) :
  get n r = Some t -> In (n, t) r.
Proof.
  unfold get. induction r as [|[k v] r IH]; simpl; [discriminate|].
  destruct (String.eqb_spec n k) as [->|Hne].
  - intros [= ->]. now left.
  - intros H. right. now apply IH.
Qed.

Lemma get_registered (n : string) (r : Registry) :
  well_keyed r -> In n (getToolNames r) ->
  exists t, get n r = Some t /\ name t = n /\ In (getDefinition t) (list_ r).
Proof.
  intros [_ Hall] Hin.
  destruct (get n r) as [t|] eqn:Hget.
  - exists t. split; [reflexivity|].
    pose proof (get_Some_In _ _ _ Hget) as Hnt.
    rewrite Forall_forall in Hall.
    split.
    + symmetry. apply (Hall (n, t)). now apply list_elem_of_In.
    + unfold list_. apply in_map_iff. now exists (n, t).
  - exfalso. apply map_get_None in Hget. now apply Hget.
Qed.

Section Defaults.

Variable run_of : string -> BaseTool.Handler.
Variable schema_of : string -> JsVal.


Lemma constructor_succeeds : fst (constructor run_of schema_of) = Returned tt.
Proof. reflexivity. Qed.

Lemma reset_any (r : Registry) :
  reset run_of schema_of r = (Returned tt, snd (constructor run_of schema_of)).
Proof. reflexivity. Qed.

Lemma well_keyed_call (c : Call) (r : Registry) :
  well_keyed r -> well_keyed (call run_of schema_of c r).
Proof.
  intros H. destruct c as [tool | n | | ]; unfold call.
  - now apply well_keyed_register.
  - now apply well_keyed_delete.
  - split; constructor.
  - unfold reset, registerDefaultTools.
    apply well_keyed_register_all. split; constructor.
Qed.

Lemma well_keyed_calls (cs : list Call) : well_keyed (calls run_of schema_of cs).
Proof.
  unfold calls.
  assert (H0 : well_keyed (snd (constructor run_of schema_of))).
  { unfold constructor, registerDefaultTools.
    apply well_keyed_register_all. split; constructor. }
  revert H0. generalize (snd (constructor run_of schema_of)). induction cs as [|c cs IH]; intros r H; simpl.
  - exact H.
  - apply IH. now apply well_keyed_call.
Qed.

Lemma iter_reset (k : nat) (r : Registry) :
  Nat.iter (S k) (fun r' => snd (reset run_of schema_of r')) r =
  snd (constructor run_of schema_of).
Proof. destruct k; reflexivity. Qed.


End Defaults.



End ToolRegistrySpec.

(** ** Path validation *)

Module FileUtilsSpec.
Import Os FileUtils.

(** [normalizeString] without [allowAboveRoot] keeps no [..] segment:
    each one is consumed against the segment before it, or dropped at the
    root. *)
Lemma norm_step_no_parent (stack : list string) (seg : string) :
  Forall (fun s => s <> "..") stack ->
  Forall (fun s => s <> "..") (Path.norm_step false stack seg).
Proof.
  intros H. unfold Path.norm_step.
  destruct (String.eqb seg "" || String.eqb seg ".")%bool; [exact H|].
  destruct (String.eqb_spec seg "..") as [->|Hne].
  - destruct stack as [|top below]; [constructor|].
    destruct (String.eqb top ".."); [exact H|]. now inversion H.
  - now constructor.
Qed.

Lemma normalized_segments_no_parent (segs : list string) :
  Forall (fun s => s <> "..") (fold_left (Path.norm_step false) segs []).
Proof.
  assert (H : forall stack, Forall (fun s => s <> "..") stack ->
            Forall (fun s => s <> "..") (fold_left (Path.norm_step false) segs stack)).
  { induction segs as [|seg segs IH]; intros stack Hs; simpl; [exact Hs|].
    apply IH. now apply norm_step_no_parent. }
  apply H. constructor.
Qed.

(** What [path.resolve] returns for an absolute working directory: the
    root followed by segments none of which is [..]. *)
Lemma resolve_no_parent_segment (cwd p : string) :
  Path.isAbsolute cwd = true ->
  exists segs,
    Path.resolve cwd p = "/" ++ Str.join "/" segs /\ Forall (fun s => s <> "..") segs.
Proof.
  intros Habs. unfold Path.resolve.
  assert (Hcwd : String.eqb cwd "" = false).
  { destruct cwd; [discriminate | reflexivity]. }
  destruct (negb (String.eqb p "") && Path.isAbsolute p)%bool.
  - eexists. split; [reflexivity|].
    apply Forall_rev. apply normalized_segments_no_parent.
  - rewrite Hcwd, Habs. eexists. split; [reflexivity|].
    apply Forall_rev. apply normalized_segments_no_parent.
Qed.

(** C2, at the failing input.  The path [/tmp/../etc/passwd] has a
    parent-directory segment and resolves to [/etc/passwd], outside the
    home directory [/home/u]; the guard lets it through, because it looks
    for [..] in the path after [resolve] has removed the segment.  The same
    holds for the relative [../../etc/passwd].  The guard fires instead on
    [/tmp/a..b], which has no parent-directory segment at all. *)
Theorem validateAndNormalizePath_accepts_traversal :
  In ".." (Str.split "/" "/tmp/../etc/passwd") /\
  Str.startsWith "/etc/passwd" (homedir Samples.machine0) = false /\
  validateAndNormalizePath Samples.machine0 "/tmp/../etc/passwd" = Returned "/etc/passwd" /\
  validateAndNormalizePath Samples.machine0 "../../etc/passwd" = Returned "/etc/passwd" /\
  ~ In ".." (Str.split "/" "/tmp/a..b") /\
  validateAndNormalizePath Samples.machine0 "/tmp/a..b" =
    Raised (Error "Path traversal detected - access denied").
Proof.
  split; [cbn; tauto|]. split; [reflexivity|]. split; [reflexivity|].
  split; [reflexivity|]. split; [|reflexivity].
  cbn. intros [H|[H|[H|[]]]]; discriminate.
Qed.

End FileUtilsSpec.

(** ** The script handler *)

Module ExecuteScriptToolSpec.
Import Os ExecuteScriptTool.

Lemma unlinkSync_removed (m m' : Machine) (f : string) (u : unit) :
  unlinkSync m f = (Returned u, m') -> node_at m' f = None.
Proof.
  unfold unlinkSync. destruct (node_at m f) as [[c|]|] eqn:Hn; try discriminate.
  destruct (denied m f); [discriminate|]. intros [= _ <-].
  unfold node_at in *. destruct (String.eqb f "/"); [discriminate|].
  cbn. apply lookup_delete_eq.
Qed.

(** The two interpreter tables have the same keys. *)
Lemma commands_extensions_same_keys (i : string) :
  Constants.lookup Constants.SCRIPT_COMMANDS i = None ->
  Constants.lookup Constants.SCRIPT_EXTENSIONS i = None.
Proof.
  cbn.
  repeat match goal with
         | |- context [String.eqb i ?k] => destruct (String.eqb i k); [discriminate|]
         end.
  reflexivity.
Qed.

(** The sample engine throws plain errors only. *)
Lemma v8_call_plain (name scriptPath : string) (e : JsError) :
  Samples.v8_call name scriptPath = Raised e -> isMcpError e = false.
Proof.
  unfold Samples.v8_call.
  repeat match goal with
         | |- context [String.eqb name ?k] => destruct (String.eqb name k); [discriminate|]
         end.
  destruct (String.eqb name "__proto__"); intros [= <-]; reflexivity.
Qed.

Section Run.

Variable member_text : string -> string.
Variable call_member : string -> string -> Outcome Called.
Variable execAsync : string -> CommandUtils.ExecOptions -> Machine -> Outcome ExecResult * Machine.
Variable process_env : JsObj.

(** What the [try] block leaves behind: it logs nothing, and the only
    file it writes is the one its variable [tempFile] names. *)
Lemma try_block_effects (content : string) (args : Args) (timeout : Z) (w : World) :
  exists events,
    trace (snd (try_block member_text call_member execAsync process_env content args timeout w)) =
      (trace w ++ events)%list /\
    console (snd (try_block member_text call_member execAsync process_env content args timeout w))
      = console w /\
    forall f, In (SysWrite f) events ->
      fst (fst (try_block member_text call_member execAsync process_env content args timeout w))
        = Some f.
Proof.
  unfold try_block.
  destruct (mkdtempSync _ _) as [[tempDir|e] m1].
  2:{ exists []. cbn. rewrite app_nil_r. repeat split. intros f []. }
  destruct (writeFileSync _ _ _) as [[u|e] m2].
  2:{ exists [SysMkdir tempDir]. cbn. repeat split.
      intros f [H|[]]. discriminate. }
  destruct (buildScriptCommand _ _ _) as [[command|text|b]|e].
  2,3,4:(eexists [SysMkdir tempDir; SysWrite _]; cbn; rewrite <- app_assoc; repeat split;
         intros f [H|[H|[]]]; [discriminate|]; now injection H as ->).
  destruct (execAsync _ _ _) as [[r|e] m3];
    (eexists [SysMkdir tempDir; SysWrite _; SysExec command]; cbn;
     rewrite <- !app_assoc; repeat split;
     intros f [H|[H|[H|[]]]]; try discriminate; now injection H as ->).
Qed.

(** C5.  For an invocation that passes the content check, whatever the
    interpreter and whatever the child process does: the result of [run]
    is the result of its [try] block, untouched by the cleanup; if a temp
    file path was chosen, then either the file is gone when [run] ends, or
    the [unlink] call itself failed and exactly one line reporting it was
    logged; and the handler wrote no other file during the invocation. *)
Theorem temp_file_cleanup (args : Args) (content : string) (w : World) :
  script_content args = VStr content ->
  content <> "" ->
  let timeout := from_option id Constants.TIMEOUTS.SCRIPT (arg_timeout args) in
  let attempt := try_block member_text call_member execAsync process_env content args timeout w in
  let result := run member_text call_member execAsync process_env args w in
  fst result = snd (fst attempt) /\
  match fst (fst attempt) with
  | None => snd result = snd attempt
  | Some f =>
      (node_at (machine (snd result)) f = None /\
       console (snd result) = console w) \/
      (exists e m,
         unlinkSync (machine (snd attempt)) f = (Raised e, m) /\
         console (snd result) =
           (console w ++ [("Failed to cleanup temp file: " ++ toString (message e))%string])%list)
  end /\
  (forall f, In (SysWrite f) (trace (snd result)) -> ~ In (SysWrite f) (trace w) ->
     fst (fst attempt) = Some f).
Proof.
  intros Hc Hne timeout attempt result.
  destruct (try_block_effects content args timeout w) as (events & Htr & Hco & Hwr).
  fold attempt in Htr, Hco, Hwr.
  assert (Hrun : result = (snd (fst attempt), finally_block (fst (fst attempt)) (snd attempt))).
  { unfold result, run. rewrite Hc. apply String.eqb_neq in Hne. rewrite Hne.
    fold timeout. fold attempt. now destruct attempt as [[tf out] w1]. }
  rewrite Hrun. cbn [fst snd]. split; [reflexivity|]. split.
  - destruct (fst (fst attempt)) as [f|]; [|reflexivity].
    unfold finally_block.
    destruct (unlinkSync (machine (snd attempt)) f) as [[u|e] m] eqn:Hu.
    + left. cbn. split; [now apply unlinkSync_removed in Hu | exact Hco].
    + right. exists e, m. split; [reflexivity|]. cbn. now rewrite Hco.
  - intros f Hin Hnew.
    assert (Hev : In (SysWrite f) events).
    { unfold finally_block in Hin.
      destruct (fst (fst attempt)) as [g|].
      - destruct (unlinkSync (machine (snd attempt)) g) as [[u|e] m]; cbn in Hin.
        + rewrite Htr in Hin. apply in_app_or in Hin. destruct Hin as [Hin|[H|[]]].
          * apply in_app_or in Hin. tauto.
          * discriminate.
        + rewrite Htr in Hin. apply in_app_or in Hin. tauto.
      - rewrite Htr in Hin. apply in_app_or in Hin. tauto. }
    now apply Hwr.
Qed.

(** The [finally] block adds at most the [unlink] to the calls made. *)
Lemma finally_block_trace (f : string) (w : World) :
  exists rest,
    trace (finally_block (Some f) w) = (trace w ++ rest)%list /\
    (rest = [] \/ rest = [SysUnlink f]).
Proof.
  unfold finally_block. destruct (unlinkSync _ _) as [[u|e] m]; cbn.
  - exists [SysUnlink f]. split; [reflexivity | now right].
  - exists []. split; [now rewrite app_nil_r | now left].
Qed.

(** An interpreter that names a member of [Object.prototype]: the script
    is written to a file named after the member's text, and the member is
    called in place of a command builder. *)
Lemma run_inherited (args : Args) (content : string) (w : World)
    (tempDir : string) (m1 : Machine) (u : unit) (m2 : Machine) :
  script_content args = VStr content ->
  content <> "" ->
  Constants.lookup Constants.SCRIPT_COMMANDS (interpreter args) = None ->
  existsb (String.eqb (interpreter args)) Constants.prototype_members = true ->
  mkdtempSync (machine w) (Path.join (tmpdir (machine w)) "claude-terminal-")
    = (Returned tempDir, m1) ->
  let tempFile := Path.join tempDir ("script" ++ member_text (interpreter args)) in
  writeFileSync m1 tempFile content = (Returned u, m2) ->
  let w2 := record (SysWrite tempFile) (with_machine (record (SysMkdir tempDir) (with_machine w m1)) m2) in
  run member_text call_member execAsync process_env args w =
    match call_member (interpreter args) tempFile with
    | Raised e => (Raised e, finally_block (Some tempFile) w2)
    | Returned (StringObject _) =>
        (Raised (ChildProcess.invalid_command "an instance of String"),
         finally_block (Some tempFile) w2)
    | Returned (Boolean b) =>
        (Raised (ChildProcess.invalid_command
                   ("type boolean (" ++ (if b then "true" else "false") ++ ")")),
         finally_block (Some tempFile) w2)
    | Returned (Text command) =>
        match execAsync command
                (CommandUtils.getExecOptions process_env
                   (CommandUtils.mkRaw
                      (Some (from_option id Constants.TIMEOUTS.SCRIPT (arg_timeout args)))
                      (working_directory args) None)) m2 with
        | (Raised e, m3) =>
            (Raised e,
             finally_block (Some tempFile) (record (SysExec command) (with_machine w2 m3)))
        | (Returned r, m3) =>
            (Returned
               [("interpreter", VStr (interpreter args));
                ("working_directory",
                 VStr (from_option id (Os.cwd (machine w)) (nonempty (working_directory args))));
                ("stdout", VStr (res_stdout r));
                ("stderr", VStr (res_stderr r));
                ("exit_code", VNum 0)],
             finally_block (Some tempFile) (record (SysExec command) (with_machine w2 m3)))
        end
    end.
Proof.
  intros Hc Hne Hcmd Hinh Hmk tempFile Hwr w2.
  unfold run. rewrite Hc. apply String.eqb_neq in Hne. rewrite Hne.
  unfold try_block, buildScriptCommand, Constants.read.
  rewrite (commands_extensions_same_keys _ Hcmd), Hcmd, Hinh, Hmk.
  cbn zeta. fold tempFile. rewrite Hwr. fold w2.
  destruct (call_member _ _) as [[command|text|b]|e]; try reflexivity.
  destruct (execAsync _ _ _) as [[r|e] m3]; reflexivity.
Qed.

(** The engine's part: [toString] called on no object answers for
    [undefined], and what a member throws is no protocol error. *)
Hypothesis call_toString :
  forall scriptPath, call_member "toString" scriptPath = Returned (Text "[object Undefined]").
Hypothesis call_member_plain :
  forall name scriptPath e, call_member name scriptPath = Raised e -> isMcpError e = false.


End Run.



Lemma temp_file_cleanup_witness :
  node_at (machine (snd (run Samples.v8_text Samples.v8_call Samples.exec_ok []
                           Samples.bash_args Samples.world0)))
    "/tmp/claude-terminal-abc123/script.sh" = None /\
  fst (run Samples.v8_text Samples.v8_call Samples.exec_locks [] Samples.bash_args
         Samples.world0) =
    fst (run Samples.v8_text Samples.v8_call Samples.exec_ok [] Samples.bash_args
           Samples.world0).
Proof.
  assert (Hne : "echo hi" <> "") by discriminate.
  split.
  - destruct (temp_file_cleanup Samples.v8_text Samples.v8_call Samples.exec_ok []
                Samples.bash_args "echo hi" Samples.world0 eq_refl Hne) as (_ & Hfile & _).
    vm_compute in Hfile.
    destruct Hfile as [[Hgone _] | (e & m & Hu & _)]; [|discriminate].
    vm_compute. exact Hgone.
  - destruct (temp_file_cleanup Samples.v8_text Samples.v8_call Samples.exec_locks []
                Samples.bash_args "echo hi" Samples.world0 eq_refl Hne) as (Hres & _).
    rewrite Hres. vm_compute. reflexivity.
Defined.

End ExecuteScriptToolSpec.

(** ** Directory creation *)

Module DirectoryOperationsToolSpec.
Import Os FileUtils DirectoryOperationsTool JsFacts.

Lemma make_dirs_lookup (paths : list string) (f : gmap string Node) (q : string) :
  make_dirs f paths !! q = f !! q \/ make_dirs f paths !! q = Some Dir.
Proof.
  unfold make_dirs. revert f.
  induction paths as [|p paths IH]; intros f; simpl; [now left|].
  destruct (IH (<[p := Dir]> f)) as [H|H]; [|now right].
  rewrite H. destruct (decide (p = q)) as [->|Hne].
  - right. apply lookup_insert_eq.
  - left. now apply lookup_insert_ne.
Qed.

(** A successful [mkdir] only adds directories and leaves the process
    constants alone. *)
Lemma mkdirSync_effect (m m' : Machine) (p : string) (recursive : bool) (u : unit) :
  mkdirSync m p recursive = (Returned u, m') ->
  cwd m' = cwd m /\ homedir m' = homedir m /\
  forall q, node_at m' q = node_at m q \/ node_at m' q = Some Dir.
Proof.
  unfold mkdirSync. destruct (denied m p); [discriminate|].
  destruct recursive.
  - destruct (existsb _ _); [discriminate|]. intros [= _ <-].
    split; [reflexivity|]. split; [reflexivity|].
    intros q. unfold node_at. cbn. destruct (String.eqb q "/"); [now left|].
    apply make_dirs_lookup.
  - destruct (existsSync m p); [discriminate|].
    destruct (is_dir m (Path.parent p)); [|discriminate]. intros [= _ <-].
    split; [reflexivity|]. split; [reflexivity|].
    intros q. unfold node_at. cbn. destruct (String.eqb q "/"); [now left|].
    destruct (decide (p = q)) as [->|Hne].
    + right. apply lookup_insert_eq.
    + left. now apply lookup_insert_ne.
Qed.

Lemma validate_same_process (m m' : Machine) (p : string) :
  cwd m' = cwd m -> homedir m' = homedir m ->
  validateAndNormalizePath m' p = validateAndNormalizePath m p.
Proof. intros Hc Hh. unfold validateAndNormalizePath. now rewrite Hc, Hh. Qed.

Lemma validate_nonempty (m : Machine) (p np : string) :
  validateAndNormalizePath m p = Returned np -> String.eqb p "" = false.
Proof.
  unfold validateAndNormalizePath. now destruct (String.eqb p "").
Qed.

(** [createDirectory] on a directory that is there: nothing changes. *)
Lemma createDirectory_existing (p np : string) (recursive : JsVal) (w : World) :
  validateAndNormalizePath (machine w) p = Returned np ->
  is_dir (machine w) np = true ->
  createDirectory p recursive w =
    (Returned [("operation", VStr "create"); ("directory_path", VStr np);
               ("created", VBool false); ("existed", VBool true)], w).
Proof.
  intros Hv Hd. unfold createDirectory. rewrite Hv.
  unfold is_dir in Hd. unfold existsSync, statSync.
  destruct (node_at (machine w) np) as [[c|]|]; try discriminate. reflexivity.
Qed.

Lemma createDirectory_on_file (p np : string) (recursive : JsVal) (w : World) :
  validateAndNormalizePath (machine w) p = Returned np ->
  is_file (machine w) np = true ->
  createDirectory p recursive w =
    (Raised (Error ("Path exists but is not a directory: " ++ np)), w).
Proof.
  intros Hv Hd. unfold createDirectory. rewrite Hv.
  unfold is_file in Hd. unfold existsSync, statSync.
  destruct (node_at (machine w) np) as [[c|]|]; try discriminate. reflexivity.
Qed.

(** After a [createDirectory] that succeeded, the directory is there and
    the path validates as before. *)
Lemma createDirectory_post (p np : string) (recursive : JsVal) (w w1 : World) (r : JsObj) :
  validateAndNormalizePath (machine w) p = Returned np ->
  createDirectory p recursive w = (Returned r, w1) ->
  validateAndNormalizePath (machine w1) p = Returned np /\ is_dir (machine w1) np = true.
Proof.
  intros Hv. unfold createDirectory. rewrite Hv.
  unfold existsSync, statSync, is_dir.
  destruct (node_at (machine w) np) as [[c|]|] eqn:Hn.
  - discriminate.
  - intros [= _ <-]. now rewrite Hn.
  - unfold mkdirSync_checked.
    destruct (match recursive with VUndefined => VBool true | _ => recursive end)
      as [| |b| | |]; try discriminate.
    destruct (mkdirSync (machine w) np b) as [[u|e] m1] eqn:Hm; [|discriminate].
    destruct (mkdirSync_effect _ _ _ _ _ Hm) as (Hc & Hh & Hnodes).
    unfold getFileStats, statSync.
    destruct (node_at m1 np) as [n|] eqn:Hn1; [|discriminate].
    intros [= _ <-]. cbn. split.
    + rewrite <- Hv. now apply validate_same_process.
    + rewrite Hn1. destruct (Hnodes np) as [H|H]; rewrite Hn1, ?Hn in H; [discriminate|].
      now injection H as ->.
Qed.

Section Run.

Variable listDirectory : string -> JsVal -> JsVal -> World -> Outcome JsObj * World.
Variable createListingSummary : JsVal -> JsVal.
Variable deleteDirectory : string -> JsVal -> JsVal -> World -> Outcome JsObj * World.
Variable checkDirectoryExists : string -> World -> Outcome JsObj * World.

(** What [run] does with a create request for a non-empty path. *)
Lemma run_create (args : JsObj) (p : string) (w : World) :
  arg "operation" args = VStr "create" ->
  arg "path" args = VStr p ->
  String.eqb p "" = false ->
  run listDirectory createListingSummary deleteDirectory checkDirectoryExists args w =
  match createDirectory p (default_to (VBool true) (arg "recursive" args)) w with
  | (Returned result, w') =>
      (Returned
         (spread result
            [("requested_operation", VStr "create");
             ("options",
              VObj [("recursive", arg "recursive" args);
                    ("include_hidden", default_to (VBool false) (arg "include_hidden" args));
                    ("detailed", default_to (VBool true) (arg "detailed" args));
                    ("force", default_to (VBool false) (arg "force" args))])]), w')
  | (Raised error, w') => (Raised (convert p error), w')
  end.
Proof.
  intros Hop Hp Hne. unfold run. rewrite Hop, Hp, Hne. reflexivity.
Qed.

(** C8, as the code has it.  For a create request whose path passes the
    path validation: if the normalized path is a directory, [run] succeeds
    with [created = false] and [existed = true] and changes nothing; if it
    is a file, [run] fails, and the dispatch wrapper reports the failure
    with [success = false]; and after any create that succeeded, a second
    create of the same path succeeds with [existed = true] and
    [created = false]. *)
Theorem create_idempotent (args : JsObj) (p np : string) (schema : JsVal)
  (startTime endTime : Z) (w : World) :
  let handler := run listDirectory createListingSummary deleteDirectory checkDirectoryExists in
  let wrapped :=
    tool listDirectory createListingSummary deleteDirectory checkDirectoryExists schema in
  arg "operation" args = VStr "create" ->
  arg "path" args = VStr p ->
  validateAndNormalizePath (machine w) p = Returned np ->
  (is_dir (machine w) np = true ->
     exists result,
       handler args w = (Returned result, w) /\
       obj_get "created" result = Some (VBool false) /\
       obj_get "existed" result = Some (VBool true)) /\
  (is_file (machine w) np = true ->
     handler args w =
       (Raised (Error ("Path exists but is not a directory: " ++ np)), w) /\
     exists env,
       BaseTool.execute wrapped args startTime endTime w = (Returned env, w) /\
       obj_get "success" env = Some (VBool false)) /\
  (forall first w1,
     handler args w = (Returned first, w1) ->
     exists second,
       handler args w1 = (Returned second, w1) /\
       obj_get "created" second = Some (VBool false) /\
       obj_get "existed" second = Some (VBool true)).
Proof.
  intros handler wrapped Hop Hp Hv.
  pose proof (validate_nonempty _ _ _ Hv) as Hne.
  assert (Hexisting : forall w0,
            validateAndNormalizePath (machine w0) p = Returned np ->
            is_dir (machine w0) np = true ->
            exists result,
              handler args w0 = (Returned result, w0) /\
              obj_get "created" result = Some (VBool false) /\
              obj_get "existed" result = Some (VBool true)).
  { intros w0 Hv0 Hd. unfold handler. rewrite (run_create _ _ _ Hop Hp Hne).
    rewrite (createDirectory_existing _ _ _ _ Hv0 Hd).
    eexists. split; [reflexivity|].
    split; rewrite obj_get_spread_absent; reflexivity. }
  split; [now apply Hexisting|]. split.
  - intros Hf.
    assert (Hrun : handler args w =
                   (Raised (Error ("Path exists but is not a directory: " ++ np)), w)).
    { unfold handler. rewrite (run_create _ _ _ Hop Hp Hne).
      now rewrite (createDirectory_on_file _ _ _ _ Hv Hf). }
    split; [exact Hrun|].
    unfold BaseTool.execute, wrapped, tool. cbn [BaseTool.run]. fold handler.
    rewrite Hrun. cbn [isMcpError Error].
    eexists. split; [reflexivity|].
    apply BaseToolSpec.formatError_fields.
  - intros first w1 Hfirst. unfold handler in Hfirst.
    rewrite (run_create _ _ _ Hop Hp Hne) in Hfirst.
    destruct (createDirectory p _ w) as [[r|e] w'] eqn:Hcd; [|discriminate].
    injection Hfirst as _ <-.
    destruct (createDirectory_post _ _ _ _ _ _ Hv Hcd) as [Hv1 Hd1].
    now apply Hexisting.
Qed.

End Run.

(** The directory [/tmp/a..b] exists, yet creating it is refused: the
    guard sees two dots in a path outside the home directory. *)
Lemma create_existing_directory_refused :
  is_dir Samples.machine_dots "/tmp/a..b" = true /\
  Samples.directory_run (Samples.create_args "/tmp/a..b") Samples.world_dots =
    (Raised (Error "Path traversal detected - access denied"), Samples.world_dots).
Proof. split; vm_compute; reflexivity. Qed.

Lemma create_idempotent_witness :
  (exists result,
     Samples.directory_run (Samples.create_args "/tmp") Samples.world0
       = (Returned result, Samples.world0) /\
     obj_get "created" result = Some (VBool false) /\
     obj_get "existed" result = Some (VBool true)) /\
  Samples.directory_run (Samples.create_args "notes.txt") Samples.world0 =
    (Raised (Error "Path exists but is not a directory: /home/u/notes.txt"), Samples.world0).
Proof.
  split.
  - destruct (create_idempotent Samples.no_listing Samples.no_summary Samples.no_delete
                Samples.no_exists (Samples.create_args "/tmp") "/tmp" "/tmp" (VObj []) 0 1
                Samples.world0 eq_refl eq_refl eq_refl) as (Hdir & _ & _).
    apply Hdir. vm_compute. reflexivity.
  - destruct (create_idempotent Samples.no_listing Samples.no_summary Samples.no_delete
                Samples.no_exists (Samples.create_args "notes.txt") "notes.txt"
                "/home/u/notes.txt" (VObj []) 0 1
                Samples.world0 eq_refl eq_refl eq_refl) as (_ & Hfile & _).
    apply Hfile. vm_compute. reflexivity.
Defined.

End DirectoryOperationsToolSpec.

(** ** Process listing *)

Module ListProcessesToolSpec.
Import ListProcessesTool.

(** The loop keeps the records of the lines that parse, in order. *)
Lemma parse_loop_omap (parseLine : string -> option Process) (lines : list string)
  (acc : list Process) :
  parse_loop parseLine lines acc = (acc ++ omap parseLine lines)%list.
Proof.
  revert acc. induction lines as [|line lines IH]; intros acc; simpl.
  - now rewrite app_nil_r.
  - destruct (parseLine line) as [p|]; rewrite IH; [|reflexivity].
    now rewrite <- app_assoc.
Qed.

Lemma omap_skip (parseLine : string -> option Process) (before after : list string)
  (bad : string) :
  parseLine bad = None ->
  omap parseLine (before ++ bad :: after)%list = omap parseLine (before ++ after)%list.
Proof.
  intros Hbad. rewrite !omap_app. simpl. now rewrite Hbad.
Qed.

Lemma slice0_nonneg {A : Type} (l : list A) (n : Z) :
  0 <= n -> slice0 l n = firstn (Z.to_nat n) l.
Proof. intros H. unfold slice0. destruct (Z.ltb_spec n 0); [lia | reflexivity]. Qed.

Lemma slice0_length {A : Type} (l : list A) (n : Z) :
  0 <= n -> Z.of_nat (length (slice0 l n)) = Z.min n (Z.of_nat (length l)).
Proof. intros H. rewrite slice0_nonneg by exact H. rewrite length_firstn. lia. Qed.

(** [slice] returns a prefix whatever its bound. *)
Lemma slice0_prefix {A : Type} (l : list A) (n : Z) :
  exists rest, l = (slice0 l n ++ rest)%list.
Proof.
  unfold slice0. destruct (n <? 0); eexists; symmetry; apply firstn_skipn.
Qed.

Lemma filter_all (test : string -> bool) (l : list Process) :
  Forall (fun proc => test (name proc) = true) (List.filter (fun proc => test (name proc)) l).
Proof.
  apply Forall_forall. intros x Hx. apply list_elem_of_In, filter_In in Hx. tauto.
Qed.

Lemma Forall_prefix {A : Type} (P : A -> Prop) (l l1 l2 : list A) :
  l = (l1 ++ l2)%list -> Forall P l -> Forall P l1.
Proof. intros -> H. now apply Forall_app in H. Qed.

End ListProcessesToolSpec.


(** * Further properties of the modelled code *)

(** ** The argument check of the base class *)

Module ValidateArgsSpec.
Import BaseTool.

(** X1.  [validateArgs] passes exactly when every required field is truthy in
    the arguments; otherwise it raises [InvalidParams] naming the first
    required field that is absent or falsy (so [0], [false], the empty
    string and [null] count as missing). *)
Theorem validateArgs_first_missing (args : JsObj) (required : list string) :
  (Forall (fun field => truthy (from_option id VUndefined (obj_get field args)) = true)
     required ->
   validateArgs args required = Returned tt) /\
  (forall before field after,
     required = (before ++ field :: after)%list ->
     Forall (fun f => truthy (from_option id VUndefined (obj_get f args)) = true) before ->
     truthy (from_option id VUndefined (obj_get field args)) = false ->
     validateArgs args required =
       Raised (McpError InvalidParams ("Missing required parameter: " ++ field))).
Proof.
  split.
  - induction 1 as [|f rest Hf Hrest IH]; simpl; [reflexivity|]. now rewrite Hf.
  - intros before field after -> Hbefore Hfield.
    induction Hbefore as [|f rest Hf Hrest IH]; simpl.
    + now rewrite Hfield.
    + now rewrite Hf.
Qed.

Lemma validateArgs_first_missing_witness :
  validateArgs [("pid", VNum 0); ("force", VBool true)] ["force"; "pid"; "signal"] =
    Raised (McpError InvalidParams "Missing required parameter: pid").
Proof.
  destruct (validateArgs_first_missing [("pid", VNum 0); ("force", VBool true)]
              ["force"; "pid"; "signal"]) as [_ H].
  apply (H ["force"] "pid" ["signal"]); [reflexivity | | reflexivity].
  constructor; [reflexivity | constructor].
Defined.

End ValidateArgsSpec.

(** ** More of the registry *)

Module ToolRegistryMore.
Import Os ToolRegistry ToolRegistrySpec.

Lemma map_get_delete_eq (k : string) (m : Registry) :
  NoDup (map fst m) -> map_get k (map_delete k m) = None.
Proof.
  induction m as [|[k' v] m IH]; simpl; [reflexivity|].
  intros Hnd. apply NoDup_cons in Hnd. destruct Hnd as [Hnotin Hnd].
  destruct (String.eqb_spec k k') as [->|Hne].
  - apply map_get_None. intros Hin. apply Hnotin. now apply list_elem_of_In.
  - simpl. apply String.eqb_neq in Hne. rewrite Hne. now apply IH.
Qed.

Lemma map_get_delete_ne (k k' : string) (m : Registry) :
  k <> k' -> map_get k (map_delete k' m) = map_get k m.
Proof.
  intros Hne. induction m as [|[k'' v] m IH]; simpl; [reflexivity|].
  destruct (String.eqb_spec k' k'') as [<-|Hne'].
  - apply String.eqb_neq in Hne. now rewrite Hne.
  - simpl. now rewrite IH.
Qed.

Lemma keys_map_delete (k : string) (m : Registry) :
  NoDup (map fst m) ->
  map fst (map_delete k m) = List.filter (fun n => negb (String.eqb n k)) (map fst m).
Proof.
  induction m as [|[k' v] m IH]; simpl; [reflexivity|].
  intros Hnd. apply NoDup_cons in Hnd. destruct Hnd as [Hnotin Hnd].
  destruct (String.eqb_spec k k') as [->|Hne].
  - rewrite String.eqb_refl. simpl.
    symmetry. apply forallb_filter_id. apply forallb_forall. intros x Hx.
    apply negb_true_iff, String.eqb_neq. intros ->. apply Hnotin.
    now apply list_elem_of_In.
  - assert (H : String.eqb k' k = false) by (apply String.eqb_neq; congruence).
    rewrite H. simpl. now rewrite IH.
Qed.

Section Defaults.

Variable run_of : string -> BaseTool.Handler.
Variable schema_of : string -> JsVal.

(** X2.  Whatever calls were made before: [unregister] answers whether the name
    was registered, afterwards the name is unknown and every other name
    keeps its tool and its place; registering the tool again puts its name
    at the end of the listing. *)
Theorem unregister_forgets (cs : list Call) (toolName : string) :
  let r := calls run_of schema_of cs in
  fst (unregister toolName r) = has toolName r /\
  get toolName (snd (unregister toolName r)) = None /\
  (forall other, other <> toolName ->
     get other (snd (unregister toolName r)) = get other r) /\
  getToolNames (snd (unregister toolName r)) =
    List.filter (fun n => negb (String.eqb n toolName)) (getToolNames r) /\
  (forall tool, acceptable tool = true -> name tool = toolName ->
     getToolNames (snd (register tool (snd (unregister toolName r)))) =
       (List.filter (fun n => negb (String.eqb n toolName)) (getToolNames r)
          ++ [toolName])%list).
Proof.
  intros r. destruct (well_keyed_calls run_of schema_of cs) as [Hnd Hall].
  fold r in Hnd, Hall. unfold unregister, get, has, getToolNames. cbn [fst snd].
  split; [reflexivity|]. split; [now apply map_get_delete_eq|].
  split; [intros other Hne; now apply map_get_delete_ne|].
  split; [now apply keys_map_delete|].
  intros tool Hacc Hname. rewrite (register_accepts _ _ Hacc). cbn [snd].
  rewrite keys_map_set, Hname.
  assert (Hout : existsb (String.eqb toolName) (map fst (map_delete toolName r)) = false).
  { apply not_true_is_false. intros Hin. apply existsb_eqb_In in Hin.
    apply (proj1 (map_get_None toolName (map_delete toolName r)));
      [now apply map_get_delete_eq | exact Hin]. }
  rewrite Hout. now rewrite keys_map_delete.
Qed.

End Defaults.

Lemma unregister_forgets_witness :
  getToolNames
    (snd (register (builtin (fun _ => Samples.idle) (fun _ => VObj []) "file_read" "again")
            (snd (unregister "file_read"
                    (calls (fun _ => Samples.idle) (fun _ => VObj []) []))))) =
  ["execute_command"; "execute_script"; "get_system_info"; "list_processes";
   "kill_process"; "file_write"; "file_operations"; "directory_operations"; "file_read"].
Proof.
  destruct (unregister_forgets (fun _ => Samples.idle) (fun _ => VObj []) [] "file_read")
    as (_ & _ & _ & _ & Hagain).
  rewrite (Hagain (builtin (fun _ => Samples.idle) (fun _ => VObj []) "file_read" "again")
             eq_refl eq_refl).
  reflexivity.
Defined.

(** X3.  Dispatch by name: an unknown name raises [MethodNotFound] and touches
    nothing; a name registered for a tool built on the base class runs
    that tool's wrapper, and after a second registration under the name
    the later tool. *)
Theorem execute_dispatches (r : Registry) (args : JsObj) (startTime endTime : Z) (w : World) :
  (forall toolName, get toolName r = None ->
     execute_ toolName args startTime endTime r w =
       (Raised (McpError MethodNotFound ("Unknown tool: " ++ toolName)), w)) /\
  (forall t : BaseTool.BaseTool, BaseTool.name t <> "" ->
     execute_ (BaseTool.name t) args startTime endTime
       (snd (register (of_BaseTool t) r)) w =
     BaseTool.execute t args startTime endTime w) /\
  (forall t1 t2 : BaseTool.BaseTool,
     BaseTool.name t1 <> "" -> BaseTool.name t2 = BaseTool.name t1 ->
     execute_ (BaseTool.name t1) args startTime endTime
       (snd (register (of_BaseTool t2) (snd (register (of_BaseTool t1) r)))) w =
     BaseTool.execute t2 args startTime endTime w).
Proof.
  assert (Hacc : forall t : BaseTool.BaseTool, BaseTool.name t <> "" ->
            acceptable (of_BaseTool t) = true).
  { intros t Hn. unfold acceptable, of_BaseTool. cbn. apply String.eqb_neq in Hn.
    now rewrite Hn. }
  split; [|split].
  - intros toolName Hget. unfold execute_. now rewrite Hget.
  - intros t Hn. rewrite (register_accepts _ _ (Hacc t Hn)). cbn [snd].
    unfold execute_, get. change (name (of_BaseTool t)) with (BaseTool.name t).
    now rewrite map_get_set_eq.
  - intros t1 t2 Hn Heq.
    rewrite (register_accepts _ _ (Hacc t1 Hn)). cbn [snd].
    assert (Hn2 : BaseTool.name t2 <> "") by congruence.
    rewrite (register_accepts _ _ (Hacc t2 Hn2)). cbn [snd].
    unfold execute_, get. change (name (of_BaseTool t2)) with (BaseTool.name t2).
    rewrite <- Heq. now rewrite map_get_set_eq.
Qed.

Lemma execute_dispatches_witness :
  execute_ "nope" [] 0 1 [] Samples.world0 =
    (Raised (McpError MethodNotFound "Unknown tool: nope"), Samples.world0) /\
  execute_ "echo" [] 0 1 (snd (register (of_BaseTool Samples.echo_tool) [])) Samples.world0 =
    BaseTool.execute Samples.echo_tool [] 0 1 Samples.world0.
Proof.
  destruct (execute_dispatches [] [] 0 1 Samples.world0) as (Hunknown & Hknown & _).
  split.
  - apply Hunknown. reflexivity.
  - apply (Hknown Samples.echo_tool). discriminate.
Defined.

End ToolRegistryMore.


(** ** More of the execution option builder *)

Module CommandUtilsMore.
Import CommandUtils JsFacts.

(** X5.  The environment of the child is the inherited one with the caller's
    variables laid over it: a variable the caller gives takes the caller's
    value, any other keeps the inherited value.  The buffer cap is always
    10 MiB, and a working directory is passed on exactly when it is a
    non-empty string. *)
Theorem getExecOptions_environment (process_env : JsObj) (options : RawOptions) :
  (forall overlay variable,
     raw_environment options = Some overlay ->
     obj_get variable (env (getExecOptions process_env options)) =
       match obj_get variable (rev overlay) with
       | Some value => Some value
       | None => obj_get variable process_env
       end) /\
  (raw_environment options = None ->
     env (getExecOptions process_env options) = process_env) /\
  maxBuffer (getExecOptions process_env options) = 10485760 /\
  cwd (getExecOptions process_env options) =
    match raw_working_directory options with
    | Some d => if String.eqb d "" then None else Some d
    | None => None
    end.
Proof.
  unfold getExecOptions. cbn [env maxBuffer cwd]. split; [|split; [|split]].
  - intros overlay variable ->. apply obj_get_spread.
  - now intros ->.
  - reflexivity.
  - reflexivity.
Qed.

Lemma getExecOptions_environment_witness :
  obj_get "PATH"
    (env (getExecOptions [("PATH", VStr "/usr/bin"); ("HOME", VStr "/home/u")]
            (mkRaw None None (Some [("PATH", VStr "/opt/bin")])))) = Some (VStr "/opt/bin") /\
  obj_get "HOME"
    (env (getExecOptions [("PATH", VStr "/usr/bin"); ("HOME", VStr "/home/u")]
            (mkRaw None None (Some [("PATH", VStr "/opt/bin")])))) = Some (VStr "/home/u").
Proof.
  destruct (getExecOptions_environment [("PATH", VStr "/usr/bin"); ("HOME", VStr "/home/u")]
              (mkRaw None None (Some [("PATH", VStr "/opt/bin")]))) as (Hover & _).
  split; rewrite (Hover [("PATH", VStr "/opt/bin")]); reflexivity.
Defined.

End CommandUtilsMore.


(** ** Strings and paths, continued *)

Module StrMoreFacts.
Import StrMore.

Lemma app_cons (x : ascii) (a b : string) : String x a ++ b = String x (a ++ b).
Proof. reflexivity. Qed.

Lemma app_nil_l (b : string) : "" ++ b = b.
Proof. reflexivity. Qed.

Lemma append_assoc (a b c : string) : (a ++ b) ++ c = a ++ b ++ c.
Proof.
  induction a as [|x a IH]; [reflexivity|]. rewrite !app_cons. now rewrite IH.
Qed.

Lemma append_nil_r (a : string) : a ++ "" = a.
Proof.
  induction a as [|x a IH]; [reflexivity|]. rewrite app_cons. now rewrite IH.
Qed.

Lemma split_nonempty (c : ascii) (s : string) : Str.split c s <> [].
Proof.
  induction s as [|a s IH]; simpl; [discriminate|].
  destruct (Ascii.eqb a c); [discriminate|].
  destruct (Str.split c s); [contradiction | discriminate].
Qed.

(** The pieces of a split never contain the separator. *)
Lemma split_pieces (c : ascii) (s : string) :
  Forall (fun w => contains_char c w = false) (Str.split c s).
Proof.
  induction s as [|a s IH]; simpl.
  - now repeat constructor.
  - destruct (Ascii.eqb a c) eqn:E.
    + now constructor.
    + destruct (Str.split c s) as [|w ws].
      * constructor; [simpl; now rewrite E | constructor].
      * inversion IH; subst. constructor; [|assumption]. simpl. now rewrite E.
Qed.

Lemma split_whole (c : ascii) (x : string) :
  contains_char c x = false -> Str.split c x = [x].
Proof.
  induction x as [|a x IH]; simpl; [reflexivity|].
  intros H. apply orb_false_iff in H. destruct H as [E Hx].
  rewrite E, (IH Hx). reflexivity.
Qed.

Lemma split_app (c : ascii) (x rest : string) :
  contains_char c x = false ->
  Str.split c (x ++ String c rest) = x :: Str.split c rest.
Proof.
  induction x as [|a x IH].
  - intros _. rewrite app_nil_l. simpl. now rewrite Ascii.eqb_refl.
  - intros H. simpl in H. apply orb_false_iff in H. destruct H as [E Hx].
    rewrite app_cons. simpl. rewrite E, (IH Hx). reflexivity.
Qed.

(** Joining with a separator and splitting at it again gives the pieces
    back, when no piece contains the separator. *)
Lemma split_join (c : ascii) (pieces : list string) :
  pieces <> [] ->
  Forall (fun w => contains_char c w = false) pieces ->
  Str.split c (Str.join (String c EmptyString) pieces) = pieces.
Proof.
  induction pieces as [|x rest IH]; [contradiction|].
  intros _ Hall. inversion Hall as [|? ? Hx Hrest]; subst.
  destruct rest as [|y rest].
  - simpl. now apply split_whole.
  - change (Str.join (String c "") (x :: y :: rest))
      with (x ++ String c (Str.join (String c "") (y :: rest))).
    rewrite (split_app _ _ _ Hx). f_equal. apply IH; [discriminate | assumption].
Qed.

Lemma join_snoc (sep : string) (pieces : list string) (x : string) :
  pieces <> [] ->
  Str.join sep (pieces ++ [x]) = Str.join sep pieces ++ sep ++ x.
Proof.
  induction pieces as [|y rest IH]; [contradiction|]. intros _.
  destruct rest as [|z rest].
  - reflexivity.
  - change (Str.join sep ((y :: z :: rest) ++ [x]))
      with (y ++ sep ++ Str.join sep ((z :: rest) ++ [x])).
    rewrite IH by discriminate.
    change (Str.join sep (y :: z :: rest)) with (y ++ sep ++ Str.join sep (z :: rest)).
    now rewrite !append_assoc.
Qed.

End StrMoreFacts.

Module PathFacts.
Import StrMore StrMoreFacts.

Lemma clean_parts (seg : string) :
  clean seg = true ->
  seg <> "" /\ seg <> "." /\ seg <> ".." /\ contains_char "/" seg = false.
Proof.
  unfold clean. rewrite !andb_true_iff, !negb_true_iff, !String.eqb_neq. tauto.
Qed.

Lemma norm_step_clean (allow : bool) (stack : list string) (seg : string) :
  clean seg = true -> Path.norm_step allow stack seg = seg :: stack.
Proof.
  intros H. destruct (clean_parts _ H) as (H1 & H2 & H3 & _).
  unfold Path.norm_step. apply String.eqb_neq in H1, H2, H3. now rewrite H1, H2, H3.
Qed.

Lemma norm_step_empty (allow : bool) (stack : list string) :
  Path.norm_step allow stack "" = stack.
Proof. reflexivity. Qed.

Lemma fold_norm_clean (allow : bool) (segs stack : list string) :
  Forall (fun s => clean s = true) segs ->
  fold_left (Path.norm_step allow) segs stack = (rev segs ++ stack)%list.
Proof.
  intros H. revert stack. induction H as [|seg segs Hseg Hsegs IH]; intros stack; simpl.
  - reflexivity.
  - rewrite (norm_step_clean _ _ _ Hseg), IH. now rewrite <- app_assoc.
Qed.

(** Without [allowAboveRoot], [normalizeString] keeps clean segments
    only. *)
Lemma norm_step_keeps_clean (stack : list string) (seg : string) :
  contains_char "/" seg = false ->
  Forall (fun s => clean s = true) stack ->
  Forall (fun s => clean s = true) (Path.norm_step false stack seg).
Proof.
  intros Hseg Hstack. unfold Path.norm_step.
  destruct (String.eqb_spec seg "") as [->|H1]; [exact Hstack|].
  destruct (String.eqb_spec seg ".") as [->|H2]; [exact Hstack|].
  destruct (String.eqb_spec seg "..") as [->|H3]; simpl.
  - destruct stack as [|top below]; [constructor|].
    destruct (String.eqb top ".."); [exact Hstack | now inversion Hstack].
  - constructor; [|exact Hstack]. unfold clean.
    apply String.eqb_neq in H1, H2, H3. now rewrite H1, H2, H3, Hseg.
Qed.

Lemma fold_norm_keeps_clean (segs stack : list string) :
  Forall (fun s => contains_char "/" s = false) segs ->
  Forall (fun s => clean s = true) stack ->
  Forall (fun s => clean s = true) (fold_left (Path.norm_step false) segs stack).
Proof.
  intros H. revert stack. induction H as [|seg segs Hseg Hsegs IH]; intros stack Hs; simpl.
  - exact Hs.
  - apply IH. now apply norm_step_keeps_clean.
Qed.

(** [resolve] from an absolute working directory returns the root followed
    by clean segments. *)
Lemma resolve_shape (cwd p : string) :
  Path.isAbsolute cwd = true ->
  exists segs,
    Path.resolve cwd p = Path.of_segments segs /\ Forall (fun s => clean s = true) segs.
Proof.
  intros Habs. unfold Path.resolve, Path.of_segments.
  assert (Hcwd : String.eqb cwd "" = false) by (destruct cwd; [discriminate | reflexivity]).
  destruct (negb (String.eqb p "") && Path.isAbsolute p)%bool.
  - eexists. split; [reflexivity|]. apply Forall_rev.
    apply fold_norm_keeps_clean; [apply split_pieces | constructor].
  - rewrite Hcwd, Habs. eexists. split; [reflexivity|]. apply Forall_rev.
    apply fold_norm_keeps_clean; [apply split_pieces | constructor].
Qed.

Lemma clean_no_slash (segs : list string) :
  Forall (fun s => clean s = true) segs ->
  Forall (fun w => contains_char "/" w = false) segs.
Proof.
  intros H. eapply Forall_impl; [exact H|].
  intros s Hs. now destruct (clean_parts _ Hs) as (_ & _ & _ & ?).
Qed.

(** The segments of a path of clean segments, with a separator after it. *)
Lemma split_of_segments_slash (segs : list string) :
  segs <> [] ->
  Forall (fun s => clean s = true) segs ->
  Str.split "/" (Path.of_segments segs ++ "/") = ("" :: segs ++ [""])%list.
Proof.
  intros Hne H. unfold Path.of_segments.
  destruct segs as [|x rest]; [contradiction|].
  assert (Heq : ("/" ++ Str.join "/" (x :: rest)) ++ "/" =
                Str.join "/" ("" :: (x :: rest) ++ [""])%list).
  { change (Str.join "/" ("" :: (x :: rest) ++ [""])%list)
      with ("" ++ "/" ++ Str.join "/" ((x :: rest) ++ [""])%list).
    rewrite join_snoc by discriminate. rewrite app_nil_l. now rewrite ?append_assoc. }
  rewrite Heq. apply split_join; [discriminate|].
  constructor; [reflexivity|]. apply Forall_app. split; [now apply clean_no_slash|].
  now repeat constructor.
Qed.

Lemma split_of_segments (segs : list string) :
  segs <> [] ->
  Forall (fun s => clean s = true) segs ->
  Str.split "/" (Path.of_segments segs) = ("" :: segs)%list.
Proof.
  intros Hne H. unfold Path.of_segments.
  destruct segs as [|x rest]; [contradiction|].
  change ("/" ++ Str.join "/" (x :: rest)) with (Str.join "/" ("" :: x :: rest)).
  apply split_join; [discriminate|]. constructor; [reflexivity | now apply clean_no_slash].
Qed.

End PathFacts.


Module PathIdempotence.
Import Os FileUtils StrMore StrMoreFacts PathFacts.

Lemma endsWithSlash_no_slash (s : string) :
  contains_char "/" s = false -> Path.endsWithSlash s = false.
Proof.
  induction s as [|a s IH]; simpl; [reflexivity|].
  intros H. apply orb_false_iff in H. destruct H as [E Hs].
  destruct s; [exact E | now apply IH].
Qed.

Lemma endsWithSlash_app (a b : string) :
  b <> "" -> Path.endsWithSlash (a ++ b) = Path.endsWithSlash b.
Proof.
  intros Hb. induction a as [|x a IH]; [reflexivity|].
  rewrite app_cons. simpl. destruct (a ++ b) eqn:E; [|exact IH].
  destruct a; [|discriminate]. rewrite app_nil_l in E. contradiction.
Qed.

Lemma join_clean_nonempty (segs : list string) :
  segs <> [] -> Forall (fun s => clean s = true) segs -> Str.join "/" segs <> "".
Proof.
  destruct segs as [|x rest]; [contradiction|]. intros _ H.
  inversion H as [|? ? Hx _]; subst. destruct (clean_parts _ Hx) as (Hne & _).
  destruct rest; simpl; [exact Hne|]. destruct x; [contradiction | discriminate].
Qed.

Lemma endsWithSlash_join (segs : list string) :
  Forall (fun s => clean s = true) segs -> Path.endsWithSlash (Str.join "/" segs) = false.
Proof.
  induction 1 as [|x rest Hx Hrest IH]; [reflexivity|].
  destruct rest as [|y rest].
  - simpl. apply endsWithSlash_no_slash. now destruct (clean_parts _ Hx) as (_ & _ & _ & ?).
  - change (Str.join "/" (x :: y :: rest)) with (x ++ "/" ++ Str.join "/" (y :: rest)).
    rewrite endsWithSlash_app.
    + rewrite endsWithSlash_app; [exact IH|]. now apply join_clean_nonempty.
    + discriminate.
Qed.

Lemma normalizeString_of_segments (segs : list string) :
  segs <> [] ->
  Forall (fun s => clean s = true) segs ->
  Path.normalizeString (Path.of_segments segs) false = Str.join "/" segs /\
  Path.normalizeString (Path.of_segments segs ++ "/") false = Str.join "/" segs.
Proof.
  intros Hne H. unfold Path.normalizeString. split.
  - rewrite (split_of_segments _ Hne H). cbn [fold_left]. rewrite norm_step_empty.
    rewrite fold_norm_clean by exact H. now rewrite app_nil_r, rev_involutive.
  - rewrite (split_of_segments_slash _ Hne H). cbn [fold_left]. rewrite norm_step_empty.
    rewrite fold_left_app. rewrite (fold_norm_clean false segs [] H). cbn [fold_left].
    rewrite norm_step_empty. now rewrite app_nil_r, rev_involutive.
Qed.

Lemma of_segments_nonempty (segs : list string) : String.eqb (Path.of_segments segs) "" = false.
Proof. reflexivity. Qed.

Lemma resolve_of_segments (cwd : string) (segs : list string) :
  Forall (fun s => clean s = true) segs ->
  Path.resolve cwd (Path.of_segments segs) = Path.of_segments segs.
Proof.
  intros H. destruct segs as [|x rest]; [reflexivity|].
  unfold Path.resolve. rewrite of_segments_nonempty.
  change (Path.isAbsolute (Path.of_segments (x :: rest))) with true. cbn [negb andb].
  destruct (normalizeString_of_segments (x :: rest)) as [_ Hn]; [discriminate | exact H |].
  cbn [negb]. now rewrite Hn.
Qed.

Lemma normalize_of_segments (segs : list string) :
  Forall (fun s => clean s = true) segs ->
  Path.normalize (Path.of_segments segs) = Path.of_segments segs.
Proof.
  intros H. destruct segs as [|x rest]; [reflexivity|].
  unfold Path.normalize. rewrite of_segments_nonempty.
  change (Path.isAbsolute (Path.of_segments (x :: rest))) with true. cbn [negb].
  destruct (normalizeString_of_segments (x :: rest)) as [Hn _]; [discriminate | exact H |].
  rewrite Hn.
  assert (Hjoin : String.eqb (Str.join "/" (x :: rest)) "" = false).
  { apply String.eqb_neq. now apply join_clean_nonempty. }
  rewrite Hjoin.
  assert (Htrail : Path.endsWithSlash (Path.of_segments (x :: rest)) = false).
  { unfold Path.of_segments. rewrite endsWithSlash_app.
    - now apply endsWithSlash_join.
    - now apply join_clean_nonempty. }
  now rewrite Htrail.
Qed.

(** A validated path is an absolute path of clean segments. *)
Lemma validated_shape (m : Machine) (filePath normalizedPath : string) :
  Path.isAbsolute (cwd m) = true ->
  validateAndNormalizePath m filePath = Returned normalizedPath ->
  exists segs, normalizedPath = Path.of_segments segs /\
               Forall (fun s => clean s = true) segs.
Proof.
  intros Habs Hv. destruct (resolve_shape (cwd m) filePath Habs) as (segs & Hres & Hclean).
  unfold validateAndNormalizePath in Hv.
  destruct (String.eqb filePath ""); [discriminate|].
  rewrite Hres, (normalize_of_segments _ Hclean) in Hv.
  destruct (Str.includes (Path.of_segments segs) ".."
            && negb (Str.startsWith (Path.of_segments segs) (homedir m)))%bool;
    [discriminate|].
  injection Hv as <-. now exists segs.
Qed.

(** X11.  A path that passed the validation validates to itself, and the call
    of [normalize] after [resolve] changes nothing: the validated path is
    the resolved path, an absolute path of clean segments. *)
Theorem validateAndNormalizePath_idempotent (m : Machine) (filePath normalizedPath : string) :
  Path.isAbsolute (cwd m) = true ->
  validateAndNormalizePath m filePath = Returned normalizedPath ->
  normalizedPath = Path.resolve (cwd m) filePath /\
  (exists segs, normalizedPath = Path.of_segments segs /\
                Forall (fun s => clean s = true) segs) /\
  validateAndNormalizePath m normalizedPath = Returned normalizedPath.
Proof.
  intros Habs Hv. destruct (resolve_shape (cwd m) filePath Habs) as (segs & Hres & Hclean).
  unfold validateAndNormalizePath in Hv.
  destruct (String.eqb filePath ""); [discriminate|].
  rewrite Hres, (normalize_of_segments _ Hclean) in Hv.
  destruct (Str.includes (Path.of_segments segs) ".."
            && negb (Str.startsWith (Path.of_segments segs) (homedir m)))%bool eqn:Hguard;
    [discriminate|].
  injection Hv as <-.
  split; [now rewrite Hres|]. split; [now exists segs|].
  unfold validateAndNormalizePath. rewrite of_segments_nonempty.
  rewrite (resolve_of_segments _ _ Hclean), (normalize_of_segments _ Hclean).
  now rewrite Hguard.
Qed.

Lemma validateAndNormalizePath_idempotent_witness :
  validateAndNormalizePath Samples.machine0 "/home/u/docs/../notes.txt" =
    Returned "/home/u/notes.txt" /\
  validateAndNormalizePath Samples.machine0 "/home/u/notes.txt" =
    Returned "/home/u/notes.txt".
Proof.
  assert (Hv : validateAndNormalizePath Samples.machine0 "/home/u/docs/../notes.txt" =
               Returned "/home/u/notes.txt") by reflexivity.
  split; [exact Hv|].
  now destruct (validateAndNormalizePath_idempotent Samples.machine0 _ _ eq_refl Hv)
    as (_ & _ & Hagain).
Defined.

End PathIdempotence.


(** ** More of the process listing *)

Module ParseFacts.
Import StrMore StrMoreFacts ListProcessesTool.

Lemma token_parts (s : string) : token s = true -> s <> "" /\ spaceless s = true.
Proof.
  unfold token. rewrite andb_true_iff, negb_true_iff, String.eqb_neq. tauto.
Qed.

Lemma split_ws_from_nonempty (b : bool) (s : string) : Str.split_ws_from b s <> [].
Proof.
  revert b. induction s as [|a s IH]; intros b; simpl; [discriminate|].
  destruct (Str.is_space a).
  - destruct b; [apply IH | discriminate].
  - destruct (Str.split_ws_from false s); discriminate.
Qed.

Lemma split_ws_token (x r : string) (b : bool) :
  x <> "" -> spaceless x = true ->
  Str.split_ws_from b (x ++ r) = prepend x (Str.split_ws_from false r).
Proof.
  revert b. induction x as [|a x IH]; intros b; [contradiction|]. intros _ Hx.
  simpl in Hx. apply andb_true_iff in Hx. destruct Hx as [Ha Hx].
  apply negb_true_iff in Ha. rewrite app_cons. simpl. rewrite Ha.
  destruct x as [|a' x].
  - rewrite app_nil_l.
    destruct (Str.split_ws_from false r) eqn:E; [|reflexivity].
    now apply split_ws_from_nonempty in E.
  - rewrite (IH false); [|discriminate|exact Hx].
    destruct (Str.split_ws_from false r); reflexivity.
Qed.

(** Columns separated by single spaces split back into the columns. *)
Lemma split_ws_join (columns : list string) (b : bool) :
  columns <> [] ->
  Forall (fun c => token c = true) columns ->
  Str.split_ws_from b (Str.join " " columns) = columns.
Proof.
  intros Hne H. revert b. induction H as [|x rest Hx Hrest IH]; [contradiction|].
  intros b. destruct (token_parts _ Hx) as [Hx1 Hx2].
  destruct rest as [|y rest].
  - simpl. rewrite <- (append_nil_r x) at 1.
    rewrite (split_ws_token _ _ _ Hx1 Hx2). simpl. now rewrite append_nil_r.
  - change (Str.join " " (x :: y :: rest)) with (x ++ String " " (Str.join " " (y :: rest))).
    rewrite (split_ws_token _ _ _ Hx1 Hx2).
    change (Str.split_ws_from false (String " " (Str.join " " (y :: rest))))
      with ("" :: Str.split_ws_from true (Str.join " " (y :: rest))).
    simpl prepend. rewrite append_nil_r. f_equal. apply IH. discriminate.
Qed.

Lemma trimEnd_spaceless (x : string) : spaceless x = true -> Str.trimEnd x = x.
Proof.
  induction x as [|a x IH]; [reflexivity|]. intros H.
  simpl in H. apply andb_true_iff in H. destruct H as [Ha Hx].
  apply negb_true_iff in Ha. simpl. rewrite (IH Hx), Ha. now destruct x.
Qed.

Lemma trimEnd_app_token (a x : string) :
  x <> "" -> spaceless x = true -> Str.trimEnd (a ++ x) = a ++ x.
Proof.
  intros Hne Hx. induction a as [|c a IH].
  - rewrite app_nil_l. now apply trimEnd_spaceless.
  - rewrite app_cons. simpl. rewrite IH.
    destruct (a ++ x) eqn:E; [|reflexivity].
    destruct a; [rewrite app_nil_l in E; contradiction | discriminate].
Qed.

Lemma trim_join (columns : list string) :
  columns <> [] ->
  Forall (fun c => token c = true) columns ->
  Str.trim (Str.join " " columns) = Str.join " " columns.
Proof.
  intros Hne H. unfold Str.trim.
  assert (Hstart : Str.trimStart (Str.join " " columns) = Str.join " " columns).
  { destruct columns as [|x rest]; [contradiction|].
    inversion H as [|? ? Hx _]; subst. destruct (token_parts _ Hx) as [Hx1 Hx2].
    destruct x as [|a x]; [contradiction|].
    simpl in Hx2. apply andb_true_iff in Hx2. destruct Hx2 as [Ha _].
    apply negb_true_iff in Ha.
    destruct rest; simpl; now rewrite Ha. }
  rewrite Hstart.
  destruct (exists_last Hne) as (init & lastc & ->).
  apply Forall_app in H. destruct H as [_ Hlast].
  inversion Hlast as [|? ? Hl _]; subst. destruct (token_parts _ Hl) as [Hl1 Hl2].
  destruct init as [|i0 init].
  - simpl. now apply trimEnd_spaceless.
  - rewrite join_snoc by discriminate.
    rewrite <- append_assoc. now apply trimEnd_app_token.
Qed.

Lemma remove_char_app (c : ascii) (a b : string) :
  Str.remove_char c (a ++ b) = Str.remove_char c a ++ Str.remove_char c b.
Proof.
  induction a as [|x a IH]; [reflexivity|].
  rewrite app_cons. simpl. destruct (Ascii.eqb x c); [exact IH|].
  rewrite app_cons. now rewrite IH.
Qed.

Lemma remove_char_absent (c : ascii) (a : string) :
  contains_char c a = false -> Str.remove_char c a = a.
Proof.
  induction a as [|x a IH]; [reflexivity|]. simpl. intros H.
  apply orb_false_iff in H. destruct H as [E Ha]. now rewrite E, (IH Ha).
Qed.

Lemma unquote (field : string) :
  contains_char "034"%char field = false ->
  Str.remove_char "034"%char (Constants.quoted field) = field.
Proof.
  intros H. unfold Constants.quoted, Constants.dquote.
  rewrite !remove_char_app, (remove_char_absent _ _ H). simpl.
  now rewrite app_nil_l, append_nil_r.
Qed.

Lemma omap_length {A B : Type} (f : A -> option B) (l : list A) :
  (length (omap f l) <= length l)%nat.
Proof.
  induction l as [|x l IH]; [reflexivity|].
  change (omap f (x :: l)) with (match f x with Some y => y :: omap f l | None => omap f l end).
  destruct (f x); simpl; lia.
Qed.

(** One record per line at most, and none for the header. *)
Lemma parse_count (stdout : string) (isWindows : bool) :
  (length (parseProcessList stdout isWindows)
   <= pred (length (Str.split "010"%char (Str.trim stdout))))%nat.
Proof.
  unfold parseProcessList. rewrite ListProcessesToolSpec.parse_loop_omap. simpl.
  etransitivity; [apply omap_length|]. rewrite length_skipn. lia.
Qed.

Lemma blanks_trimStart (lead : string) : blanks lead = true -> Str.trimStart lead = "".
Proof.
  induction lead as [|a lead IH]; [reflexivity|]. simpl. intros H.
  apply andb_true_iff in H. destruct H as [Ha Hl]. rewrite Ha. now apply IH.
Qed.

Lemma trimStart_blanks (lead r : string) :
  blanks lead = true -> Str.trimStart (lead ++ r) = Str.trimStart r.
Proof.
  induction lead as [|a lead IH]; intros H; [now rewrite app_nil_l|].
  simpl in H. apply andb_true_iff in H. destruct H as [Ha Hl].
  rewrite app_cons. simpl. rewrite Ha. now apply IH.
Qed.

Lemma trimEnd_blanks (trail : string) : blanks trail = true -> Str.trimEnd trail = "".
Proof.
  induction trail as [|a trail IH]; [reflexivity|]. simpl. intros H.
  apply andb_true_iff in H. destruct H as [Ha Ht]. now rewrite (IH Ht), Ha.
Qed.

Lemma trimEnd_app_blanks (a trail : string) :
  blanks trail = true -> Str.trimEnd (a ++ trail) = Str.trimEnd a.
Proof.
  intros H. induction a as [|c a IH].
  - rewrite app_nil_l. now apply trimEnd_blanks.
  - rewrite app_cons. simpl. now rewrite IH.
Qed.

Lemma trimEnd_app_fixed (a r : string) :
  r <> "" -> Str.trimEnd r = r -> Str.trimEnd (a ++ r) = a ++ r.
Proof.
  intros Hne Hr. induction a as [|c a IH].
  - now rewrite app_nil_l.
  - rewrite app_cons. simpl. rewrite IH.
    destruct (a ++ r) eqn:E; [|reflexivity].
    destruct a; [rewrite app_nil_l in E; contradiction | discriminate].
Qed.

Lemma spaced_head (a : ascii) (first : string) (rest : list (string * string)) :
  spaced (String a first) rest = String a (spaced first rest).
Proof. destruct rest as [|[between column] rest]; reflexivity. Qed.

Lemma spaced_nonempty (first : string) (rest : list (string * string)) :
  first <> "" -> spaced first rest <> "".
Proof.
  destruct first as [|a first]; [contradiction|]. intros _. now rewrite spaced_head.
Qed.

Lemma gap_parts (s : string) : gap s = true -> s <> "" /\ blanks s = true.
Proof.
  unfold gap. rewrite andb_true_iff, negb_true_iff, String.eqb_neq. tauto.
Qed.

(** The conditions on the further columns, one by one. *)
Lemma rest_parts (rest : list (string * string)) (between column : string) :
  Forall (fun bc => gap (fst bc) = true /\ token (snd bc) = true)
    ((between, column) :: rest) ->
  gap between = true /\ token column = true /\
  Forall (fun bc => gap (fst bc) = true /\ token (snd bc) = true) rest.
Proof. intros H. inversion H as [|? ? [Hg Ht] Hrest]; subst. now repeat split. Qed.

Lemma trimEnd_spaced (first : string) (rest : list (string * string)) :
  token first = true ->
  Forall (fun bc => gap (fst bc) = true /\ token (snd bc) = true) rest ->
  Str.trimEnd (spaced first rest) = spaced first rest.
Proof.
  revert first. induction rest as [|[between column] rest IH]; intros first Hf Hrest.
  - simpl. apply trimEnd_spaceless. now destruct (token_parts _ Hf).
  - destruct (rest_parts _ _ _ Hrest) as (_ & Hc & Hrest').
    change (spaced first ((between, column) :: rest))
      with (first ++ between ++ spaced column rest).
    rewrite <- append_assoc. apply trimEnd_app_fixed.
    + apply spaced_nonempty. now destruct (token_parts _ Hc).
    + now apply IH.
Qed.

Lemma split_ws_blanks (between r : string) :
  blanks between = true ->
  Str.split_ws_from true (between ++ r) = Str.split_ws_from true r.
Proof.
  induction between as [|a between IH]; intros H; [now rewrite app_nil_l|].
  simpl in H. apply andb_true_iff in H. destruct H as [Ha Hb].
  rewrite app_cons. simpl. rewrite Ha. now apply IH.
Qed.

Lemma split_ws_gap (between r : string) :
  gap between = true ->
  Str.split_ws_from false (between ++ r) = "" :: Str.split_ws_from true r.
Proof.
  intros H. destruct (gap_parts _ H) as [Hne Hb].
  destruct between as [|a between]; [contradiction|].
  simpl in Hb. apply andb_true_iff in Hb. destruct Hb as [Ha Hb].
  rewrite app_cons. simpl. rewrite Ha. f_equal. now apply split_ws_blanks.
Qed.

(** Splitting at runs of white space gives the columns back. *)
Lemma split_ws_spaced (first : string) (rest : list (string * string)) (b : bool) :
  token first = true ->
  Forall (fun bc => gap (fst bc) = true /\ token (snd bc) = true) rest ->
  Str.split_ws_from b (spaced first rest) = first :: map snd rest.
Proof.
  revert first b. induction rest as [|[between column] rest IH]; intros first b Hf Hrest.
  - destruct (token_parts _ Hf) as [Hf1 Hf2]. simpl.
    rewrite <- (append_nil_r first) at 1.
    rewrite (split_ws_token _ _ _ Hf1 Hf2). simpl. now rewrite append_nil_r.
  - destruct (rest_parts _ _ _ Hrest) as (Hg & Hc & Hrest').
    destruct (token_parts _ Hf) as [Hf1 Hf2].
    change (spaced first ((between, column) :: rest))
      with (first ++ between ++ spaced column rest).
    rewrite (split_ws_token _ _ _ Hf1 Hf2), (split_ws_gap _ _ Hg), (IH _ _ Hc Hrest').
    simpl. now rewrite append_nil_r.
Qed.

(** The line of [ps] that has the given columns, with any white space
    around them and any run of white space between them, is read as those
    columns. *)
Lemma parseUnixLine_spaced (lead first : string) (rest : list (string * string))
    (trail : string) :
  blanks lead = true ->
  token first = true ->
  Forall (fun bc => gap (fst bc) = true /\ token (snd bc) = true) rest ->
  blanks trail = true ->
  parseUnixLine (lead ++ spaced first rest ++ trail) =
    let columns := first :: map snd rest in
    if Nat.leb 11 (length columns) then
      Some (mkProcess (Some (nth 0 columns ""))
              (parsePid (nth 1 columns ""))
              (Some (nth 2 columns ""))
              (nth 3 columns "")
              (Str.join " " (skipn 10 columns)))
    else None.
Proof.
  intros Hlead Hf Hrest Htrail.
  assert (Htrim : Str.trim (lead ++ spaced first rest ++ trail) = spaced first rest).
  { unfold Str.trim. rewrite (trimStart_blanks _ _ Hlead).
    destruct (token_parts _ Hf) as [Hf1 Hf2].
    destruct first as [|a first]; [contradiction|].
    simpl in Hf2. apply andb_true_iff in Hf2. destruct Hf2 as [Ha _].
    apply negb_true_iff in Ha.
    rewrite spaced_head, app_cons. simpl Str.trimStart. rewrite Ha.
    rewrite <- app_cons, <- spaced_head.
    rewrite (trimEnd_app_blanks _ _ Htrail). now apply trimEnd_spaced. }
  unfold parseUnixLine. rewrite Htrim. unfold Str.split_ws.
  now rewrite (split_ws_spaced _ _ _ Hf Hrest).
Qed.

(** A line of white space has no columns. *)
Lemma parseUnixLine_blank (line : string) : blanks line = true -> parseUnixLine line = None.
Proof.
  intros H. unfold parseUnixLine, Str.trim. now rewrite (blanks_trimStart _ H).
Qed.

(** The line of [tasklist] that has the given fields between its commas. *)
Lemma parseWindowsLine_fields (fields : list string) :
  fields <> [] ->
  Forall (fun field => contains_char "," field = false) fields ->
  parseWindowsLine (Str.join "," fields) =
    if Nat.leb 2 (length fields) then
      Some (mkProcess None
              (parsePid (Str.remove_char "034"%char (nth 1 fields "")))
              None
              (match nth_error fields 4 with
               | Some m =>
                   if String.eqb (Str.remove_char "034"%char m) "" then "N/A"
                   else Str.remove_char "034"%char m
               | None => "N/A"
               end)
              (Str.remove_char "034"%char (nth 0 fields "")))
    else None.
Proof.
  intros Hne Hall. unfold parseWindowsLine. rewrite (split_join _ _ Hne Hall).
  rewrite length_map. destruct (Nat.leb 2 (length fields)); [|reflexivity].
  assert (Hnth : forall n,
            nth n (map (Str.remove_char "034"%char) fields) ""
            = Str.remove_char "034"%char (nth n fields "")).
  { intros n. apply (map_nth (Str.remove_char "034"%char) fields "" n). }
  rewrite !Hnth, nth_error_map.
  destruct (nth_error fields 4); reflexivity.
Qed.



(** X10.  A line of [tasklist /FO CSV] is cut at every comma, quoted or not: when
    the memory column holds a thousands separator, as in ["12,345 K"], the
    memory reported is the part before that comma. *)
Theorem parseWindowsLine_memory_cut (image pid session number before after : string) :
  Forall (fun f => contains_char "," f = false /\ contains_char "034"%char f = false)
    [image; pid; session; number; before; after] ->
  before <> "" ->
  parseWindowsLine
    (Str.join ","
       [Constants.quoted image; Constants.quoted pid; Constants.quoted session;
        Constants.quoted number; Constants.quoted (before ++ "," ++ after)]) =
  Some (mkProcess None (parsePid pid) None before image).
Proof.
  intros Hall Hbefore.
  repeat match goal with
         | H : Forall _ (_ :: _) |- _ => inversion H; clear H; subst
         | H : _ /\ _ |- _ => destruct H
         end.
  assert (Hq : forall f, contains_char "," f = false ->
                 contains_char "," (Constants.quoted f) = false).
  { intros f Hf. unfold Constants.quoted, Constants.dquote.
    rewrite app_cons, app_nil_l. simpl.
    induction f as [|a f IH]; [reflexivity|].
    simpl in Hf. apply orb_false_iff in Hf. destruct Hf as [E Hf].
    rewrite app_cons. simpl. rewrite E. now apply IH. }
  assert (Hline :
    Str.join ","
       [Constants.quoted image; Constants.quoted pid; Constants.quoted session;
        Constants.quoted number; Constants.quoted (before ++ "," ++ after)] =
    Str.join ","
       [Constants.quoted image; Constants.quoted pid; Constants.quoted session;
        Constants.quoted number; Constants.dquote ++ before; after ++ Constants.dquote]).
  { simpl. unfold Constants.quoted. now rewrite !append_assoc. }
  rewrite Hline. unfold parseWindowsLine.
  rewrite split_join.
  - cbn [map length Nat.leb nth nth_error].
    rewrite !unquote by assumption.
    rewrite remove_char_app, (remove_char_absent _ before) by assumption.
    cbn [Constants.dquote Str.remove_char Ascii.eqb Bool.eqb]. rewrite app_nil_l.
    apply String.eqb_neq in Hbefore. now rewrite Hbefore.
  - discriminate.
  - repeat (constructor; [now apply Hq|]).
    constructor.
    + unfold Constants.dquote. rewrite app_cons, app_nil_l. simpl. assumption.
    + constructor; [|constructor].
      match goal with H : contains_char "," after = false |- _ => revert H end.
      unfold Constants.dquote. generalize after as f.
      induction f as [|a f IH]; [reflexivity|]. simpl. intros Hf.
      apply orb_false_iff in Hf. destruct Hf as [E Hf].
      rewrite E. now apply IH.
Qed.

Lemma parseWindowsLine_memory_cut_witness :
  parseWindowsLine
    (Str.join ","
       [Constants.quoted "node.exe"; Constants.quoted "4242"; Constants.quoted "Console";
        Constants.quoted "1"; Constants.quoted "12,345 K"]) =
  Some (mkProcess None 4242 None "12" "node.exe").
Proof.
  assert (Hne : "12" <> "") by discriminate.
  apply (parseWindowsLine_memory_cut "node.exe" "4242" "Console" "1" "12" "345 K");
    [|exact Hne].
  repeat (constructor; [split; reflexivity|]). constructor.
Defined.

End ParseFacts.

(** ** The process listing handler as a whole *)

Module ListProcessesContract.
Import StrMore ListProcessesTool ListProcessesToolSpec.

(** The sample expression does not tell the letter case of a name when it
    has the flag [i]. *)
Lemma regexp_prefix_ignores_case (source : string) (test : string -> bool) :
  Samples.regexp_prefix source "i" = Returned test ->
  forall s, test (Str.toLowerCase s) = test s.
Proof.
  unfold Samples.regexp_prefix. destruct (Str.includes source "("); [discriminate|].
  change (Str.includes "i" "i") with true. cbv iota. intros [= <-] s.
  now rewrite ConfigManagerSpec.toLowerCase_idempotent.
Qed.

Lemma slice0_min_negative {A : Type} (l : list A) (n cap : Z) :
  n < 0 -> 0 <= cap ->
  Z.of_nat (length (slice0 l (Z.min n cap))) = Z.max (Z.of_nat (length l) + n) 0.
Proof.
  intros H Hcap. replace (Z.min n cap) with n by lia.
  unfold slice0. destruct (Z.ltb_spec n 0); [|lia].
  rewrite length_firstn. lia.
Qed.

Section Run.

Variable RegExp : string -> string -> Outcome (string -> bool).

(** What the flag [i] means for the text that is tested: an expression
    compiled with it gives the same answer for two texts that differ in the
    case of ASCII letters only. *)
Hypothesis ignore_case :
  forall source test, RegExp source "i" = Returned test ->
  forall s, test (Str.toLowerCase s) = test s.


End Run.



End ListProcessesContract.


(** ** Errors of the directory handler *)

Module DirectoryErrors.
Import Os DirectoryOperationsTool.

Section Run.

Variable listDirectory : string -> JsVal -> JsVal -> World -> Outcome JsObj * World.
Variable createListingSummary : JsVal -> JsVal.
Variable deleteDirectory : string -> JsVal -> JsVal -> World -> Outcome JsObj * World.
Variable checkDirectoryExists : string -> World -> Outcome JsObj * World.

(** X12.  When a sub-operation of the directory handler fails with one of the
    file system codes ENOENT, EACCES, ENOTDIR, EEXIST, ENOTEMPTY or ENOSPC,
    the failure leaves the dispatch wrapper as a raised [InvalidParams]
    protocol error whose message is the one of that code, made with the
    path as the caller gave it; with any other code (or none) the wrapper
    returns a failure envelope carrying the error's own message. *)
Theorem directory_errors_two_ways (args : JsObj) (op p : string) (schema : JsVal)
  (startTime endTime : Z) (w w' : World) (error : JsError) :
  let wrapped :=
    tool listDirectory createListingSummary deleteDirectory checkDirectoryExists schema in
  arg "operation" args = VStr op ->
  In op ["create"; "list"; "delete"; "exists"] ->
  arg "path" args = VStr p ->
  p <> "" ->
  dispatch listDirectory createListingSummary deleteDirectory checkDirectoryExists
    op p (arg "recursive" args)
    (default_to (VBool false) (arg "include_hidden" args))
    (default_to (VBool true) (arg "detailed" args))
    (default_to (VBool false) (arg "force" args)) w = (Raised error, w') ->
  isMcpError error = false ->
  (code error = VStr "ENOENT" ->
   BaseTool.execute wrapped args startTime endTime w =
     (Raised (McpError InvalidParams ("Directory not found: " ++ p)), w')) /\
  (code error = VStr "EACCES" ->
   BaseTool.execute wrapped args startTime endTime w =
     (Raised (McpError InvalidParams ("Permission denied: " ++ p)), w')) /\
  (code error = VStr "ENOTDIR" ->
   BaseTool.execute wrapped args startTime endTime w =
     (Raised (McpError InvalidParams ("Path is not a directory: " ++ p)), w')) /\
  (code error = VStr "EEXIST" ->
   BaseTool.execute wrapped args startTime endTime w =
     (Raised (McpError InvalidParams ("Directory already exists: " ++ p)), w')) /\
  (code error = VStr "ENOTEMPTY" ->
   BaseTool.execute wrapped args startTime endTime w =
     (Raised (McpError InvalidParams
                ("Directory not empty: " ++ p
                   ++ ". Use recursive: true to delete non-empty directories.")), w')) /\
  (code error = VStr "ENOSPC" ->
   BaseTool.execute wrapped args startTime endTime w =
     (Raised (McpError InvalidParams "No space left on device"), w')) /\
  (~ In (code error)
     [VStr "ENOENT"; VStr "EACCES"; VStr "ENOTDIR"; VStr "EEXIST"; VStr "ENOTEMPTY";
      VStr "ENOSPC"] ->
   exists env,
     BaseTool.execute wrapped args startTime endTime w = (Returned env, w') /\
     obj_get "success" env = Some (VBool false) /\
     obj_get "error" env = Some (message error)).
Proof.
  intros wrapped Hop Hin Hp Hne Hdisp Hmcp.
  assert (Hrun : BaseTool.run wrapped args w = (Raised (convert p error), w')).
  { unfold wrapped, tool. cbn [BaseTool.run]. unfold run. rewrite Hop, Hp.
    apply String.eqb_neq in Hne. rewrite Hne.
    assert (Hvalid : (negb (String.eqb op "") && existsb (String.eqb op) operations)%bool = true).
    { simpl in Hin. destruct Hin as [<-|[<-|[<-|[<-|[]]]]]; reflexivity. }
    rewrite Hvalid. now rewrite Hdisp. }
  unfold BaseTool.execute. rewrite Hrun.
  repeat (split; [intros Hc; unfold convert; rewrite Hc; reflexivity|]).
  - intros Hcode.
    assert (Hsame : convert p error = error).
    { unfold convert. destruct (code error) as [| | | |s|] eqn:Hc; try reflexivity.
      simpl in Hcode.
      repeat match goal with
             | |- context [match ?s with EmptyString => _ | String _ _ => _ end] =>
                 destruct s; try reflexivity
             | |- context [match ?a with Ascii _ _ _ _ _ _ _ _ => _ end] =>
                 destruct a; try reflexivity
             | |- context [if ?b then _ else _] => destruct b; try reflexivity
             end; exfalso; apply Hcode; tauto. }
    rewrite Hsame, Hmcp. eexists. split; [reflexivity|].
    destruct (BaseToolSpec.formatError_fields error (endTime - startTime))
      as (Hs & _ & He & _). now split.
Qed.

End Run.

Lemma directory_errors_two_ways_witness :
  BaseTool.execute
    (tool Samples.no_listing Samples.no_summary Samples.no_delete Samples.no_exists (VObj []))
    [("operation", VStr "create"); ("path", VStr "/srv/data"); ("recursive", VBool false)]
    0 1 Samples.world0 =
  (Raised (McpError InvalidParams "Directory not found: /srv/data"), Samples.world0).
Proof.
  assert (Hne : "/srv/data" <> "") by discriminate.
  destruct (directory_errors_two_ways Samples.no_listing Samples.no_summary Samples.no_delete
              Samples.no_exists
              [("operation", VStr "create"); ("path", VStr "/srv/data");
               ("recursive", VBool false)]
              "create" "/srv/data" (VObj []) 0 1 Samples.world0 Samples.world0
              (SystemError "ENOENT" "no such directory, mkdir '/srv/data'")
              eq_refl (or_introl eq_refl) eq_refl Hne) as [Hproto _].
  - vm_compute. reflexivity.
  - reflexivity.
  - apply Hproto. reflexivity.
Defined.

End DirectoryErrors.

(** ** The listing summary *)

Module ListingSummarySpec.
Import ListingSummary.

Lemma step_counts (a : Acc) (item : Item) :
  files (step a item) + directories (step a item) + symbolic_links (step a item)
    + other (step a item)
  = files a + directories a + symbolic_links a + other a + 1.
Proof.
  unfold step, track_recent, count_type, count_other.
  destruct (failed item); simpl; [lia|].
  destruct (stats item) as [st|]; simpl; [|lia].
  destruct (is_file st), (size st >? largestSize a), (is_directory st),
    (is_symbolic_link st); simpl;
    repeat match goal with |- context [if ?c then _ else _] => destruct c end;
    simpl; lia.
Qed.

Ltac step_cases a item :=
  unfold step, regular, size_of, readable, track_recent, count_type, count_other;
  destruct (failed item); simpl; [solve [reflexivity | lia]|];
  destruct (stats item) as [st|]; simpl; [|solve [reflexivity | lia]];
  destruct (is_file st), (size st >? largestSize a), (is_directory st),
    (is_symbolic_link st); simpl;
  repeat match goal with |- context [if ?c then _ else _] => destruct c end;
  simpl; solve [reflexivity | lia].

Lemma step_files (a : Acc) (item : Item) :
  files (step a item) = files a + (if regular item then 1 else 0).
Proof. step_cases a item. Qed.

Lemma step_total_size (a : Acc) (item : Item) :
  total_size (step a item) = total_size a + (if regular item then size_of item else 0).
Proof. step_cases a item. Qed.

Lemma step_largestSize (a : Acc) (item : Item) :
  largestSize (step a item)
  = if (regular item && (size_of item >? largestSize a))%bool then size_of item
    else largestSize a.
Proof. step_cases a item. Qed.

Lemma step_largest_file (a : Acc) (item : Item) :
  largest_file (step a item)
  = if (regular item && (size_of item >? largestSize a))%bool
    then Some (mkLargest (name item) (size_of item) (hundredths (size_of item) MB))
    else largest_file a.
Proof. step_cases a item. Qed.

Lemma step_mostRecentTime (a : Acc) (item : Item) :
  mostRecentTime (step a item)
  = match readable item with
    | None => mostRecentTime a
    | Some st =>
        match mostRecentTime a with
        | None => Some (modified st)
        | Some t => if modified st >? t then Some (modified st) else Some t
        end
    end.
Proof.
  unfold step, readable, track_recent.
  destruct (failed item); simpl; [reflexivity|].
  destruct (stats item) as [st|]; simpl; [|reflexivity].
  assert (E : mostRecentTime (count_type item st a) = mostRecentTime a).
  { unfold count_type, count_other.
    repeat match goal with |- context [if ?c then _ else _] => destruct c end; reflexivity. }
  rewrite E. destruct (mostRecentTime a) as [t|]; simpl; [|reflexivity].
  destruct (modified st >? t); simpl; [reflexivity|exact E].
Qed.

Lemma step_most_recent (a : Acc) (item : Item) :
  most_recent (step a item)
  = match readable item with
    | None => most_recent a
    | Some st =>
        if match mostRecentTime a with
           | None => true
           | Some t => modified st >? t
           end
        then Some (mkRecent (name item) (modified st) (is_file st) (is_directory st))
        else most_recent a
    end.
Proof.
  unfold step, readable, track_recent.
  destruct (failed item); simpl; [reflexivity|].
  destruct (stats item) as [st|]; simpl; [|reflexivity].
  assert (E : mostRecentTime (count_type item st a) = mostRecentTime a).
  { unfold count_type, count_other.
    repeat match goal with |- context [if ?c then _ else _] => destruct c end; reflexivity. }
  assert (E' : most_recent (count_type item st a) = most_recent a).
  { unfold count_type, count_other.
    repeat match goal with |- context [if ?c then _ else _] => destruct c end; reflexivity. }
  rewrite E.
  destruct (match mostRecentTime a with None => true | Some t => modified st >? t end);
    simpl; [reflexivity|exact E'].
Qed.

Lemma file_sizes_snoc (items : list Item) (item : Item) :
  file_sizes (items ++ [item])
  = (file_sizes items ++ (if regular item then [size_of item] else []))%list.
Proof.
  unfold file_sizes. rewrite List.filter_app, map_app. simpl.
  destruct (regular item); reflexivity.
Qed.

Lemma sum_app (l k : list Z) : sum (l ++ k) = sum l + sum k.
Proof. unfold sum. induction l as [|x l IH]; simpl; [reflexivity|]. rewrite IH. lia. Qed.

(** What the loop has established after any number of entries, on the
    side of the sizes. *)
Lemma sizes_invariant (items : list Item) :
  let a := fold_left step items empty in
  files a + directories a + symbolic_links a + other a = Z.of_nat (length items) /\
  files a = Z.of_nat (length (file_sizes items)) /\
  total_size a = sum (file_sizes items) /\
  0 <= largestSize a /\
  Forall (fun z => z <= largestSize a) (file_sizes items) /\
  (largest_file a = None -> largestSize a = 0) /\
  (forall l, largest_file a = Some l ->
     largest_size l = largestSize a /\ 0 < largest_size l /\
     size_mb l = hundredths (largest_size l) MB /\
     exists item, In item items /\ regular item = true /\
                  name item = largest_name l /\ size_of item = largest_size l).
Proof.
  induction items as [|item items IH] using rev_ind.
  - simpl. repeat split; try reflexivity; try lia; try constructor; discriminate.
  - cbv zeta in *. rewrite fold_left_app. simpl.
    set (a := fold_left step items empty) in *.
    destruct IH as (Hcount & Hfiles & Htotal & Hpos & Hmax & Hnone & Hsome).
    rewrite step_counts, step_files, step_total_size, step_largestSize, step_largest_file.
    rewrite file_sizes_snoc, sum_app, !length_app. simpl.
    destruct (regular item) eqn:Hreg; simpl.
    + destruct (size_of item >? largestSize a) eqn:Hgt.
      * apply Z.gtb_lt in Hgt.
        split; [lia|]. split; [lia|]. split; [unfold sum in *; simpl; lia|].
        split; [lia|]. split.
        { apply Forall_app. split.
          - eapply Forall_impl; [exact Hmax|]. simpl. intros; lia.
          - constructor; [lia|constructor]. }
        split; [discriminate|].
        intros l [= <-]. simpl. split; [reflexivity|]. split; [lia|]. split; [reflexivity|].
        exists item. rewrite in_app_iff. simpl. auto.
      * assert (size_of item <= largestSize a).
        { destruct (Z.gtb_spec (size_of item) (largestSize a)); [discriminate|lia]. }
        split; [lia|]. split; [lia|]. split; [unfold sum in *; simpl; lia|].
        split; [lia|]. split.
        { apply Forall_app. split; [exact Hmax|]. constructor; [lia|constructor]. }
        split; [exact Hnone|].
        intros l Hl. destruct (Hsome l Hl) as (H1 & H2 & H3 & it & Hin & Hr & Hn & Hs).
        repeat (split; [assumption|]). exists it. rewrite in_app_iff. auto.
    + split; [lia|]. split; [lia|]. split; [unfold sum in *; simpl; lia|].
      split; [lia|]. split; [rewrite app_nil_r; exact Hmax|].
      split; [exact Hnone|].
      intros l Hl. destruct (Hsome l Hl) as (H1 & H2 & H3 & it & Hin & Hr & Hn & Hs).
      repeat (split; [assumption|]). exists it. rewrite in_app_iff. auto.
Qed.

(** The same on the side of the modification times. *)
Lemma recent_invariant (items : list Item) :
  let a := fold_left step items empty in
  match most_recent a with
  | None => mostRecentTime a = None /\ Forall (fun i => readable i = None) items
  | Some r =>
      mostRecentTime a = Some (recent_modified r) /\
      (exists item st, In item items /\ readable item = Some st /\
         r = mkRecent (name item) (modified st) (is_file st) (is_directory st)) /\
      Forall (fun i => forall st, readable i = Some st -> modified st <= recent_modified r)
        items
  end.
Proof.
  induction items as [|item items IH] using rev_ind.
  - simpl. split; [reflexivity|constructor].
  - cbv zeta in *. rewrite fold_left_app. simpl.
    set (a := fold_left step items empty) in *.
    rewrite step_most_recent, step_mostRecentTime.
    destruct (readable item) as [st|] eqn:Hr.
    + destruct (most_recent a) as [r|] eqn:Hm.
      * destruct IH as (Ht & (it & st' & Hin & Hr' & Heq) & Hall). rewrite Ht.
        destruct (modified st >? recent_modified r) eqn:Hgt.
        { apply Z.gtb_lt in Hgt. simpl. split; [reflexivity|]. split.
          - exists item, st. rewrite in_app_iff. simpl. auto.
          - apply Forall_app. split.
            + eapply Forall_impl; [exact Hall|]. simpl. intros i Hi s Hs.
              specialize (Hi s Hs). lia.
            + constructor; [|constructor]. intros s Hs. rewrite Hr in Hs.
              injection Hs as <-. lia. }
        { assert (modified st <= recent_modified r).
          { destruct (Z.gtb_spec (modified st) (recent_modified r)); [discriminate|lia]. }
          split; [reflexivity|]. split.
          - exists it, st'. rewrite in_app_iff. auto.
          - apply Forall_app. split; [exact Hall|].
            constructor; [|constructor]. intros s Hs. rewrite Hr in Hs.
            injection Hs as <-. lia. }
      * destruct IH as (Ht & Hall). rewrite Ht. simpl. split; [reflexivity|]. split.
        { exists item, st. rewrite in_app_iff. simpl. auto. }
        apply Forall_app. split.
        { eapply Forall_impl; [exact Hall|]. simpl. intros i Hi s Hs. congruence. }
        constructor; [|constructor]. intros s Hs. rewrite Hr in Hs. injection Hs as <-. lia.
    + destruct (most_recent a) as [r|] eqn:Hm.
      * destruct IH as (Ht & (it & st' & Hin & Hr' & Heq) & Hall).
        split; [exact Ht|]. split.
        { exists it, st'. rewrite in_app_iff. auto. }
        apply Forall_app. split; [exact Hall|]. constructor; [|constructor].
        intros s Hs. congruence.
      * destruct IH as (Ht & Hall). split; [exact Ht|].
        apply Forall_app. split; [exact Hall|]. constructor; [exact Hr|constructor].
Qed.

Lemma step_unreadable (a : Acc) (item : Item) :
  readable item = None -> step a item = count_other a.
Proof.
  unfold readable, step. destruct (failed item); [reflexivity|].
  now intros ->.
Qed.

Lemma fold_unreadable (items : list Item) (a : Acc) :
  Forall (fun i => readable i = None) items ->
  fold_left step items a
  = mkAcc (files a) (directories a) (symbolic_links a)
      (other a + Z.of_nat (length items)) (total_size a)
      (largest_file a) (most_recent a) (largestSize a) (mostRecentTime a).
Proof.
  intros H. revert a. induction H as [|item items Hi Hrest IH]; intros a.
  - simpl. destruct a; simpl. f_equal. lia.
  - simpl fold_left. rewrite IH, (step_unreadable a item Hi). unfold count_other. simpl.
    f_equal. lia.
Qed.

(** X13.  The summary of a listing.  The four counters split the entries: they
    add up to [total_items], the number of entries.  [files] counts the
    readable entries that are regular files and [total_size] is the sum of
    their sizes.  [largest_file] is [null] exactly when no such file has a
    positive size (so also for a directory of empty files); otherwise it
    names a file of the listing whose size is positive and at least the size
    of every other file.  When no entry has readable stats, as in a listing
    that is not detailed, every entry is counted under [other]. *)
Theorem summary_counts_and_sizes (items : list Item) :
  let s := createListingSummary items in
  let a := counts s in
  total_items s = Z.of_nat (length items) /\
  files a + directories a + symbolic_links a + other a = total_items s /\
  files a = Z.of_nat (length (file_sizes items)) /\
  total_size a = sum (file_sizes items) /\
  (largest_file a = None <-> Forall (fun z => z <= 0) (file_sizes items)) /\
  (forall l, largest_file a = Some l ->
     0 < largest_size l /\
     Forall (fun z => z <= largest_size l) (file_sizes items) /\
     exists item, In item items /\ regular item = true /\
                  name item = largest_name l /\ size_of item = largest_size l) /\
  (Forall (fun i => readable i = None) items ->
     other a = total_items s /\ files a = 0 /\ total_size a = 0 /\
     largest_file a = None /\ most_recent a = None).
Proof.
  cbv zeta. unfold createListingSummary. simpl.
  destruct (sizes_invariant items) as (Hcount & Hfiles & Htotal & Hpos & Hmax & Hnone & Hsome).
  cbv zeta in *. set (a := fold_left step items empty) in *.
  split; [reflexivity|]. split; [exact Hcount|]. split; [exact Hfiles|].
  split; [exact Htotal|]. split; [|split].
  - split.
    + intros Hn. rewrite (Hnone Hn) in Hmax. exact Hmax.
    + intros Hall. destruct (largest_file a) as [l|] eqn:Hl; [|reflexivity].
      destruct (Hsome l eq_refl) as (_ & Hl0 & _ & it & Hin & Hreg & _ & Hsz).
      assert (Hmem : In (size_of it) (file_sizes items)).
      { unfold file_sizes. apply in_map, filter_In. auto. }
      rewrite Forall_forall in Hall. apply list_elem_of_In, Hall in Hmem. lia.
  - intros l Hl. destruct (Hsome l Hl) as (He & Hl0 & _ & it & Hin & Hreg & Hn & Hsz).
    split; [exact Hl0|]. split; [rewrite He; exact Hmax|]. exists it. auto.
  - intros Hall. subst a. rewrite (fold_unreadable items empty Hall). simpl.
    repeat split; reflexivity.
Qed.

(** X14.  [most_recent] is [null] exactly when no entry has readable stats;
    otherwise it is taken from an entry of the listing (name, time stamp
    and both type flags of the same entry) and no readable entry was
    modified later. *)
Theorem summary_most_recent (items : list Item) :
  let a := counts (createListingSummary items) in
  (most_recent a = None <-> Forall (fun i => readable i = None) items) /\
  (forall r, most_recent a = Some r ->
     (exists item st, In item items /\ readable item = Some st /\
        r = mkRecent (name item) (modified st) (is_file st) (is_directory st)) /\
     Forall (fun i => forall st, readable i = Some st -> modified st <= recent_modified r)
       items).
Proof.
  cbv zeta. unfold createListingSummary. simpl.
  pose proof (recent_invariant items) as H. cbv zeta in H.
  set (a := fold_left step items empty) in *.
  destruct (most_recent a) as [r|] eqn:Hm.
  - destruct H as (_ & Hex & Hall). split.
    + split; [discriminate|]. intros Hnone.
      destruct Hex as (it & st & Hin & Hr & _).
      rewrite Forall_forall in Hnone. apply list_elem_of_In, Hnone in Hin. congruence.
    + intros r' [= <-]. split; assumption.
  - destruct H as (_ & Hall). split; [tauto|discriminate].
Qed.

End ListingSummarySpec.

(** ** The request handler *)

Module ServerSpec.
Import Os ToolRegistry Server.

(** X4.  A tool call is answered or fails with a protocol error, never with
    another error: an unknown name is [MethodNotFound] and leaves the world
    alone, a tool built on the base class is run through its dispatch
    wrapper and nothing is added to what the wrapper returns or raises, and
    whatever else a registered object raises reaches the client as
    [InternalError] with the message after a fixed prefix. *)
Theorem callTool_protocol_errors (name : string) (args : JsObj) (startTime endTime : Z)
  (r : Registry) (w : World) :
  (forall e w', callTool name args startTime endTime r w = (Raised e, w') ->
                isMcpError e = true) /\
  (get name r = None ->
   callTool name args startTime endTime r w =
     (Raised (McpError MethodNotFound ("Unknown tool: " ++ name)), w)) /\
  (forall t, get name r = Some (of_BaseTool t) ->
   callTool name args startTime endTime r w = BaseTool.execute t args startTime endTime w) /\
  (forall tool run e w',
     get name r = Some tool -> execute tool = Callable run ->
     run args startTime endTime w = (Raised e, w') -> isMcpError e = false ->
     callTool name args startTime endTime r w =
       (Raised (McpError InternalError
                  ("Tool execution failed: " ++ toString (message e))), w')).
Proof.
  split; [|split; [|split]].
  - intros e w'. unfold callTool.
    destruct (execute_ name args startTime endTime r w) as [[res|err] w1].
    + discriminate.
    + destruct (isMcpError err) eqn:E; intros [= <- <-]; [exact E | reflexivity].
  - intros H. unfold callTool, execute_. now rewrite H.
  - intros t H. unfold callTool, execute_. rewrite H. simpl.
    unfold BaseTool.execute. destruct (BaseTool.run t args w) as [[res|err] w1].
    + reflexivity.
    + destruct (isMcpError err) eqn:E; simpl; [now rewrite E | reflexivity].
  - intros tool run e w' Hget Hrun Hraise Hmcp. unfold callTool, execute_.
    now rewrite Hget, Hrun, Hraise, Hmcp.
Qed.

Lemma callTool_protocol_errors_witness :
  callTool "failing" [] 0 5 [("failing", of_BaseTool Samples.failing_tool)] Samples.world0
    = BaseTool.execute Samples.failing_tool [] 0 5 Samples.world0 /\
  callTool "absent" [] 0 5 [("failing", of_BaseTool Samples.failing_tool)] Samples.world0
    = (Raised (McpError MethodNotFound "Unknown tool: absent"), Samples.world0).
Proof.
  split.
  - destruct (callTool_protocol_errors "failing" [] 0 5
                [("failing", of_BaseTool Samples.failing_tool)] Samples.world0)
      as (_ & _ & H & _).
    exact (H Samples.failing_tool eq_refl).
  - destruct (callTool_protocol_errors "absent" [] 0 5
                [("failing", of_BaseTool Samples.failing_tool)] Samples.world0)
      as (_ & H & _).
    exact (H eq_refl).
Defined.

End ServerSpec.

(** ** Ending a process *)

Module KillProcessToolSpec.
Import Os CommandUtils DirectoryOperationsTool KillProcessTool.

Section Run.

Variable execAsync : string -> ExecOptions -> Machine -> Outcome ExecResult * Machine.
Variable process_env : JsObj.

(** X7.  Ending a process on a POSIX host.  A [pid] that is not a number of at
    least 1 is refused with [InvalidParams] before any command is run.
    Otherwise exactly one command is run, [kill -<signal> <pid>] with a
    five second limit, where the signal is [SIGKILL] whenever [force] is
    truthy (whatever [signal] says), else the given [signal], else
    [SIGTERM]; the signal is put into the command line as it is given.
    When the command succeeds the result reports that [pid] and signal. *)
Theorem kill_command_line (args : JsObj) (w : World) :
  let pid := arg "pid" args in
  let signal :=
    if truthy (arg "force" args) then VStr "SIGKILL"
    else default_to (VStr "SIGTERM") (arg "signal" args) in
  ((forall n, pid = VNum n -> n < 1) ->
   run execAsync process_env false args w =
     (Raised (McpError InvalidParams "PID must be a positive number"), w)) /\
  (forall n, pid = VNum n -> 1 <= n ->
   let command := "kill -" ++ toString signal ++ " " ++ pretty n in
   let settled := execAsync command (kill_options process_env) (machine w) in
   timeout (kill_options process_env) = 5000 /\
   trace (snd (run execAsync process_env false args w)) = (trace w ++ [SysExec command])%list /\
   machine (snd (run execAsync process_env false args w)) = snd settled /\
   match fst settled with
   | Returned r =>
       fst (run execAsync process_env false args w) =
         Returned [("pid", VNum n); ("signal", signal);
                   ("stdout", VStr (res_stdout r)); ("stderr", VStr (res_stderr r))]
   | Raised e => fst (run execAsync process_env false args w) = Raised e
   end).
Proof.
  cbv zeta. split.
  - intros Hpid. unfold run. destruct (arg "pid" args) as [| |b|n|s|o]; try reflexivity.
    specialize (Hpid n eq_refl).
    assert (E : ((n =? 0) || (n <? 1))%bool = true).
    { apply orb_true_iff. right. now apply Z.ltb_lt. }
    now rewrite E.
  - intros n Hpid Hn. unfold run. rewrite Hpid.
    assert (E : ((n =? 0) || (n <? 1))%bool = false).
    { apply orb_false_iff. split; [apply Z.eqb_neq | apply Z.ltb_ge]; lia. }
    rewrite E.
    assert (Hf : truthy (default_to (VBool false) (arg "force" args))
                 = truthy (arg "force" args)).
    { destruct (arg "force" args); reflexivity. }
    rewrite Hf. split; [reflexivity|].
    destruct (truthy (arg "force" args));
      match goal with
      | |- context [execAsync ?c ?o ?m] => destruct (execAsync c o m) as [[r|e] m1]
      end; simpl; repeat split; reflexivity.
Qed.

End Run.

Lemma kill_command_line_witness :
  trace (snd (run Samples.exec_ok [] false MoreSamples.kill_forced Samples.world0))
    = [SysExec "kill -SIGKILL 4242"] /\
  fst (run Samples.exec_ok [] false MoreSamples.kill_forced Samples.world0)
    = Returned [("pid", VNum 4242); ("signal", VStr "SIGKILL");
                ("stdout", VStr "hi"); ("stderr", VStr "")].
Proof.
  destruct (kill_command_line Samples.exec_ok [] MoreSamples.kill_forced Samples.world0)
    as [_ H].
  destruct (H 4242 eq_refl ltac:(lia)) as (_ & Htrace & _ & Hresult).
  split; [exact Htrace | exact Hresult].
Defined.

End KillProcessToolSpec.

(** ** Running a command *)

Module ExecuteCommandToolSpec.
Import Os CommandUtils ExecuteCommandTool JsFacts.

Section Run.

Variable execAsync : string -> ExecOptions -> Machine -> Outcome ExecResult * Machine.
Variable process_env : JsObj.

(** What [child_process.exec] rejects with is not a protocol error. *)
Hypothesis exec_errors_plain :
  forall c o m e m', execAsync c o m = (Raised e, m') -> isMcpError e = false.


End Run.


End ExecuteCommandToolSpec.

(** ** Quoting for the shell *)

Module ShellUtilsSpec.
Import ShellUtils StrMoreFacts.

Lemma sh_word_quoted_body (arg : string) :
  sh_word true
    (replace_char "'"%char (squote ++ backslash ++ squote ++ squote) arg ++ squote)
  = Some arg.
Proof.
  assert (Hby : forall x,
            (squote ++ backslash ++ squote ++ squote) ++ x
            = String "'" (String "092" (String "'" (String "'" x)))) by reflexivity.
  induction arg as [|a s IH].
  - reflexivity.
  - cbn [replace_char]. destruct (Ascii.eqb a "'") eqn:E.
    + apply Ascii.eqb_eq in E. subst a.
      rewrite append_assoc, Hby. cbn [sh_word Ascii.eqb Bool.eqb]. now rewrite IH.
    + rewrite app_cons. cbn [sh_word]. rewrite E. now rewrite IH.
Qed.

(** X8.  On a POSIX host the quoted argument is one shell word that the shell
    reads back as exactly the argument, whatever characters it holds
    (quotes, spaces, dollar signs, backslashes, line feeds). *)
Theorem escapeShellArg_round_trip (arg : string) :
  sh_word false (escapeShellArg false arg) = Some arg.
Proof.
  unfold escapeShellArg. unfold squote at 1. rewrite app_cons, app_nil_l.
  cbn [sh_word Ascii.eqb Bool.eqb]. apply sh_word_quoted_body.
Qed.

End ShellUtilsSpec.

(** ** The preview of written content *)

Module ContentPreviewSpec.
Import FileWriteTool StrMoreFacts.

Lemma length_app (a b : string) :
  String.length (a ++ b) = (String.length a + String.length b)%nat.
Proof.
  induction a as [|x a IH]; [reflexivity|]. rewrite app_cons. simpl. now rewrite IH.
Qed.

Lemma length_substring0 (n : nat) (s : string) :
  (String.length (substring 0 n s) <= n)%nat.
Proof.
  revert s. induction n as [|n IH]; intros [|a s]; simpl; try lia.
  specialize (IH s). lia.
Qed.

Lemma fit_bound (maxLength : nat) (lines : list string) (shown : string) (n : nat) :
  (String.length shown <= maxLength)%nat ->
  (String.length (fst (fit maxLength lines shown n)) <= maxLength)%nat /\
  (n <= snd (fit maxLength lines shown n) <= n + length lines)%nat.
Proof.
  revert shown n. induction lines as [|line rest IH]; intros shown n Hlen; simpl.
  - lia.
  - destruct (Nat.ltb_spec maxLength (String.length shown + String.length line + 1)); simpl.
    + lia.
    + destruct (IH (shown ++ (if String.eqb shown "" then "" else newline) ++ line) (S n))
        as [H1 H2].
      * rewrite !length_app. destruct (String.eqb shown ""); simpl; lia.
      * split; [exact H1 | lia].
Qed.

(** X18.  The preview of a written text.  A text of at most [maxLength]
    characters is shown whole and not marked truncated.  A longer text is
    marked truncated, the number of whole lines shown is at most the number
    of lines, and the preview is at most [maxLength + 4] characters long
    (more than [maxLength] is possible: the marker line is added
    after the lines that fit). *)
Theorem createContentPreview_bounds (content : string) (maxLength : nat) :
  let p := createContentPreview content maxLength in
  total_length p = String.length content /\
  total_lines p = length (Str.split "010"%char content) /\
  ((String.length content <= maxLength)%nat ->
   preview p = content /\ truncated p = false /\ preview_lines p = None) /\
  ((maxLength < String.length content)%nat ->
   truncated p = true /\
   (String.length (preview p) <= maxLength + 4)%nat /\
   exists n, preview_lines p = Some n /\ (n <= total_lines p)%nat).
Proof.
  cbv zeta. unfold createContentPreview.
  destruct (Nat.leb_spec (String.length content) maxLength) as [Hle|Hgt].
  - simpl. split; [reflexivity|]. split; [reflexivity|].
    split; [intros _; repeat split; reflexivity | intros; lia].
  - destruct (fit maxLength (Str.split "010"%char content) "" 0) as [fitted lineCount] eqn:Hfit.
    destruct (fit_bound maxLength (Str.split "010"%char content) "" 0) as [H1 H2];
      [simpl; lia|].
    rewrite Hfit in H1, H2. simpl in H1, H2. simpl.
    split; [reflexivity|]. split; [reflexivity|]. split; [lia|].
    intros _. split; [now apply Nat.ltb_lt|]. split.
    + destruct (Nat.eqb (String.length fitted) 0).
      * rewrite length_app. pose proof (length_substring0 (maxLength - 3) content).
        simpl. lia.
      * destruct (Nat.ltb lineCount (length (Str.split "010"%char content))).
        -- rewrite !length_app. simpl. lia.
        -- lia.
    + exists lineCount. split; [reflexivity | lia].
Qed.

End ContentPreviewSpec.

(** ** The stored configuration *)

Module ConfigStoreSpec.
Import Os OsMore ConfigStore JsFacts StrMoreFacts.

Lemma obj_get_absent (k : string) (o : JsObj) :
  k ∉ map fst o -> obj_get k o = None.
Proof.
  induction o as [|[k' v'] o IH]; simpl; [reflexivity|].
  rewrite not_elem_of_cons. intros [Hne Hin].
  apply String.eqb_neq in Hne. rewrite Hne. now apply IH.
Qed.

Lemma obj_get_present (k : string) (o : JsObj) :
  obj_get k o <> None -> k ∈ map fst o.
Proof.
  induction o as [|[k' v'] o IH]; simpl; [congruence|].
  destruct (String.eqb_spec k k') as [->|Hne]; intros H.
  - apply list_elem_of_here.
  - apply list_elem_of_further. now apply IH.
Qed.

Lemma obj_set_keys (k k' : string) (v : JsVal) (o : JsObj) :
  k' ∈ map fst (obj_set k v o) -> k' = k \/ k' ∈ map fst o.
Proof.
  induction o as [|[k0 v0] o IH]; simpl.
  - rewrite list_elem_of_singleton. auto.
  - destruct (String.eqb_spec k k0) as [->|Hne]; simpl; rewrite !elem_of_cons.
    + tauto.
    + intros [->|H]; [tauto|]. destruct (IH H); tauto.
Qed.

Lemma obj_set_NoDup (k : string) (v : JsVal) (o : JsObj) :
  NoDup (map fst o) -> NoDup (map fst (obj_set k v o)).
Proof.
  induction o as [|[k0 v0] o IH]; simpl.
  - intros _. apply NoDup_singleton.
  - rewrite NoDup_cons. intros [Hnot Hnd].
    destruct (String.eqb_spec k k0) as [->|Hne]; simpl; rewrite NoDup_cons.
    + auto.
    + split; [|now apply IH]. intros Hin. destruct (obj_set_keys _ _ _ _ Hin); congruence.
Qed.

Lemma spread_NoDup (base extra : JsObj) :
  NoDup (map fst base) -> NoDup (map fst (spread base extra)).
Proof.
  unfold spread. revert base. induction extra as [|[k v] extra IH]; intros base H; simpl.
  - exact H.
  - apply IH. now apply obj_set_NoDup.
Qed.

Lemma obj_get_rev_NoDup (k : string) (o : JsObj) :
  NoDup (map fst o) -> obj_get k (rev o) = obj_get k o.
Proof.
  induction o as [|[k' v'] o IH]; simpl; [reflexivity|].
  rewrite NoDup_cons. intros [Hnot Hnd]. rewrite obj_get_app, (IH Hnd). simpl.
  destruct (String.eqb_spec k k') as [->|Hne].
  - now rewrite (obj_get_absent _ _ Hnot).
  - now destruct (obj_get k o).
Qed.

(** A copy reads like the original. *)
Lemma obj_get_copy (k : string) (o : JsObj) :
  NoDup (map fst o) -> obj_get k (spread [] o) = obj_get k o.
Proof.
  intros H. rewrite obj_get_spread, (obj_get_rev_NoDup _ _ H). now destruct (obj_get k o).
Qed.

Lemma builtin_defaults_NoDup : NoDup (map fst builtin_defaults).
Proof. apply (bool_decide_unpack _). vm_compute. reflexivity. Qed.

Section Json.

Variable JSON_parse : string -> Outcome JsVal.
Variable JSON_stringify : JsObj -> string.

Lemma constructor_defaults (w : World) :
  defaults (fst (constructor JSON_parse w)) = builtin_defaults.
Proof.
  unfold constructor. now destruct (loadConfig _ _ _ _) as [ref w'].
Qed.

(** X24.  [reset] after [set].  When the manager started without a
    configuration file, [this.config] is the defaults object itself, [set]
    writes into the defaults, and [reset] then brings back the value that
    was set, not the built-in one.  When it started from a file that
    parsed, [reset] brings back the built-in value.  [reset] after
    [update] brings back the built-in value in both cases. *)
Theorem reset_restores_defaults_unless_set_on_shared (w : World) (key : string)
  (value : JsVal) (updates : JsObj) :
  let path := PathMore.join_all [homedir (machine w); ".claude-terminal"; "config.json"] in
  let started := constructor JSON_parse w in
  let after_set := set JSON_stringify key value (fst started) (snd started) in
  let set_then_reset := fst (reset JSON_stringify (fst after_set) (snd after_set)) in
  let after_update := update JSON_stringify updates (fst started) (snd started) in
  let update_then_reset := fst (reset JSON_stringify (fst after_update) (snd after_update)) in
  let builtin := from_option id VUndefined (obj_get key builtin_defaults) in
  (existsSync (machine w) path = false -> get key set_then_reset = value) /\
  (forall content user,
     readFileSync (machine w) path = Returned content ->
     JSON_parse content = Returned user ->
     get key set_then_reset = builtin) /\
  get key update_then_reset = builtin.
Proof.
  cbv zeta. unfold constructor.
  set (path := PathMore.join_all [homedir (machine w); ".claude-terminal"; "config.json"]).
  split; [|split].
  - intros Hex. unfold loadConfig. rewrite Hex.
    unfold set, reset, get, current. cbn [fst snd config defaults configPath].
    now rewrite obj_get_set_eq.
  - intros content user Hread Hparse. unfold loadConfig.
    assert (Hex : existsSync (machine w) path = true).
    { unfold readFileSync in Hread. unfold existsSync.
      destruct (node_at (machine w) path) as [[c|]|]; [reflexivity|discriminate|discriminate]. }
    rewrite Hex, Hread, Hparse. reflexivity.
  - destruct (loadConfig JSON_parse path builtin_defaults w) as [ref w']. reflexivity.
Qed.

(** X25.  What a start reads.  Without a file every key has its built-in
    value.  With a file that parses to an object, a key the file gives has
    the file's (last) value and any other key its built-in value.  With a
    file that does not parse, every key has its built-in value and one
    diagnostic line is written. *)
Theorem constructor_overlay (w : World) (key : string) :
  let path := PathMore.join_all [homedir (machine w); ".claude-terminal"; "config.json"] in
  let started := constructor JSON_parse w in
  let builtin := from_option id VUndefined (obj_get key builtin_defaults) in
  (existsSync (machine w) path = false ->
   get key (fst started) = builtin /\ snd started = w) /\
  (forall content user,
     readFileSync (machine w) path = Returned content ->
     JSON_parse content = Returned (VObj user) ->
     get key (fst started)
     = match obj_get key (rev user) with Some v => v | None => builtin end /\
     snd started = w) /\
  (forall content error,
     readFileSync (machine w) path = Returned content ->
     JSON_parse content = Raised error ->
     get key (fst started) = builtin /\
     snd started
     = console_error ("Failed to load config: " ++ toString (message error)) w).
Proof.
  cbv zeta. unfold constructor.
  set (path := PathMore.join_all [homedir (machine w); ".claude-terminal"; "config.json"]).
  assert (Hexists : forall content,
            readFileSync (machine w) path = Returned content ->
            existsSync (machine w) path = true).
  { intros content Hread. unfold readFileSync in Hread. unfold existsSync.
    destruct (node_at (machine w) path) as [[c|]|]; [reflexivity|discriminate|discriminate]. }
  split; [|split].
  - intros Hex. unfold loadConfig. rewrite Hex. split; reflexivity.
  - intros content user Hread Hparse. unfold loadConfig.
    rewrite (Hexists _ Hread), Hread, Hparse. cbn [fst snd]. split; [|reflexivity].
    unfold get, current. cbn [config own_properties].
    rewrite obj_get_spread, (obj_get_copy _ _ builtin_defaults_NoDup).
    now destruct (obj_get key (rev user)).
  - intros content error Hread Hparse. unfold loadConfig.
    rewrite (Hexists _ Hread), Hread, Hparse. split; reflexivity.
Qed.

Lemma mkdirSync_homedir (m : Machine) (p : string) (recursive : bool) :
  homedir (snd (mkdirSync m p recursive)) = homedir m.
Proof.
  unfold mkdirSync.
  repeat match goal with |- context [if ?c then _ else _] => destruct c end; reflexivity.
Qed.

Lemma loadConfig_machine (path : string) (d : JsObj) (w : World) :
  machine (snd (loadConfig JSON_parse path d w)) = machine w.
Proof.
  unfold loadConfig. destruct (existsSync (machine w) path); [|reflexivity].
  destruct (readFileSync (machine w) path); [|reflexivity].
  now destruct (JSON_parse a).
Qed.

Lemma current_covers_builtin (w : World) (key : string) :
  obj_get key (current (fst (constructor JSON_parse w))) = None ->
  obj_get key (spread [] builtin_defaults) = None.
Proof.
  unfold constructor, loadConfig.
  destruct (existsSync (machine w) _); cbn [fst current config defaults];
    [|intros H; exact H].
  destruct (readFileSync (machine w) _); cbn [fst current config defaults];
    [|intros H; exact H].
  destruct (JSON_parse a); cbn [fst current config defaults];
    [|intros H; exact H].
  rewrite obj_get_spread. now destruct (obj_get key (rev (own_properties a0))).
Qed.

Lemma failed_is_not_saved (msg path : string) :
  "Failed to save config: " ++ msg <> "Config saved to " ++ path.
Proof. rewrite !app_cons. discriminate. Qed.

(** X26.  An update that was saved is what the next start loads: when the save
    reported success and the JSON text of the configuration parses back to
    it, a manager constructed afterwards answers [get] for every key like
    the updated one. *)
Theorem saved_update_is_loaded (w : World) (updates : JsObj) (key : string) :
  let started := constructor JSON_parse w in
  let updated := update JSON_stringify updates (fst started) (snd started) in
  JSON_parse (JSON_stringify (current (fst updated)))
    = Returned (VObj (current (fst updated))) ->
  last (console (snd updated)) = Some ("Config saved to " ++ configPath (fst updated)) ->
  get key (fst (constructor JSON_parse (snd updated))) = get key (fst updated).
Proof.
  cbv zeta. intros Hjson Hsaved.
  pose proof (current_covers_builtin w key) as Hcover.
  unfold constructor in Hjson, Hsaved, Hcover |- * at 1.
  pose proof (loadConfig_machine
                (PathMore.join_all [homedir (machine w); ".claude-terminal"; "config.json"])
                builtin_defaults w) as Hmach.
  unfold constructor in *.
  set (path := PathMore.join_all [homedir (machine w); ".claude-terminal"; "config.json"]) in *.
  destruct (loadConfig JSON_parse path builtin_defaults w) as [ref w1].
  cbn [fst snd] in *.
  unfold update in *. cbn [fst snd current config defaults configPath] in *.
  set (c0 := mkManager path builtin_defaults ref) in *.
  set (X := spread (spread [] (current c0)) updates) in *.
  unfold saveConfig in *. cbn [current config configPath] in *.
  set (dir := PathMore.join_all [homedir (machine w1); ".claude-terminal"]) in *.
  pose proof (mkdirSync_homedir (machine w1) dir true) as Hhome.
  destruct (if negb (existsSync (machine w1) dir) then mkdirSync (machine w1) dir true
            else (Returned tt, machine w1)) as [[[]|e] m1] eqn:Hmk.
  2:{ simpl in Hsaved. rewrite last_snoc in Hsaved.
      apply (f_equal (from_option id "")) in Hsaved. cbn [from_option id] in Hsaved.
      now apply failed_is_not_saved in Hsaved. }
  assert (Hm1 : homedir m1 = homedir (machine w)).
  { rewrite <- Hmach. destruct (negb (existsSync (machine w1) dir)).
    - rewrite Hmk in Hhome. exact Hhome.
    - now injection Hmk as <-. }
  unfold writeFileSync in *.
  destruct (denied m1 path).
  { simpl in Hsaved. rewrite last_snoc in Hsaved.
    apply (f_equal (from_option id "")) in Hsaved. cbn [from_option id] in Hsaved.
    now apply failed_is_not_saved in Hsaved. }
  destruct (is_dir m1 path) eqn:Hdir.
  { simpl in Hsaved. rewrite last_snoc in Hsaved.
    apply (f_equal (from_option id "")) in Hsaved. cbn [from_option id] in Hsaved.
    now apply failed_is_not_saved in Hsaved. }
  destruct (is_dir m1 (Path.parent path)).
  2:{ simpl in Hsaved. rewrite last_snoc in Hsaved.
      apply (f_equal (from_option id "")) in Hsaved. cbn [from_option id] in Hsaved.
      now apply failed_is_not_saved in Hsaved. }
  cbn [machine console_error with_machine with_fs homedir]. rewrite Hm1. fold path.
  assert (Hnode : node_at (with_fs m1 (<[path := File (JSON_stringify X)]> (fs m1))) path
                  = Some (File (JSON_stringify X))).
  { unfold node_at. destruct (String.eqb_spec path "/") as [Hroot|_].
    - rewrite Hroot in Hdir. discriminate.
    - simpl. apply lookup_insert_eq. }
  unfold loadConfig, existsSync, readFileSync.
  cbn [machine console_error with_machine]. unfold with_fs in Hnode |- *.
  rewrite Hnode, Hjson. cbn [fst].
  unfold get, current. cbn [config own_properties].
  assert (HX : NoDup (map fst X)).
  { subst X. apply spread_NoDup, spread_NoDup. apply NoDup_nil_2. }
  rewrite obj_get_spread, (obj_get_rev_NoDup _ _ HX).
  destruct (obj_get key X) eqn:HkX; [reflexivity|].
  subst X. rewrite obj_get_spread in HkX.
  destruct (obj_get key (rev updates)); [discriminate|].
  rewrite obj_get_spread in HkX. simpl in HkX.
  destruct (obj_get key (rev (current c0))) eqn:Hrev; [discriminate|].
  apply obj_get_rev_None in Hrev. rewrite rev_involutive in Hrev.
  now rewrite (Hcover Hrev).
Qed.

End Json.

Lemma reset_restores_defaults_unless_set_on_shared_witness :
  let started := constructor MoreSamples.parse_debug Samples.world0 in
  let after_set :=
    set MoreSamples.stringify_debug "logLevel" (VStr "debug") (fst started) (snd started) in
  get "logLevel" (fst started) = VStr "info" /\
  get "logLevel"
    (fst (reset MoreSamples.stringify_debug (fst after_set) (snd after_set)))
  = VStr "debug".
Proof.
  cbv zeta. split; [reflexivity|].
  destruct (reset_restores_defaults_unless_set_on_shared MoreSamples.parse_debug
              MoreSamples.stringify_debug Samples.world0 "logLevel" (VStr "debug") [])
    as (H & _).
  apply H. vm_compute. reflexivity.
Defined.

Lemma constructor_overlay_witness :
  get "securityMode" (fst (constructor MoreSamples.parse_debug Samples.world0))
  = VStr "standard".
Proof.
  destruct (constructor_overlay MoreSamples.parse_debug Samples.world0 "securityMode")
    as (H & _).
  destruct H as [Hget _]; [vm_compute; reflexivity|]. exact Hget.
Defined.

Lemma saved_update_is_loaded_witness :
  let updated :=
    update MoreSamples.stringify_debug MoreSamples.debug_level
      (fst (constructor MoreSamples.parse_debug Samples.world0))
      (snd (constructor MoreSamples.parse_debug Samples.world0)) in
  get "logLevel" (fst updated) = VStr "debug" /\
  get "logLevel" (fst (constructor MoreSamples.parse_debug (snd updated))) = VStr "debug".
Proof.
  cbv zeta. split; [reflexivity|].
  rewrite (saved_update_is_loaded MoreSamples.parse_debug MoreSamples.stringify_debug
             Samples.world0 MoreSamples.debug_level "logLevel").
  - reflexivity.
  - reflexivity.
  - vm_compute. reflexivity.
Defined.

End ConfigStoreSpec.

(** ** The file system calls *)

Module OsFacts.
Import Os OsMore.

Lemma make_dirs_keeps (paths : list string) (f : gmap string Node) (q : string) :
  q ∉ paths -> make_dirs f paths !! q = f !! q.
Proof.
  unfold make_dirs. revert f.
  induction paths as [|p paths IH]; intros f Hq; simpl; [reflexivity|].
  apply not_elem_of_cons in Hq. destruct Hq as [Hne Hq].
  rewrite (IH _ Hq). now apply lookup_insert_ne.
Qed.

(** A successful [mkdir] leaves what exists as it is. *)
Lemma mkdirSync_keeps (m m' : Machine) (p : string) (recursive : bool) (u : unit)
  (q : string) (n : Node) :
  mkdirSync m p recursive = (Returned u, m') ->
  node_at m q = Some n -> node_at m' q = Some n.
Proof.
  unfold mkdirSync. destruct (denied m p); [discriminate|].
  destruct recursive.
  - destruct (existsb _ _); [discriminate|]. intros [= _ <-] Hq.
    unfold node_at in *. cbn. destruct (String.eqb q "/") eqn:Hroot; [exact Hq|].
    rewrite make_dirs_keeps; [exact Hq|].
    intros Hin. apply list_elem_of_In, filter_In in Hin. destruct Hin as [_ Hnot].
    unfold existsSync, node_at in Hnot. rewrite Hroot, Hq in Hnot. discriminate.
  - destruct (existsSync m p) eqn:Hex; [discriminate|].
    destruct (is_dir m (Path.parent p)); [|discriminate]. intros [= _ <-] Hq.
    unfold node_at in *. cbn. destruct (String.eqb q "/") eqn:Hroot; [exact Hq|].
    rewrite lookup_insert_ne; [exact Hq|].
    intros ->. unfold existsSync, node_at in Hex. rewrite Hroot, Hq in Hex. discriminate.
Qed.

Lemma node_at_insert (m : Machine) (p : string) (n : Node) (q : string) :
  is_dir m p = false ->
  node_at (with_fs m (<[p := n]> (fs m))) q = if String.eqb q p then Some n else node_at m q.
Proof.
  intros Hdir. unfold node_at. cbn.
  destruct (String.eqb_spec q p) as [->|Hne].
  - destruct (String.eqb_spec p "/") as [->|_]; [discriminate|]. apply lookup_insert_eq.
  - destruct (String.eqb q "/"); [reflexivity|]. now apply lookup_insert_ne.
Qed.

Lemma writeFileSync_post (m m' : Machine) (p content : string) (u : unit) :
  writeFileSync m p content = (Returned u, m') ->
  cwd m' = cwd m /\ homedir m' = homedir m /\
  forall q, node_at m' q = if String.eqb q p then Some (File content) else node_at m q.
Proof.
  unfold writeFileSync. destruct (denied m p); [discriminate|].
  destruct (is_dir m p) eqn:Hdir; [discriminate|].
  destruct (is_dir m (Path.parent p)); [|discriminate]. intros [= _ <-].
  split; [reflexivity|]. split; [reflexivity|]. intros q. now apply node_at_insert.
Qed.

Lemma copyFileSync_post (m m' : Machine) (src dest : string) (u : unit) :
  copyFileSync m src dest = (Returned u, m') ->
  exists c, node_at m src = Some (File c) /\
  cwd m' = cwd m /\ homedir m' = homedir m /\
  forall q, node_at m' q = if String.eqb q dest then Some (File c) else node_at m q.
Proof.
  unfold copyFileSync. destruct (node_at m src) as [[c|]|]; try discriminate.
  destruct (denied m dest); [discriminate|].
  destruct (is_dir m dest) eqn:Hdir; [discriminate|].
  destruct (is_dir m (Path.parent dest)); [|discriminate]. intros [= _ <-].
  exists c. split; [reflexivity|]. split; [reflexivity|]. split; [reflexivity|].
  intros q. now apply node_at_insert.
Qed.

Lemma copyFileSync_frame (m : Machine) (src dest : string) :
  cwd (snd (copyFileSync m src dest)) = cwd m /\
  homedir (snd (copyFileSync m src dest)) = homedir m.
Proof.
  unfold copyFileSync. destruct (node_at m src) as [[c|]|]; try (split; reflexivity).
  repeat match goal with |- context [if ?c then _ else _] => destruct c end;
    split; reflexivity.
Qed.

Lemma node_at_delete (m : Machine) (p : string) (c : string) (q : string) :
  node_at m p = Some (File c) ->
  node_at (with_fs m (delete p (fs m))) q = if String.eqb q p then None else node_at m q.
Proof.
  intros Hp. unfold node_at in *. cbn.
  destruct (String.eqb_spec q p) as [->|Hne].
  - destruct (String.eqb p "/"); [discriminate|]. apply lookup_delete_eq.
  - destruct (String.eqb q "/"); [reflexivity|]. now apply lookup_delete_ne.
Qed.

Lemma unlinkSync_post (m m' : Machine) (p : string) (u : unit) :
  unlinkSync m p = (Returned u, m') ->
  cwd m' = cwd m /\ homedir m' = homedir m /\
  forall q, node_at m' q = if String.eqb q p then None else node_at m q.
Proof.
  unfold unlinkSync. destruct (node_at m p) as [[c|]|] eqn:Hp; try discriminate.
  destruct (denied m p); [discriminate|]. intros [= _ <-].
  split; [reflexivity|]. split; [reflexivity|]. intros q. now apply (node_at_delete m p c).
Qed.

(** Renaming a regular file to another path. *)
Lemma renameSync_post (m m' : Machine) (src dest c : string) (u : unit) :
  node_at m src = Some (File c) -> src <> dest ->
  renameSync m src dest = (Returned u, m') ->
  cwd m' = cwd m /\ homedir m' = homedir m /\
  forall q, node_at m' q =
            if String.eqb q dest then Some (File c)
            else if String.eqb q src then None else node_at m q.
Proof.
  intros Hsrc Hne. unfold renameSync. rewrite Hsrc.
  destruct (denied m src || denied m dest)%bool; [discriminate|].
  destruct (negb (is_dir m (Path.parent dest))); [discriminate|].
  apply String.eqb_neq in Hne. rewrite Hne.
  destruct (is_dir m dest) eqn:Hdir; [discriminate|]. intros [= _ <-].
  split; [reflexivity|]. split; [reflexivity|]. intros q.
  unfold node_at in *. cbn.
  destruct (String.eqb_spec q dest) as [->|Hqd].
  - destruct (String.eqb_spec dest "/") as [->|_]; [discriminate|]. apply lookup_insert_eq.
  - destruct (String.eqb_spec q "/") as [->|Hroot].
    + destruct (String.eqb_spec "/" src) as [<-|_]; [|reflexivity].
      discriminate.
    + rewrite lookup_insert_ne by congruence.
      destruct (String.eqb_spec q src) as [->|Hqs].
      * apply lookup_delete_eq.
      * now apply lookup_delete_ne.
Qed.

End OsFacts.

(** ** Files: writing, reading, copying, moving, deleting *)

Module FileUtilsMoreSpec.
Import Os OsMore FileUtils FileUtilsMore FileConstants OsFacts JsFacts DirectoryOperationsTool.

Section Files.

Variable accessSync : Machine -> string -> AccessMode -> bool.
Variable encode : string -> string -> string.
Variable decode : string -> string -> string.

Lemma getFileStats_file (m : Machine) (p c : string) :
  node_at m p = Some (File c) ->
  getFileStats m p =
    Returned (VObj [("size", VNum (Z.of_nat (String.length c)));
                    ("is_file", VBool true); ("is_directory", VBool false);
                    ("is_symbolic_link", VBool false)]).
Proof. intros H. unfold getFileStats, statSync. now rewrite H. Qed.

(** What a successful [writeFileWithMetadata] leaves behind. *)
Lemma writeFileWithMetadata_post (m m' : Machine) (fp content : string) (enc : JsVal)
  (cd : bool) (result : JsObj) :
  writeFileWithMetadata accessSync encode m fp content enc cd = (Returned result, m') ->
  exists np e,
    validateAndNormalizePath m fp = Returned np /\
    validateEncoding enc = Returned e /\
    Z.of_nat (String.length (encode e content)) <= FILE_LIMITS.MAX_WRITE_SIZE /\
    cwd m' = cwd m /\ homedir m' = homedir m /\
    node_at m' np = Some (File (encode e content)) /\
    (forall q n, q <> np -> node_at m q = Some n -> node_at m' q = Some n) /\
    exists created previous_size stats permissions,
      result = [("file_path", VStr np);
                ("content_size", VNum (Z.of_nat (String.length (encode e content))));
                ("encoding", VStr e); ("created", created);
                ("previous_size", previous_size); ("stats", stats);
                ("permissions", permissions)].
Proof.
  unfold writeFileWithMetadata.
  destruct (validateAndNormalizePath m fp) as [np|err]; [|discriminate].
  destruct (validateEncoding enc) as [e|err]; [|discriminate].
  destruct (Z.gtb_spec (Z.of_nat (String.length (encode e content)))
              FILE_LIMITS.MAX_WRITE_SIZE) as [Hbig|Hsmall]; [discriminate|].
  set (parentDir := PathMore.dirname np).
  destruct (if (cd && negb (existsSync m parentDir))%bool
            then mkdirSync m parentDir true else (Returned tt, m)) as [[u|err] m1] eqn:Hmk;
    [|discriminate].
  assert (Hm1 : cwd m1 = cwd m /\ homedir m1 = homedir m /\
                forall q n, node_at m q = Some n -> node_at m1 q = Some n).
  { destruct (cd && negb (existsSync m parentDir))%bool.
    - destruct (DirectoryOperationsToolSpec.mkdirSync_effect _ _ _ _ _ Hmk) as (Hc & Hh & _).
      split; [exact Hc|]. split; [exact Hh|]. intros q n. now apply (mkdirSync_keeps _ _ _ _ _ _ _ Hmk).
    - injection Hmk as _ <-. auto. }
  destruct Hm1 as (Hc1 & Hh1 & Hkeep).
  destruct (negb (existsSync m1 parentDir)); [discriminate|].
  destruct (negb (checkFileAccess accessSync m1 parentDir W_OK)); [discriminate|].
  destruct (existsSync m1 np && negb (checkFileAccess accessSync m1 np W_OK))%bool;
    [discriminate|].
  destruct (if existsSync m1 np
            then match getFileStats m1 np with
                 | Returned stats => Returned (Some stats)
                 | Raised e0 => Raised e0
                 end
            else Returned None) as [beforeStats|err]; [|discriminate].
  destruct (writeFileSync m1 np (encode e content)) as [[u'|err] m2] eqn:Hwr; [|discriminate].
  destruct (writeFileSync_post _ _ _ _ _ Hwr) as (Hc2 & Hh2 & Hnodes).
  destruct (getFileStats m2 np) as [afterStats|err]; [|discriminate].
  intros [= <- <-]. exists np, e.
  split; [reflexivity|]. split; [reflexivity|]. split; [exact Hsmall|].
  split; [congruence|]. split; [congruence|]. split.
  { rewrite Hnodes. now rewrite String.eqb_refl. }
  split.
  { intros q n Hq Hn. rewrite Hnodes. apply String.eqb_neq in Hq. rewrite Hq. now apply Hkeep. }
  eexists _, _, _, _. reflexivity.
Qed.

(** Reading a regular file that is small enough. *)
Lemma readFileWithMetadata_file (m : Machine) (fp np bytes e : string) (enc : JsVal) :
  validateAndNormalizePath m fp = Returned np ->
  node_at m np = Some (File bytes) ->
  Z.of_nat (String.length bytes) <= FILE_LIMITS.MAX_READ_SIZE ->
  validateEncoding enc = Returned e ->
  readFileWithMetadata accessSync decode m fp enc =
    Returned [("file_path", VStr np); ("content", VStr (decode e bytes));
              ("encoding", VStr e);
              ("stats", VObj [("size", VNum (Z.of_nat (String.length bytes)));
                              ("is_file", VBool true); ("is_directory", VBool false);
                              ("is_symbolic_link", VBool false)]);
              ("permissions", getFilePermissions accessSync m np)].
Proof.
  intros Hv Hn Hsize He. unfold readFileWithMetadata. rewrite Hv.
  unfold existsSync, statSync, readFileSync. rewrite Hn. cbn [negb].
  destruct (Z.gtb_spec (Z.of_nat (String.length bytes)) FILE_LIMITS.MAX_READ_SIZE); [lia|].
  rewrite He, (getFileStats_file _ _ _ Hn). reflexivity.
Qed.

End Files.

End FileUtilsMoreSpec.

(** ** The file tools *)

Module FileToolsSpec.
Import Os OsMore FileUtils FileUtilsMore FileConstants OsFacts JsFacts DirectoryOperationsTool.
Import FileUtilsMoreSpec.

Section Tools.

Variable accessSync : Machine -> string -> AccessMode -> bool.
Variable encode : string -> string -> string.
Variable decode : string -> string -> string.
Variable now : string.
Variable JSON_valid : string -> bool.

Lemma createBackup_frame (m : Machine) (fp : string) :
  cwd (snd (FileWriteTool.createBackup now m fp)) = cwd m /\
  homedir (snd (FileWriteTool.createBackup now m fp)) = homedir m.
Proof.
  unfold FileWriteTool.createBackup.
  destruct (validateAndNormalizePath m fp) as [np|err]; [|split; reflexivity].
  destruct (negb (existsSync m np)); [split; reflexivity|].
  pose proof (copyFileSync_frame m np (np ++ ".backup-" ++ FileWriteTool.dashed now)) as H.
  destruct (copyFileSync m np (np ++ ".backup-" ++ FileWriteTool.dashed now)) as [[u|e] m1];
    exact H.
Qed.

(** What a [file_write] that succeeded went through. *)
Lemma run_write_inv (wargs : JsObj) (w w' : World) (result : JsObj) (fp : string) :
  arg "file_path" wargs = VStr fp ->
  FileWriteTool.run accessSync encode now wargs w = (Returned result, w') ->
  exists backupInfo m1 result0 m2,
    (if truthy (default_to (VBool false) (arg "backup" wargs))
     then FileWriteTool.createBackup now (machine w) fp
     else (VNull, machine w)) = (backupInfo, m1) /\
    writeFileWithMetadata accessSync encode m1 fp (toString (arg "content" wargs))
      (default_to (VStr "utf8") (arg "encoding" wargs))
      (truthy (default_to (VBool false) (arg "create_directories" wargs)))
    = (Returned result0, m2) /\
    w' = with_machine w m2 /\
    result = spread (spread [("operation", VStr "file_write")] result0)
               [("backup_created", backupInfo);
                ("content_preview",
                 FileWriteTool.preview_object
                   (FileWriteTool.createContentPreview (toString (arg "content" wargs)) 200))].
Proof.
  intros Hfp. unfold FileWriteTool.run. rewrite Hfp.
  destruct (String.eqb fp ""); [discriminate|].
  destruct (if truthy (default_to (VBool false) (arg "backup" wargs))
            then FileWriteTool.createBackup now (machine w) fp
            else (VNull, machine w)) as [backupInfo m1].
  destruct (arg "content" wargs) as [| |b|n|s|o]; try discriminate;
    match goal with
    | |- context [writeFileWithMetadata ?a ?b ?c ?d ?e ?f ?g] =>
        destruct (writeFileWithMetadata a b c d e f g) as [[result0|err] m2] eqn:Hw;
        [|discriminate]
    end;
    intros [= <- <-]; exists backupInfo, m1, result0, m2;
    (split; [reflexivity | split; [exact Hw | split; reflexivity]]).
Qed.


Lemma append_longer (s t : string) : t <> "" -> s ++ t <> s.
Proof.
  intros Ht H. apply (f_equal String.length) in H.
  rewrite ContentPreviewSpec.length_app in H. destruct t; [contradiction|]. simpl in H. lia.
Qed.

(** X17.  A write with [backup] over an existing file.  When the write
    succeeds, the file holds the new bytes, and either the result reports
    the backup under the path with the [.backup-] suffix and the time
    stamp, and that path holds the previous content; or the result reports
    that the backup failed, with the error's message: a backup that cannot
    be made does not stop the write. *)
Theorem backup_keeps_previous_content (wargs : JsObj) (w w' : World) (result : JsObj)
  (fp np old : string) :
  arg "file_path" wargs = VStr fp ->
  truthy (default_to (VBool false) (arg "backup" wargs)) = true ->
  validateAndNormalizePath (machine w) fp = Returned np ->
  node_at (machine w) np = Some (File old) ->
  FileWriteTool.run accessSync encode now wargs w = (Returned result, w') ->
  let backupPath := np ++ ".backup-" ++ FileWriteTool.dashed now in
  (exists e,
     validateEncoding (default_to (VStr "utf8") (arg "encoding" wargs)) = Returned e /\
     node_at (machine w') np = Some (File (encode e (toString (arg "content" wargs))))) /\
  ((obj_get "backup_created" result
    = Some (VObj [("backup_created", VBool true); ("backup_path", VStr backupPath);
                  ("timestamp", VStr (FileWriteTool.dashed now))]) /\
    node_at (machine w') backupPath = Some (File old)) \/
   (exists error,
      copyFileSync (machine w) np backupPath = (Raised error, machine w) /\
      obj_get "backup_created" result
      = Some (VObj [("backup_created", VBool false); ("error", message error)]))).
Proof.
  intros Hfp Hbackup Hv Hold Hrun backupPath.
  destruct (run_write_inv _ _ _ _ _ Hfp Hrun)
    as (backupInfo & m1 & result0 & m2 & Hb & Hw & -> & ->).
  rewrite Hbackup in Hb. unfold FileWriteTool.createBackup in Hb.
  rewrite Hv in Hb. unfold existsSync in Hb. rewrite Hold in Hb. cbn [negb] in Hb.
  fold backupPath in Hb.
  destruct (writeFileWithMetadata_post _ _ _ _ _ _ _ _ _ Hw)
    as (np' & e & Hv' & He & _ & Hc2 & Hh2 & Hnode & Hkeep & cr & ps & st & pm & ->).
  destruct (copyFileSync (machine w) np backupPath) as [[u|error] m1'] eqn:Hcopy.
  - injection Hb as <- <-.
    destruct (copyFileSync_post _ _ _ _ _ Hcopy) as (c & Hsrc & Hc1 & Hh1 & Hnodes).
    assert (c = old) by congruence. subst c.
    assert (np' = np).
    { rewrite (DirectoryOperationsToolSpec.validate_same_process (machine w) m1' fp Hc1 Hh1)
        in Hv'. congruence. }
    subst np'. cbn [machine with_machine]. split.
    + exists e. split; [exact He | exact Hnode].
    + left. split; [reflexivity|].
      apply Hkeep.
      * apply append_longer. discriminate.
      * rewrite Hnodes. now rewrite String.eqb_refl.
  - injection Hb as <- <-.
    assert (Hm : m1' = machine w).
    { unfold copyFileSync in Hcopy.
      destruct (node_at (machine w) np) as [[c|]|];
        repeat match type of Hcopy with
               | context [if ?b then _ else _] => destruct b
               end; congruence. }
    subst m1'. assert (np' = np) by congruence. subst np'.
    cbn [machine with_machine]. split.
    + exists e. split; [exact He | exact Hnode].
    + right. exists error. split; reflexivity.
Qed.

(** X19.  Reading what is not a readable file.  A path that is not a non-empty
    string is a protocol error.  A validated path that is missing, or that
    is a directory, is not: the call returns a failure envelope carrying
    the message of the check, with the normalized path, and the world is
    untouched. *)
Theorem file_read_refusals (schema : JsVal) (args : JsObj) (startTime endTime : Z)
  (w : World) :
  let t := FileReadTool.tool JSON_valid accessSync decode schema in
  ((forall fp, arg "file_path" args = VStr fp -> fp = "") ->
   BaseTool.execute t args startTime endTime w
   = (Raised (McpError InvalidParams "file_path must be a non-empty string"), w)) /\
  (forall fp np,
     arg "file_path" args = VStr fp ->
     validateAndNormalizePath (machine w) fp = Returned np ->
     (node_at (machine w) np = None ->
      BaseTool.execute t args startTime endTime w
      = (Returned [("success", VBool false);
                   ("execution_time_ms", VNum (endTime - startTime));
                   ("error", VStr ("File not found: " ++ np))], w)) /\
     (node_at (machine w) np = Some Dir ->
      BaseTool.execute t args startTime endTime w
      = (Returned [("success", VBool false);
                   ("execution_time_ms", VNum (endTime - startTime));
                   ("error", VStr ("Path is not a file: " ++ np))], w))).
Proof.
  cbv zeta. unfold BaseTool.execute, FileReadTool.tool. cbn [BaseTool.run].
  unfold FileReadTool.run. split.
  - intros Hfp. destruct (arg "file_path" args) as [| |b|n|s|o]; try reflexivity.
    now rewrite (Hfp s eq_refl).
  - intros fp np Hfp Hv. rewrite Hfp.
    assert (Hne : String.eqb fp "" = false)
      by exact (DirectoryOperationsToolSpec.validate_nonempty _ _ _ Hv).
    rewrite Hne. unfold readFileWithMetadata. rewrite Hv. unfold existsSync, statSync.
    split; intros ->; reflexivity.
Qed.

End Tools.


Lemma backup_keeps_previous_content_witness :
  exists result w',
    FileWriteTool.run MoreSamples.access_all MoreSamples.plain MoreSamples.noon
      MoreSamples.write_notes Samples.world0 = (Returned result, w') /\
    node_at (machine w') "/home/u/notes.txt" = Some (File "second draft") /\
    node_at (machine w') "/home/u/notes.txt.backup-2024-05-01T12-00-00-000Z"
      = Some (File "hello").
Proof.
  destruct (FileWriteTool.run MoreSamples.access_all MoreSamples.plain MoreSamples.noon
              MoreSamples.write_notes Samples.world0) as [[result|e] w'] eqn:Hrun;
    [|vm_compute in Hrun; discriminate].
  destruct (backup_keeps_previous_content MoreSamples.access_all MoreSamples.plain
              MoreSamples.noon MoreSamples.write_notes Samples.world0 w' result
              MoreSamples.notes MoreSamples.notes "hello"
              eq_refl eq_refl eq_refl eq_refl Hrun)
    as ((e & He & Hnew) & [[_ Hold] | (error & Hcopy & _)]).
  - injection He as <-. exists result, w'. split; [reflexivity|].
    split; [exact Hnew | exact Hold].
  - vm_compute in Hcopy. discriminate.
Defined.

Lemma file_read_refusals_witness :
  BaseTool.execute
    (FileReadTool.tool MoreSamples.never_json MoreSamples.access_all MoreSamples.plain
       (VObj []))
    MoreSamples.read_missing 0 3 Samples.world0
  = (Returned [("success", VBool false); ("execution_time_ms", VNum 3);
               ("error", VStr "File not found: /home/u/absent.txt")], Samples.world0).
Proof.
  destruct (file_read_refusals MoreSamples.access_all MoreSamples.plain
              MoreSamples.never_json (VObj []) MoreSamples.read_missing 0 3 Samples.world0)
    as [_ H].
  destruct (H "/home/u/absent.txt" "/home/u/absent.txt" eq_refl eq_refl) as [Hmissing _].
  exact (Hmissing eq_refl).
Defined.

End FileToolsSpec.

(** ** The directory of a path *)

Module DirnameFacts.
Import StrMore StrMoreFacts PathFacts PathMore.

Lemma chars_app (a b : string) :
  list_ascii_of_string (a ++ b) = (list_ascii_of_string a ++ list_ascii_of_string b)%list.
Proof.
  induction a as [|x a IH]; [reflexivity|]. rewrite app_cons. simpl. now rewrite IH.
Qed.

Lemma drop_while_all (f : ascii -> bool) (l k : list ascii) :
  Forall (fun a => f a = true) l -> drop_while f (l ++ k) = drop_while f k.
Proof.
  induction 1 as [|a l Ha Hl IH]; [reflexivity|]. simpl. now rewrite Ha.
Qed.

Lemma no_slash_chars (s : string) :
  contains_char "/" s = false ->
  Forall (fun a => negb (is_slash a) = true) (list_ascii_of_string s).
Proof.
  induction s as [|a s IH]; simpl; [constructor|].
  intros H. apply orb_false_iff in H. destruct H as [Ha Hs].
  constructor; [unfold is_slash; now rewrite Ha | now apply IH].
Qed.

Lemma dirname_of_segments (segs : list string) :
  Forall (fun s => clean s = true) segs ->
  dirname (Path.of_segments segs) = Path.of_segments (removelast segs).
Proof.
  intros Hclean. destruct segs as [|x rest] using rev_ind; [reflexivity|].
  clear IHrest. rewrite removelast_last.
  apply Forall_app in Hclean. destruct Hclean as [Hinit Hlast].
  inversion Hlast as [|? ? Hx _]; subst.
  destruct (clean_parts _ Hx) as (Hne & _ & _ & Hns).
  unfold Path.of_segments. change ("/" ++ ?s) with (String "/" s).
  unfold dirname. cbn [is_slash Ascii.eqb Bool.eqb andb].
  destruct x as [|x0 x']; [contradiction|].
  assert (Hrev : rev (list_ascii_of_string (Str.join "/" (rest ++ [String x0 x'])))
                 = (rev (list_ascii_of_string (String x0 x'))
                      ++ match rest with
                         | [] => []
                         | _ => "/"%char :: rev (list_ascii_of_string (Str.join "/" rest))
                         end)%list).
  { destruct rest as [|y rest'].
    - simpl. now rewrite app_nil_r.
    - rewrite join_snoc by discriminate. rewrite !chars_app, !rev_app_distr.
      simpl. now rewrite <- app_assoc. }
  rewrite Hrev.
  assert (Hhead : exists a l, rev (list_ascii_of_string (String x0 x')) = a :: l /\
                              is_slash a = false /\
                              Forall (fun b => negb (is_slash b) = true) (a :: l)).
  { pose proof (no_slash_chars _ Hns) as Hall.
    apply Forall_rev in Hall.
    destruct (rev (list_ascii_of_string (String x0 x'))) as [|a l] eqn:E.
    - apply (f_equal (@length ascii)) in E. rewrite length_rev in E. discriminate.
    - exists a, l. split; [reflexivity|]. split; [|exact Hall].
      inversion Hall as [|? ? Ha _]; subst. now apply negb_true_iff in Ha. }
  destruct Hhead as (a & l & -> & Ha & Hall).
  cbn [app drop_while]. rewrite Ha.
  change (a :: (l ++ ?k)%list) with ((a :: l) ++ k)%list.
  rewrite (drop_while_all _ _ _ Hall).
  destruct rest as [|y rest']; [reflexivity|].
  cbn [drop_while is_slash Ascii.eqb Bool.eqb negb].
  rewrite length_rev.
  assert (Hlen : Nat.eqb (length (list_ascii_of_string (Str.join "/" (y :: rest')))) 0 = false).
  { apply Nat.eqb_neq. intros H0.
    apply (PathIdempotence.join_clean_nonempty (y :: rest')); [discriminate | exact Hinit |].
    destruct (Str.join "/" (y :: rest')); [reflexivity | discriminate]. }
  rewrite Hlen, rev_involutive, string_of_list_ascii_of_string. reflexivity.
Qed.

Lemma filter_clean (segs : list string) :
  Forall (fun s => clean s = true) segs ->
  List.filter (fun seg => negb (String.eqb seg "")) segs = segs.
Proof.
  induction 1 as [|y l Hy Hl IH]; [reflexivity|].
  destruct (clean_parts _ Hy) as (Hne & _). apply String.eqb_neq in Hne.
  cbn [List.filter]. rewrite Hne. cbn [negb]. now rewrite IH.
Qed.

Lemma segments_of_segments (segs : list string) :
  Forall (fun s => clean s = true) segs ->
  Path.segments (Path.of_segments segs) = segs.
Proof.
  intros Hclean. destruct segs as [|x rest]; [reflexivity|].
  unfold Path.segments. rewrite split_of_segments by (discriminate || exact Hclean).
  change (List.filter (fun seg => negb (String.eqb seg "")) ("" :: x :: rest))
    with (List.filter (fun seg => negb (String.eqb seg "")) (x :: rest)).
  now apply filter_clean.
Qed.

(** On a validated path [dirname] is the containing directory. *)
Lemma dirname_validated (m : Os.Machine) (filePath normalizedPath : string) :
  Path.isAbsolute (Os.cwd m) = true ->
  FileUtils.validateAndNormalizePath m filePath = Returned normalizedPath ->
  dirname normalizedPath = Path.parent normalizedPath.
Proof.
  intros Habs Hv.
  destruct (PathIdempotence.validated_shape m _ _ Habs Hv) as (segs & -> & Hclean).
  unfold Path.parent. rewrite (segments_of_segments _ Hclean).
  now apply dirname_of_segments.
Qed.

End DirnameFacts.

(** ** Copying, moving and deleting files *)

Module FileOperationsSpec.
Import Os OsMore FileUtils FileUtilsMore OsFacts JsFacts.

Lemma getFileStats_returns (m : Machine) (p : string) (n : Node) :
  node_at m p = Some n -> exists stats, getFileStats m p = Returned stats.
Proof. intros H. unfold getFileStats, statSync. rewrite H. eauto. Qed.

Lemma ensure_parent_present (m : Machine) (nd : string) :
  is_dir m (PathMore.dirname nd) = true -> ensure_parent m nd = (Returned tt, m).
Proof.
  intros H. unfold ensure_parent, existsSync. unfold is_dir in H.
  now destruct (node_at m (PathMore.dirname nd)) as [[c|]|].
Qed.

(** X20.  Deleting a file.  On a path that validates: a missing file is an
    error, or with [force] a result with [existed: false], and nothing
    changes; a directory is refused and nothing changes; a file the OS lets
    go is removed, every other path stays as it was, and a second forced
    delete reports [existed: false]. *)
Theorem deleteFile_contract (m : Machine) (fp np : string) (force : bool) :
  validateAndNormalizePath m fp = Returned np ->
  match node_at m np with
  | None =>
      deleteFile m fp force =
        if force
        then (Returned [("operation", VStr "delete"); ("file_path", VStr np);
                        ("existed", VBool false)], m)
        else (Raised (Error ("File not found: " ++ np)), m)
  | Some Dir =>
      deleteFile m fp force =
        (Raised (Error ("Path is a directory, not a file: " ++ np)), m)
  | Some (File c) =>
      denied m np = false ->
      exists result m',
        deleteFile m fp force = (Returned result, m') /\
        obj_get "existed" result = Some (VBool true) /\
        obj_get "file_path" result = Some (VStr np) /\
        node_at m' np = None /\
        (forall q, q <> np -> node_at m' q = node_at m q) /\
        deleteFile m' fp true =
          (Returned [("operation", VStr "delete"); ("file_path", VStr np);
                     ("existed", VBool false)], m')
  end.
Proof.
  intros Hv. destruct (node_at m np) as [[c|]|] eqn:Hn.
  - intros Hden. unfold deleteFile at 1. rewrite Hv. unfold existsSync. rewrite Hn.
    cbn [negb]. unfold getFileStats, statSync. rewrite Hn. cbn [is_directory_of obj_get
      String.eqb Ascii.eqb Bool.eqb from_option id truthy].
    unfold unlinkSync. rewrite Hn, Hden.
    eexists _, _. split; [reflexivity|]. split; [reflexivity|]. split; [reflexivity|].
    pose proof (node_at_delete m np c) as Hdel.
    split; [rewrite (Hdel np Hn); now rewrite String.eqb_refl|].
    split.
    + intros q Hq. rewrite (Hdel q Hn). apply String.eqb_neq in Hq. now rewrite Hq.
    + unfold deleteFile.
      change (validateAndNormalizePath (with_fs m ?f) fp) with (validateAndNormalizePath m fp).
      rewrite Hv.
      unfold existsSync. rewrite (Hdel np Hn), String.eqb_refl. reflexivity.
  - unfold deleteFile. rewrite Hv. unfold existsSync. rewrite Hn. cbn [negb].
    unfold getFileStats, statSync. rewrite Hn. reflexivity.
  - unfold deleteFile. rewrite Hv. unfold existsSync. rewrite Hn. cbn [negb].
    now destruct force.
Qed.


(** X22.  Moving a file.  An existing destination without [overwrite] is refused
    and nothing changes.  When the source is a file, the destination is
    another path that is free or may be overwritten, is not a directory,
    lies in an existing directory and the OS allows the change, the move
    succeeds: afterwards the destination holds the content, the source path
    is gone, and every other path is as it was. *)
Theorem moveFile_contract (m : Machine) (src dst ns nd : string) (overwrite : bool) :
  Path.isAbsolute (cwd m) = true ->
  validateAndNormalizePath m src = Returned ns ->
  validateAndNormalizePath m dst = Returned nd ->
  (node_at m ns = None ->
   moveFile m src dst overwrite = (Raised (Error ("Source file not found: " ++ ns)), m)) /\
  (forall n, node_at m ns = Some n -> existsSync m nd = true -> overwrite = false ->
   moveFile m src dst overwrite = (Raised (Error ("Destination already exists: " ++ nd)), m)) /\
  (forall c, node_at m ns = Some (File c) -> ns <> nd ->
   (existsSync m nd && negb overwrite)%bool = false ->
   is_dir m nd = false -> denied m ns = false -> denied m nd = false ->
   is_dir m (Path.parent nd) = true ->
   exists result m',
     moveFile m src dst overwrite = (Returned result, m') /\
     obj_get "source" result = Some (VStr ns) /\
     obj_get "destination" result = Some (VStr nd) /\
     node_at m' nd = Some (File c) /\ node_at m' ns = None /\
     (forall q, q <> nd -> q <> ns -> node_at m' q = node_at m q)).
Proof.
  intros Habs Hs Hd. unfold moveFile. rewrite Hs, Hd. unfold existsSync.
  split; [|split].
  - now intros ->.
  - intros n -> Hex ->. unfold existsSync in Hex. cbn [negb].
    destruct (node_at m nd); [reflexivity|discriminate].
  - intros c Hn Hne Hfree Hnotdir Hdens Hdend Hparent. rewrite Hn. cbn [negb].
    unfold existsSync in Hfree. rewrite Hfree.
    unfold transfer.
    rewrite <- (DirnameFacts.dirname_validated m dst nd Habs Hd) in Hparent.
    rewrite (ensure_parent_present _ _ Hparent).
    rewrite (DirnameFacts.dirname_validated m dst nd Habs Hd) in Hparent.
    unfold getFileStats at 1. unfold statSync. rewrite Hn.
    destruct (renameSync m ns nd) as [[u|e] m'] eqn:Hren.
    + destruct (renameSync_post _ _ _ _ _ _ Hn Hne Hren) as (_ & _ & Hnodes).
      assert (Hnd : node_at m' nd = Some (File c)).
      { rewrite Hnodes. now rewrite String.eqb_refl. }
      unfold getFileStats, statSync. rewrite Hnd.
      eexists _, _. split; [reflexivity|]. split; [reflexivity|]. split; [reflexivity|].
      split; [exact Hnd|]. split.
      * rewrite Hnodes. apply String.eqb_neq in Hne. now rewrite Hne, String.eqb_refl.
      * intros q Hq1 Hq2. rewrite Hnodes.
        apply String.eqb_neq in Hq1, Hq2. now rewrite Hq1, Hq2.
    + exfalso. unfold renameSync in Hren. rewrite Hn, Hdens, Hdend, Hparent in Hren.
      apply String.eqb_neq in Hne. cbn [orb negb] in Hren. rewrite Hne, Hnotdir in Hren.
      discriminate.
Qed.

(** X15.  Asking whether a directory exists.  On a path that validates the
    question is always answered, never refused: [exists] is [true] for a
    directory and [false] for a missing path and for a file.  After a
    directory creation that succeeded, the answer for the same path is
    [true]. *)
Theorem checkDirectoryExists_answers (m : Machine) (p np : string) :
  validateAndNormalizePath m p = Returned np ->
  (exists answer,
     checkDirectoryExists m p = Returned answer /\
     obj_get "directory_path" answer = Some (VStr np) /\
     obj_get "exists" answer = Some (VBool (is_dir m np))) /\
  (forall recursive w w1 result,
     machine w = m ->
     createDirectory p recursive w = (Returned result, w1) ->
     exists answer,
       checkDirectoryExists (machine w1) p = Returned answer /\
       obj_get "exists" answer = Some (VBool true)).
Proof.
  intros Hv.
  assert (Hanswer : forall m0 np0,
            validateAndNormalizePath m0 p = Returned np0 ->
            exists answer,
              checkDirectoryExists m0 p = Returned answer /\
              obj_get "directory_path" answer = Some (VStr np0) /\
              obj_get "exists" answer = Some (VBool (is_dir m0 np0))).
  { intros m0 np0 Hv0. unfold checkDirectoryExists. rewrite Hv0.
    unfold existsSync, statSync, is_dir, getFileStats, statSync.
    destruct (node_at m0 np0) as [[c|]|]; cbn [negb];
      eexists; (split; [reflexivity|]); split; reflexivity. }
  split; [now apply Hanswer|].
  intros recursive w w1 result <- Hcreate.
  destruct (DirectoryOperationsToolSpec.createDirectory_post _ _ _ _ _ _ Hv Hcreate)
    as [Hv1 Hdir].
  destruct (Hanswer _ _ Hv1) as (answer & Hret & _ & Hex).
  exists answer. split; [exact Hret|]. now rewrite Hex, Hdir.
Qed.

Lemma deleteFile_contract_witness :
  exists result m',
    deleteFile Samples.machine0 "/home/u/docs/../notes.txt" false = (Returned result, m') /\
    obj_get "existed" result = Some (VBool true) /\
    node_at m' "/home/u/notes.txt" = None /\
    deleteFile m' "/home/u/docs/../notes.txt" true
    = (Returned [("operation", VStr "delete"); ("file_path", VStr "/home/u/notes.txt");
                 ("existed", VBool false)], m').
Proof.
  pose proof (deleteFile_contract Samples.machine0 "/home/u/docs/../notes.txt"
                "/home/u/notes.txt" false eq_refl) as H.
  change (node_at Samples.machine0 "/home/u/notes.txt") with (Some (File "hello")) in H.
  destruct (H eq_refl) as (result & m' & Hrun & Hexisted & _ & Hgone & _ & Hagain).
  exists result, m'. split; [exact Hrun|]. split; [exact Hexisted|].
  split; [exact Hgone | exact Hagain].
Defined.


Lemma moveFile_contract_witness :
  exists result m',
    moveFile Samples.machine0 "notes.txt" "/tmp/moved.txt" false = (Returned result, m') /\
    node_at m' "/tmp/moved.txt" = Some (File "hello") /\
    node_at m' "/home/u/notes.txt" = None.
Proof.
  destruct (moveFile_contract Samples.machine0 "notes.txt" "/tmp/moved.txt"
              "/home/u/notes.txt" "/tmp/moved.txt" false eq_refl eq_refl eq_refl)
    as (_ & _ & H).
  destruct (H "hello" eq_refl ltac:(discriminate) eq_refl eq_refl eq_refl eq_refl eq_refl)
    as (result & m' & Hrun & _ & _ & Hdest & Hsrc & _).
  exists result, m'. split; [exact Hrun|]. split; [exact Hdest | exact Hsrc].
Defined.

Lemma checkDirectoryExists_answers_witness :
  exists result w1 answer,
    createDirectory "/home/u/new/deep" VUndefined Samples.world0 = (Returned result, w1) /\
    checkDirectoryExists (machine w1) "/home/u/new/deep" = Returned answer /\
    obj_get "exists" answer = Some (VBool true).
Proof.
  destruct (checkDirectoryExists_answers Samples.machine0 "/home/u/new/deep"
              "/home/u/new/deep" eq_refl) as [_ H].
  destruct (createDirectory "/home/u/new/deep" VUndefined Samples.world0)
    as [[result|e] w1] eqn:Hcreate; [|vm_compute in Hcreate; discriminate].
  destruct (H VUndefined Samples.world0 w1 result eq_refl Hcreate) as (answer & Hret & Hex).
  exists result, w1, answer. split; [reflexivity|]. split; [exact Hret | exact Hex].
Defined.

End FileOperationsSpec.

(** ** The file operations tool *)

Module FileOperationsToolSpec.
Import Os OsMore FileUtils FileUtilsMore JsFacts DirectoryOperationsTool FileOperationsTool.

(** X23.  Refusals of [file_operations].  An operation other than [copy],
    [move] and [delete] is a protocol error, and so is a copy or move
    without a destination; neither touches the world.  Deleting a missing
    file is no protocol error: without [force] the call returns a failure
    envelope with the message of the check and the normalized path, with
    [force] it returns a success envelope with [existed: false]; the world
    is untouched in both cases. *)
Theorem file_operations_refusals (schema : JsVal) (args : JsObj) (startTime endTime : Z)
  (w : World) :
  let t := tool schema in
  let force := default_to (VBool false) (arg "force" args) in
  ((forall op, string_given (arg "operation" args) = Some op ->
               existsb (String.eqb op) operations = false) ->
   BaseTool.execute t args startTime endTime w
   = (Raised (McpError InvalidParams "Invalid operation. Must be one of: copy, move, delete"),
      w)) /\
  (forall op src,
     string_given (arg "operation" args) = Some op -> op = "copy" \/ op = "move" ->
     string_given (arg "source" args) = Some src ->
     string_given (arg "destination" args) = None ->
     BaseTool.execute t args startTime endTime w
     = (Raised (McpError InvalidParams ("destination is required for " ++ op ++ " operation")),
        w)) /\
  (forall src np,
     string_given (arg "operation" args) = Some "delete" ->
     string_given (arg "source" args) = Some src ->
     validateAndNormalizePath (machine w) src = Returned np ->
     node_at (machine w) np = None ->
     (truthy force = false ->
      BaseTool.execute t args startTime endTime w
      = (Returned [("success", VBool false);
                   ("execution_time_ms", VNum (endTime - startTime));
                   ("error", VStr ("File not found: " ++ np))], w)) /\
     (truthy force = true ->
      exists envelope,
        BaseTool.execute t args startTime endTime w = (Returned envelope, w) /\
        obj_get "success" envelope = Some (VBool true) /\
        obj_get "existed" envelope = Some (VBool false) /\
        obj_get "file_path" envelope = Some (VStr np))).
Proof.
  cbv zeta. unfold BaseTool.execute, tool. cbn [BaseTool.run]. unfold run.
  split; [|split].
  - intros Hop. destruct (string_given (arg "operation" args)) as [op|]; [|reflexivity].
    now rewrite (Hop op eq_refl).
  - intros op src Hop Hcase Hsrc Hdst. rewrite Hop, Hsrc, Hdst.
    destruct Hcase as [-> | ->]; reflexivity.
  - intros src np Hop Hsrc Hv Hn. rewrite Hop, Hsrc.
    cbn [existsb operations map snd FileConstants.FILE_OPERATIONS String.eqb Ascii.eqb
         Bool.eqb orb andb negb].
    unfold dispatch. cbn [String.eqb Ascii.eqb Bool.eqb].
    unfold deleteFile. rewrite Hv. unfold existsSync. rewrite Hn. cbn [negb].
    assert (Hw : with_machine w (machine w) = w) by now destruct w.
    split; intros ->; cbn [negb]; rewrite Hw.
    + reflexivity.
    + eexists. split; [reflexivity|]. repeat split; reflexivity.
Qed.

Lemma file_operations_refusals_witness :
  BaseTool.execute (tool (VObj [])) MoreSamples.delete_missing 0 3 Samples.world0
  = (Returned [("success", VBool false); ("execution_time_ms", VNum 3);
               ("error", VStr "File not found: /home/u/absent.txt")], Samples.world0).
Proof.
  destruct (file_operations_refusals (VObj []) MoreSamples.delete_missing 0 3 Samples.world0)
    as (_ & _ & H).
  destruct (H "/home/u/absent.txt" "/home/u/absent.txt" eq_refl eq_refl eq_refl eq_refl)
    as [Hplain _].
  exact (Hplain eq_refl).
Defined.

End FileOperationsToolSpec.

(** ** The interpreter tables *)

Module InterpreterTables.
Import ConfigManager ExecuteScriptTool.

Section Engine.

Variable member_text : string -> string.
Variable call_member : string -> string -> Outcome Called.

(** X27.  The built-in configuration, the command table and the extension
    table name the same interpreters: one that the default configuration
    allows has a command line and a non-empty file extension of its own in
    the tables.  One that it does not allow has no entry of its own in
    either table; unless it is the name of a member of [Object.prototype],
    the script tool refuses it with [InvalidParams] and the extension falls
    back to [.txt]; if it is such a name, both table reads find the
    inherited member, and the script tool calls the member instead of
    refusing. *)
Theorem interpreter_tables_agree (interpreter scriptPath : string) :
  if isInterpreterAllowed defaults interpreter then
    (exists builder,
       Constants.read Constants.SCRIPT_COMMANDS interpreter = Constants.Own builder /\
       buildScriptCommand call_member interpreter scriptPath
       = Returned (Text (builder scriptPath))) /\
    (exists extension,
       Constants.read Constants.SCRIPT_EXTENSIONS interpreter = Constants.Own extension /\
       extension <> "")
  else
    Constants.lookup Constants.SCRIPT_COMMANDS interpreter = None /\
    Constants.lookup Constants.SCRIPT_EXTENSIONS interpreter = None /\
    if existsb (String.eqb interpreter) Constants.prototype_members then
      Constants.read Constants.SCRIPT_COMMANDS interpreter = Constants.Inherited interpreter /\
      Constants.read Constants.SCRIPT_EXTENSIONS interpreter
      = Constants.Inherited interpreter /\
      buildScriptCommand call_member interpreter scriptPath
      = call_member interpreter scriptPath
    else
      Constants.read Constants.SCRIPT_COMMANDS interpreter = Constants.Missing /\
      Constants.read Constants.SCRIPT_EXTENSIONS interpreter = Constants.Missing /\
      buildScriptCommand call_member interpreter scriptPath
      = Raised (McpError InvalidParams ("Unsupported interpreter: " ++ interpreter)).
Proof.
  unfold isInterpreterAllowed, buildScriptCommand, Constants.read, defaults.
  cbn [allowedInterpreters existsb Constants.lookup Constants.SCRIPT_COMMANDS
       Constants.SCRIPT_EXTENSIONS].
  destruct (String.eqb interpreter "bash") eqn:?; cbn [orb];
    [split; [eexists; split; reflexivity | eexists; split; [reflexivity|discriminate]]|].
  destruct (String.eqb interpreter "sh") eqn:?; cbn [orb];
    [split; [eexists; split; reflexivity | eexists; split; [reflexivity|discriminate]]|].
  destruct (String.eqb interpreter "powershell") eqn:?; cbn [orb];
    [split; [eexists; split; reflexivity | eexists; split; [reflexivity|discriminate]]|].
  destruct (String.eqb interpreter "cmd") eqn:?; cbn [orb];
    [split; [eexists; split; reflexivity | eexists; split; [reflexivity|discriminate]]|].
  destruct (String.eqb interpreter "python") eqn:?; cbn [orb];
    [split; [eexists; split; reflexivity | eexists; split; [reflexivity|discriminate]]|].
  destruct (String.eqb interpreter "python3") eqn:?; cbn [orb];
    [split; [eexists; split; reflexivity | eexists; split; [reflexivity|discriminate]]|].
  destruct (String.eqb interpreter "node") eqn:?; cbn [orb];
    [split; [eexists; split; reflexivity | eexists; split; [reflexivity|discriminate]]|].
  destruct (String.eqb interpreter "perl") eqn:?; cbn [orb];
    [split; [eexists; split; reflexivity | eexists; split; [reflexivity|discriminate]]|].
  destruct (String.eqb interpreter "ruby") eqn:?; cbn [orb];
    [split; [eexists; split; reflexivity | eexists; split; [reflexivity|discriminate]]|].
  split; [reflexivity|]. split; [reflexivity|].
  destruct (existsb (String.eqb interpreter) Constants.prototype_members);
    repeat split; reflexivity.
Qed.

End Engine.

End InterpreterTables.
